(** * Gearman command line tool and libgearman internals

    A shallow embedding of [bin/gearman.c] (the command line client and
    worker) and of the unit tests in [tests/internals.cc], with the
    properties of both stated and proved.

    The command line tool is a C program that talks to the outside world
    (libc, the kernel, libgearman) in every other line.  It is embedded as
    a computation over an explicit [world]: the process state the program
    can observe and change, together with an immutable [env] that scripts
    what each external call answers.  Loops that may run forever take a
    fuel argument; [Running] means that the fuel was used up, never that
    the program returned. *)

From Stdlib Require Import ZArith List String Ascii Lia Bool.
From Stdlib Require Import Strings.Byte.
From Stdlib Require Import Numbers.DecimalString.
From stdpp Require Import base option list gmap.
Import ListNotations.
Open Scope Z_scope.

(** * Machine integers *)

Module Int.

(** [uint32_t]: arithmetic is modulo 2^32. *)
Definition u32 (z : Z) : Z := z mod 2 ^ 32.

(** [uint16_t] (the type behind [in_port_t]). *)
Definition u16 (z : Z) : Z := z mod 2 ^ 16.

(** [size_t] on the LP64 targets the tool is built for. *)
Definition size_t (z : Z) : Z := z mod 2 ^ 64.

(** [int32_t] and [int]: two's complement wrap-around. *)
Definition s32 (z : Z) : Z := (z + 2 ^ 31) mod 2 ^ 32 - 2 ^ 31.

(** Unsigned 32-bit division.  Division by zero has no defined result
    in C; it is [None] here and a trap in the process semantics. *)
Definition udiv32 (a b : Z) : option Z :=
  if b =? 0 then None else Some (a / b).

End Int.

(** * Text helpers used by the [printf] family *)

Definition NUL : byte := x00.
Definition LF : byte := x0a.

(** [%u] of a non-negative number. *)
Definition fmt_u (z : Z) : string := NilZero.string_of_uint (N.to_uint (Z.to_N z)).

(** [%d]. *)
Definition fmt_d (z : Z) : string :=
  if z <? 0 then String "-" (fmt_u (- z)) else fmt_u z.

(** [strlen]: the number of bytes before the first NUL of a buffer. *)
Fixpoint strlen (buf : list byte) : Z :=
  match buf with
  | [] => 0
  | c :: rest => if Byte.eqb c NUL then 0 else 1 + strlen rest
  end.

(** * libgearman return codes *)

(** Modelled from the spec: [gearman_return_t] is declared in
    libgearman/constants.h, which is not part of the sources at hand.  The
    four codes [bin/gearman.c] tests for are kept under their names; the
    others are the error taxonomy of the specification. *)
Inductive gearman_return_t : Set :=
| GEARMAN_SUCCESS
| GEARMAN_IO_WAIT
| GEARMAN_PROTOCOL_ERROR
| GEARMAN_LOST_CONNECTION
| GEARMAN_MEMORY_ALLOCATION_FAILURE
| GEARMAN_TIMEOUT
| GEARMAN_UNREGISTERED_FUNCTION
| GEARMAN_WORK_DATA
| GEARMAN_WORK_STATUS
| GEARMAN_WORK_FAIL.

#[global] Instance gearman_return_t_eq_dec : EqDecision gearman_return_t.
Proof. solve_decision. Defined.

(** * The world of the process *)

(** What the process does that can be seen from outside, in program
    order. *)
Inductive event : Type :=
| EvDo (function : string) (unique : option string)
       (workload : list byte) (workload_size : Z)
    (** a call of [gearman_client_do] with these arguments *)
| EvWrite (data : list byte) (ret : Z)
    (** [write(1, data, |data|)] and what it returned *)
| EvPrintf (s : string)
    (** text sent to standard output through stdio *)
| EvStderr (s : string)
    (** text sent to standard error *)
| EvWork
    (** a call of [gearman_worker_work] *).

(** One answer of [gearman_client_do]: the return code left in [*ret_ptr],
    the result buffer with its size, and the progress pair that
    [gearman_client_do_status] reports afterwards. *)
Record do_reply : Type := {
  do_ret : gearman_return_t;
  do_result : list byte;
  do_numerator : Z;
  do_denominator : Z
}.

(** One round of [gearman_worker_work]: the workload of the job that was
    handed to the registered callback, if a job was assigned, and the code
    the call returns afterwards. *)
Record work_reply : Type := {
  work_job : option (list byte);
  work_ret : gearman_return_t
}.

(** The answers of everything outside the program.  Calls that can happen
    many times are scripted by their call number. *)
Record env : Type := {
  signal_errno : option Z;
    (** [Some e]: [signal] returns [SIG_ERR] and sets [errno] to [e] *)
  client_create_ok : bool;
  client_add_server_ret : gearman_return_t;
  client_error : string;
  client_do_script : nat -> do_reply;
  write_script : nat -> Z;
    (** return value of the k-th [write(1, ...)]; negative on failure *)
  write_errno : nat -> Z;
  read_script : nat -> Z;
    (** what the k-th [read(0, ...)] is ready to deliver: negative on
        failure, otherwise an upper bound (at least one byte) on the
        bytes handed over *)
  read_errno : nat -> Z;
  realloc_ok : Z -> bool;
  indeterminate : nat -> Z;
    (** the value found in an automatic variable that is read before it
        was ever assigned, by the number of [gearman_client_do] calls made
        so far *)
  worker_create_ok : bool;
  worker_add_server_ret : gearman_return_t;
  worker_add_function_ret : gearman_return_t;
  worker_error : string;
  worker_work_script : nat -> work_reply
}.

(** The part of the process state that changes. *)
Record world : Type := {
  trace : list event;
  stdin : list byte;
  errno : Z;
  n_do : nat;
  n_write : nat;
  n_read : nat;
  n_work : nat
}.

Definition initial_world (input : list byte) : world :=
  {| trace := []; stdin := input; errno := 0;
     n_do := 0; n_write := 0; n_read := 0; n_work := 0 |}.

Definition emit (ev : event) (w : world) : world :=
  {| trace := trace w ++ [ev]; stdin := stdin w; errno := errno w;
     n_do := n_do w; n_write := n_write w; n_read := n_read w;
     n_work := n_work w |}.

Definition set_errno (e : Z) (w : world) : world :=
  {| trace := trace w; stdin := stdin w; errno := e;
     n_do := n_do w; n_write := n_write w; n_read := n_read w;
     n_work := n_work w |}.

Definition set_stdin (s : list byte) (w : world) : world :=
  {| trace := trace w; stdin := s; errno := errno w;
     n_do := n_do w; n_write := n_write w; n_read := n_read w;
     n_work := n_work w |}.

Definition tick_do (w : world) : world :=
  {| trace := trace w; stdin := stdin w; errno := errno w;
     n_do := S (n_do w); n_write := n_write w; n_read := n_read w;
     n_work := n_work w |}.

Definition tick_write (w : world) : world :=
  {| trace := trace w; stdin := stdin w; errno := errno w;
     n_do := n_do w; n_write := S (n_write w); n_read := n_read w;
     n_work := n_work w |}.

Definition tick_read (w : world) : world :=
  {| trace := trace w; stdin := stdin w; errno := errno w;
     n_do := n_do w; n_write := n_write w; n_read := S (n_read w);
     n_work := n_work w |}.

Definition tick_work (w : world) : world :=
  {| trace := trace w; stdin := stdin w; errno := errno w;
     n_do := n_do w; n_write := n_write w; n_read := n_read w;
     n_work := S (n_work w) |}.

(** * Process computations *)

(** How a piece of the program can end. *)
Inductive outcome (A : Type) : Type :=
| Returned (a : A) (w : world)
    (** control reached the end and went back to the caller *)
| Exited (code : Z) (w : world)
    (** [exit(code)] was called *)
| Trapped (w : world)
    (** an operation without defined behaviour was executed *)
| Running
    (** out of fuel: the computation has not finished *).

Arguments Returned {A} a w.
Arguments Exited {A} code w.
Arguments Trapped {A} w.
Arguments Running {A}.

Definition proc (A : Type) : Type := world -> outcome A.

#[global] Instance proc_ret : MRet proc := fun A a w => Returned a w.

#[global] Instance proc_bind : MBind proc := fun A B k m w =>
  match m w with
  | Returned a w' => k a w'
  | Exited code w' => Exited code w'
  | Trapped w' => Trapped w'
  | Running => Running
  end.

(** [exit(code)]. *)
Definition exit {A} (code : Z) : proc A := fun w => Exited code w.

(** Undefined behaviour. *)
Definition trap {A} : proc A := fun w => Trapped w.

(** A change of the world that always goes through. *)
Definition effect (f : world -> world) : proc unit := fun w => Returned tt (f w).

Definition fprintf_stderr (s : string) : proc unit := effect (emit (EvStderr s)).
Definition printf (s : string) : proc unit := effect (emit (EvPrintf s)).

(** [write(1, data, |data|)]: the script decides the return value; a
    failure sets [errno]. *)
Definition write (e : env) (data : list byte) : proc Z := fun w =>
  let r := write_script e (n_write w) in
  let w1 := tick_write (emit (EvWrite data r) w) in
  Returned r (if r <? 0 then set_errno (write_errno e (n_write w)) w1 else w1).

(** [gearman_client_do]: the next scripted reply. *)
Definition gearman_client_do (e : env) (function : string)
    (unique : option string) (workload : list byte) (workload_size : Z)
  : proc do_reply := fun w =>
  Returned (client_do_script e (n_do w))
           (tick_do (emit (EvDo function unique workload workload_size) w)).

(** [gearman_client_do_status]: the progress pair of the last reply, as
    the two [uint32_t] the caller receives. *)
Definition gearman_client_do_status (r : do_reply) : Z * Z :=
  (Int.u32 (do_numerator r), Int.u32 (do_denominator r)).

Definition get_errno : proc Z := fun w => Returned (errno w) w.

Definition nl : string := String "010" EmptyString.

(** * The synchronous client call: [_client_do] *)

Definition msg_write_error (en : Z) : string :=
  ("Error writing to standard output (" ++ fmt_d en ++ ")" ++ nl)%string.

Definition msg_complete (pct : Z) : string :=
  (fmt_u pct ++ "% Complete" ++ nl)%string.

Definition msg_job_failed : string := ("Job failed" ++ nl)%string.

(** The [while (1)] of [_client_do].  [write_ret] is the local variable of
    that name: the function tests it and never assigns it. *)
Fixpoint _client_do_loop (fuel : nat) (e : env) (function : string)
    (unique : option string) (workload : list byte) (workload_size : Z)
    (write_ret : Z) : proc unit :=
  match fuel with
  | O => fun _ => Running
  | S fuel' =>
      r ← gearman_client_do e function unique workload workload_size;
      match do_ret r with
      | GEARMAN_WORK_DATA =>
          _ ← write e (do_result r);
          if write_ret <? 0 then
            en ← get_errno;
            _ ← fprintf_stderr (msg_write_error en);
            exit 1
          else
            _client_do_loop fuel' e function unique workload workload_size
                            write_ret
      | GEARMAN_WORK_STATUS =>
          let '(numerator, denominator) := gearman_client_do_status r in
          match Int.udiv32 (Int.u32 (numerator * 100)) denominator with
          | None => trap
          | Some pct =>
              _ ← printf (msg_complete pct);
              _client_do_loop fuel' e function unique workload workload_size
                              write_ret
          end
      | GEARMAN_SUCCESS =>
          _ ← write e (do_result r);
          mret tt
      | GEARMAN_WORK_FAIL => fprintf_stderr msg_job_failed
      | _ => fprintf_stderr (client_error e ++ nl)%string
      end
  end.

Definition _client_do (fuel : nat) (e : env) (function : string)
    (unique : option string) (workload : list byte) (workload_size : Z)
  : proc unit := fun w =>
  _client_do_loop fuel e function unique workload workload_size
                  (indeterminate e (n_do w)) w.

(** * The worker side *)

(** [_worker_cb]: without a command ([argv == NULL]) the callback copies
    the workload of the job to standard output; with one it prints the
    name of the command.  It reports [GEARMAN_SUCCESS] through
    [*ret_ptr]. *)
Definition _worker_cb (e : env) (workload : list byte)
    (cb_arg : option (list string)) : proc gearman_return_t :=
  match cb_arg with
  | None =>
      write_ret ← write e workload;
      if write_ret <? 0 then
        en ← get_errno;
        _ ← fprintf_stderr (msg_write_error en);
        exit 1
      else mret GEARMAN_SUCCESS
  | Some argv =>
      _ ← printf (default EmptyString (head argv) ++ nl)%string;
      mret GEARMAN_SUCCESS
  end.

(** Modelled from the spec: [gearman_worker_work] lives in libgearman,
    which is not part of the sources at hand.  One call grabs at most one
    job; when a job is assigned the registered callback runs on its
    workload before the call returns. *)
Definition gearman_worker_work (e : env)
    (callback : list byte -> proc gearman_return_t)
  : proc gearman_return_t := fun w =>
  let r := worker_work_script e (n_work w) in
  let w1 := tick_work (emit EvWork w) in
  match work_job r with
  | None => Returned (work_ret r) w1
  | Some workload => (_ ← callback workload; mret (work_ret r)) w1
  end.

(** The [while (1)] of [_worker].  [count] is an [int32_t]; it is only
    decremented while positive, so it never wraps. *)
Fixpoint _worker_loop (fuel : nat) (e : env) (exec_argv : option (list string))
    (count : Z) : proc unit :=
  match fuel with
  | O => fun _ => Running
  | S fuel' =>
      ret ← gearman_worker_work e (fun job => _worker_cb e job exec_argv);
      if decide (ret ≠ GEARMAN_SUCCESS) then
        fprintf_stderr (worker_error e ++ nl)%string
      else if count >? 0 then
        let count := count - 1 in
        if count =? 0 then mret tt
        else _worker_loop fuel' e exec_argv count
      else _worker_loop fuel' e exec_argv count
  end.

(** * Command line *)

(** What the C runtime and [getopt] hand to [main]: the argument vector,
    the option characters [getopt] returns before [EOF] with the [optarg]
    of each, and [optind] once parsing is over.  [main] leaves [opterr]
    as it is, so when [getopt] returns the question mark, for an option
    that is not in the option string or that lacks its argument, it has
    written a diagnostic of its own to standard error: the text is the C
    library's and comes with the command line as [getopt_message]. *)
Record cmdline : Type := {
  argv : list string;
  getopt_results : list (ascii * string);
  optind : Z;
  getopt_message : string
}.

Definition argc (c : cmdline) : Z := Z.of_nat (length (argv c)).

(** [argv[i]]. *)
Definition arg (c : cmdline) (i : Z) : string :=
  default EmptyString (argv c !! Z.to_nat i).

Definition tab : string := String "009" EmptyString.

Definition usage (name : string) : proc unit :=
  _ ← printf (nl ++ "usage: " ++ name ++ " [client or worker options]" ++ nl ++ nl)%string;
  _ ← printf ("gearman [-h <host>] [-p <port>] [-u <unique>] <function>" ++ nl)%string;
  _ ← printf ("gearman -w [-h <host>] [-p <port>] <function> [-- cmd [args ...]]" ++ nl)%string;
  _ ← printf (tab ++ "-c <count>  - number of jobs for worker to run before exiting" ++ nl)%string;
  _ ← printf (tab ++ "-h <host>   - job server host" ++ nl)%string;
  _ ← printf (tab ++ "-n          - send one job per newline" ++ nl)%string;
  _ ← printf (tab ++ "-N          - send one job per newline, stripping out newline" ++ nl)%string;
  _ ← printf (tab ++ "-p <port>   - job server port" ++ nl)%string;
  _ ← printf (tab ++ "-u <unique> - unique key to use for job" ++ nl)%string;
  printf (tab ++ "-w          - run as a worker" ++ nl)%string.

(** [_worker]. *)
Definition _worker (fuel : nat) (e : env) (c : cmdline) (count : Z)
  : proc unit :=
  if argc c <? optind c + 1 then
    _ ← usage (arg c 0); exit 1
  else
    let exec_argv :=
      if argc c =? optind c + 1 then None
      else Some (drop (Z.to_nat (optind c + 1)) (argv c)) in
    if negb (worker_create_ok e) then
      _ ← fprintf_stderr ("Memory allocation failure on worker creation" ++ nl)%string;
      exit 1
    else if decide (worker_add_server_ret e ≠ GEARMAN_SUCCESS) then
      _ ← fprintf_stderr (worker_error e ++ nl)%string; exit 1
    else if decide (worker_add_function_ret e ≠ GEARMAN_SUCCESS) then
      _ ← fprintf_stderr (worker_error e ++ nl)%string; exit 1
    else
      _worker_loop fuel e exec_argv count.

(** * Reading the workload *)

Definition GEARMAN_INITIAL_WORKLOAD_SIZE : Z := 8192.

(** [read(0, buf, count)]: hands over at most [count] bytes of what is
    left of standard input, none only at its end. *)
Definition read (e : env) (count : Z) : proc (Z * list byte) := fun w =>
  let k := n_read w in
  let ready := read_script e k in
  let w1 := tick_read w in
  if ready <? 0 then Returned (-1, []) (set_errno (read_errno e k) w1)
  else
    let n := Z.to_nat (Z.min count (Z.max 1 ready)) in
    let data := take n (stdin w) in
    Returned (Z.of_nat (length data), data) (set_stdin (drop n (stdin w)) w1).

(** [_read_workload]: the buffer is the list of bytes read so far (the
    first [workload_offset] bytes of the C buffer), [workload_size] its
    capacity.  The three are the in-out parameters of the C function. *)
Fixpoint _read_workload (fuel : nat) (e : env) (workload : list byte)
    (workload_offset workload_size : Z) : proc (list byte * Z * Z) :=
  match fuel with
  | O => fun _ => Running
  | S fuel' =>
      workload_size ←
        (if workload_offset =? workload_size then
           let workload_size :=
             if workload_size =? 0 then GEARMAN_INITIAL_WORKLOAD_SIZE
             else Int.size_t (workload_size * 2) in
           if realloc_ok e workload_size then mret workload_size
           else
             _ ← fprintf_stderr ("Memory allocation failure on workload" ++ nl)%string;
             exit 1
         else mret workload_size);
      '(read_ret, data) ← read e (workload_size - workload_offset);
      if read_ret <? 0 then
        en ← get_errno;
        _ ← fprintf_stderr
              ("Error reading from standard input (" ++ fmt_d en ++ ")" ++ nl)%string;
        exit 1
      else if read_ret =? 0 then
        mret (workload, workload_offset, workload_size)
      else
        _read_workload fuel' e (workload ++ data)
                       (Int.size_t (workload_offset + read_ret)) workload_size
  end.

(** [fgets(buf, size, stdin)]: at most [size - 1] bytes, up to and
    including the first newline. *)
Fixpoint fgets_take (n : nat) (s : list byte) : list byte * list byte :=
  match n, s with
  | O, _ => ([], s)
  | S _, [] => ([], [])
  | S n', c :: s' =>
      if Byte.eqb c LF then ([c], s')
      else let '(l, r) := fgets_take n' s' in (c :: l, r)
  end.

(** [None] is the null pointer [fgets] returns at end of input; otherwise
    the bytes stored in the buffer, terminating NUL included. *)
Definition fgets (size : Z) : proc (option (list byte)) := fun w =>
  match stdin w with
  | [] => Returned None w
  | _ :: _ =>
      let '(l, r) := fgets_take (Z.to_nat (size - 1)) (stdin w) in
      Returned (Some (l ++ [NUL])) (set_stdin r w)
  end.

(** * The client side *)

(** [_client]: one job whose workload is all of standard input. *)
Definition _client (fuel : nat) (e : env) (c : cmdline)
    (unique : option string) : proc unit :=
  if negb (argc c =? optind c + 1) then
    _ ← usage (arg c 0); exit 1
  else if negb (client_create_ok e) then
    _ ← fprintf_stderr ("Memory allocation failure on client creation" ++ nl)%string;
    exit 1
  else if decide (client_add_server_ret e ≠ GEARMAN_SUCCESS) then
    _ ← fprintf_stderr (client_error e ++ nl)%string; exit 1
  else
    '(workload, workload_offset, _) ← _read_workload fuel e [] 0 0;
    _client_do fuel e (arg c (optind c)) unique workload workload_offset.

(** The [while (1)] of [_client_nl]: one job per line of standard
    input. *)
Fixpoint _client_nl_loop (fuel : nat) (e : env) (function : string)
    (unique : option string) (strip_newline : bool) : proc unit :=
  match fuel with
  | O => fun _ => Running
  | S fuel' =>
      line ← fgets GEARMAN_INITIAL_WORKLOAD_SIZE;
      match line with
      | None => mret tt
      | Some workload =>
          _ ← (if strip_newline then
                 _client_do fuel' e function unique workload
                            (Int.size_t (strlen workload - 1))
               else
                 _client_do fuel' e function unique workload (strlen workload));
          _client_nl_loop fuel' e function unique strip_newline
      end
  end.

(** [_client_nl]. *)
Definition _client_nl (fuel : nat) (e : env) (c : cmdline)
    (unique : option string) (strip_newline : bool) : proc unit :=
  if negb (argc c =? optind c + 1) then
    _ ← usage (arg c 0); exit 1
  else if negb (client_create_ok e) then
    _ ← fprintf_stderr ("Memory allocation failure on client creation" ++ nl)%string;
    exit 1
  else if decide (client_add_server_ret e ≠ GEARMAN_SUCCESS) then
    _ ← fprintf_stderr (client_error e ++ nl)%string; exit 1
  else
    _client_nl_loop fuel e (arg c (optind c)) unique strip_newline.

(** * [main] *)

(** [atoi] of libc: optional white space, an optional sign, then decimal
    digits.  It is [(int) strtol (s, NULL, 10)]: the value is first
    brought into the range of a [long], which saturates at [LONG_MAX]
    and [LONG_MIN], and then cut down to an [int]. *)
Definition is_space (c : ascii) : bool :=
  let n := N_of_ascii c in ((9 <=? n) && (n <=? 13) || (n =? 32))%N.

Definition digit_of (c : ascii) : option Z :=
  let n := Z.of_N (N_of_ascii c) in
  if (48 <=? n) && (n <=? 57) then Some (n - 48) else None.

Fixpoint atoi_digits (s : string) (acc : Z) : Z :=
  match s with
  | EmptyString => acc
  | String c rest =>
      match digit_of c with
      | Some d => atoi_digits rest (acc * 10 + d)
      | None => acc
      end
  end.

Fixpoint skip_space (s : string) : string :=
  match s with
  | EmptyString => EmptyString
  | String c rest => if is_space c then skip_space rest else s
  end.

Definition LONG_MAX : Z := 2 ^ 63 - 1.
Definition LONG_MIN : Z := - 2 ^ 63.

(** The value [strtol] returns for the number [z] it has read. *)
Definition strtol_range (z : Z) : Z := Z.max LONG_MIN (Z.min LONG_MAX z).

Definition atoi (s : string) : Z :=
  match skip_space s with
  | String "-" rest => Int.s32 (strtol_range (- atoi_digits rest 0))
  | String "+" rest => Int.s32 (strtol_range (atoi_digits rest 0))
  | digits => Int.s32 (strtol_range (atoi_digits digits 0))
  end.

(** The local variables of [main] that option parsing sets. *)
Record locals : Type := {
  host : option string;
  port : Z;
  count : Z;
  unique : option string;
  job_per_newline : bool;
  strip_newline : bool;
  worker : bool
}.

Definition initial_locals : locals :=
  {| host := None; port := 0; count := 0; unique := None;
     job_per_newline := false; strip_newline := false; worker := false |}.

(** One round of the [switch] on the character [getopt] returned; [None]
    is the [default] branch. *)
Definition option_case (c : ascii) (optarg : string) (l : locals)
  : option locals :=
  match c with
  | "c"%char =>
      Some {| host := host l; port := port l; count := Int.s32 (atoi optarg);
              unique := unique l; job_per_newline := job_per_newline l;
              strip_newline := strip_newline l; worker := worker l |}
  | "h"%char =>
      Some {| host := Some optarg; port := port l; count := count l;
              unique := unique l; job_per_newline := job_per_newline l;
              strip_newline := strip_newline l; worker := worker l |}
  | "n"%char =>
      Some {| host := host l; port := port l; count := count l;
              unique := unique l; job_per_newline := true;
              strip_newline := strip_newline l; worker := worker l |}
  | "N"%char =>
      Some {| host := host l; port := port l; count := count l;
              unique := unique l; job_per_newline := true;
              strip_newline := true; worker := worker l |}
  | "p"%char =>
      Some {| host := host l; port := Int.u16 (atoi optarg); count := count l;
              unique := unique l; job_per_newline := job_per_newline l;
              strip_newline := strip_newline l; worker := worker l |}
  | "u"%char =>
      Some {| host := host l; port := port l; count := count l;
              unique := Some optarg; job_per_newline := job_per_newline l;
              strip_newline := strip_newline l; worker := worker l |}
  | "w"%char =>
      Some {| host := host l; port := port l; count := count l;
              unique := unique l; job_per_newline := job_per_newline l;
              strip_newline := strip_newline l; worker := true |}
  | _ => None
  end.

(** The [while ((c = getopt(...)) != EOF)] loop. *)
Fixpoint getopt_loop (rs : list (ascii * string)) (l : locals)
  : option locals :=
  match rs with
  | [] => Some l
  | (c, optarg) :: rs' =>
      match option_case c optarg l with
      | Some l' => getopt_loop rs' l'
      | None => None
      end
  end.

(** [main]; the value returned is the exit status of the process.  The
    [default] branch of the [switch] is reached after [getopt] has
    written its diagnostic. *)
Definition main (fuel : nat) (e : env) (c : cmdline) : proc Z :=
  match getopt_loop (getopt_results c) initial_locals with
  | None =>
      _ ← fprintf_stderr (getopt_message c);
      _ ← usage (arg c 0);
      exit 1
  | Some l =>
      match signal_errno e with
      | Some en =>
          _ ← effect (set_errno en);
          _ ← fprintf_stderr ("signal:" ++ fmt_d en ++ nl)%string;
          exit 1
      | None =>
          _ ← (if worker l then _worker fuel e c (count l)
               else if job_per_newline l then
                 _client_nl fuel e c (unique l) (strip_newline l)
               else _client fuel e c (unique l));
          mret 0
      end
  end.

(** The exit status the parent process sees, when there is one. *)
Definition exit_status (o : outcome Z) : option Z :=
  match o with
  | Returned code _ => Some code
  | Exited code _ => Some code
  | Trapped _ => None
  | Running => None
  end.

(** The world in which a computation ended, when it ended. *)
Definition final_world {A} (o : outcome A) : option world :=
  match o with
  | Returned _ w => Some w
  | Exited _ w => Some w
  | Trapped w => Some w
  | Running => None
  end.

(** * libgearman internals, as exercised by tests/internals.cc *)

(** ** Memory *)

Module Mem.

(** Addresses; [NULL] is 0. *)
Definition ptr : Type := Z.
Definition NULL : ptr := 0.

(** The blocks handed out by the allocator and not yet given back, and
    the next address it will hand out. *)
Record heap : Type := {
  blocks : gmap Z (list byte);
  brk : Z
}.

Definition empty_heap : heap := {| blocks := ∅; brk := 1 |}.

(** [strdup]: a fresh block holding the text and its NUL. *)
Definition strdup (s : list byte) (h : heap) : ptr * heap :=
  let p := Z.max 1 (brk h) in
  (p, {| blocks := <[p := s ++ [NUL]]> (blocks h); brk := p + 1 |}).

(** [free]: nothing for [NULL]; giving back a block that is not live
    (a second [free], or memory that was never allocated) has no defined
    behaviour and is [None]. *)
Definition free (p : ptr) (h : heap) : option heap :=
  if decide (p = NULL) then Some h
  else match blocks h !! p with
       | Some _ => Some {| blocks := delete p (blocks h); brk := brk h |}
       | None => None
       end.

End Mem.

(** ** Packets *)

Module Packet.

Record options_t : Type := {
  allocated : bool;
  complete : bool;
  free_data : bool
}.

(** The fields of [gearman_packet_st] that the tests look at. *)
Record gearman_packet_st : Type := {
  options : options_t;
  data : Mem.ptr;
  data_size : Z
}.

(** Modelled from the spec: [gearman_packet_create] is part of
    libgearman, which is not among the sources at hand.  A packet
    set up in storage of the caller is not [allocated], not [complete],
    and owns no data. *)
Definition gearman_packet_create : gearman_packet_st :=
  {| options := {| allocated := false; complete := false; free_data := false |};
     data := Mem.NULL; data_size := 0 |}.

(** Modelled from the spec: [gearman_packet_give_data] is part of
    libgearman.  The packet takes the buffer over: it records pointer
    and size and raises the one flag that says the data is its own to
    free. *)
Definition gearman_packet_give_data (packet : gearman_packet_st)
    (d : Mem.ptr) (n : Z) : gearman_packet_st :=
  {| options := {| allocated := allocated (options packet);
                   complete := complete (options packet);
                   free_data := true |};
     data := d; data_size := n |}.

(** Modelled from the spec: [gearman_packet_take_data] is part of
    libgearman.  The caller gets pointer and size back and the packet
    forgets both and lowers the flag. *)
Definition gearman_packet_take_data (packet : gearman_packet_st)
  : Mem.ptr * Z * gearman_packet_st :=
  (data packet, data_size packet,
   {| options := {| allocated := allocated (options packet);
                    complete := complete (options packet);
                    free_data := false |};
      data := Mem.NULL; data_size := 0 |}).

(** Modelled from the spec: [gearman_packet_free] is part of
    libgearman.  A packet frees its data exactly when the flag says it
    owns it; borrowed data is left alone. *)
Definition gearman_packet_free (packet : gearman_packet_st) (h : Mem.heap)
  : option Mem.heap :=
  if free_data (options packet) then Mem.free (data packet) h else Some h.

#[global] Instance options_t_eq_dec : EqDecision options_t.
Proof. solve_decision. Defined.

#[global] Instance gearman_packet_st_eq_dec : EqDecision gearman_packet_st.
Proof. solve_decision. Defined.

End Packet.

(** ** The universal context *)

Module Universal.

(** Modelled from the spec: the option enumeration is declared in
    libgearman/constants.h, which is not among the sources at hand.
    [GEARMAN_MAX] closes an option array, as in the tests. *)
Inductive gearman_universal_options_t : Set :=
| GEARMAN_NON_BLOCKING
| GEARMAN_DONT_TRACK_PACKETS
| GEARMAN_STORED_NON_BLOCKING
| GEARMAN_MAX.

#[global] Instance gearman_universal_options_t_eq_dec :
  EqDecision gearman_universal_options_t.
Proof. solve_decision. Defined.

Record options_t : Type := {
  dont_track_packets : bool;
  non_blocking : bool;
  stored_non_blocking : bool
}.

(** A connection as far as the context is concerned. *)
Record gearman_connection_st : Type := {
  con_host : string;
  con_port : Z
}.

#[global] Instance gearman_connection_st_eq_dec :
  EqDecision gearman_connection_st.
Proof. solve_decision. Defined.

(** The fields of [gearman_universal_st] that the tests compare.  The
    callbacks and their context pointers are addresses. *)
Record gearman_universal_st : Type := {
  options : options_t;
  verbose : Z;
  con_count : Z;
  packet_count : Z;
  pfds_size : Z;
  last_errno : Z;
  last_error : option string;
  timeout : Z;
  con_list : list gearman_connection_st;
  packet_list : list Packet.gearman_packet_st;
  pfds : Mem.ptr;
  log_fn : Mem.ptr;
  log_context : Mem.ptr;
  workload_malloc_fn : Mem.ptr;
  workload_malloc_context : Mem.ptr;
  workload_free_fn : Mem.ptr;
  workload_free_context : Mem.ptr
}.

Definition set_options (o : options_t) (u : gearman_universal_st)
  : gearman_universal_st :=
  {| options := o; verbose := verbose u; con_count := con_count u;
     packet_count := packet_count u; pfds_size := pfds_size u;
     last_errno := last_errno u; last_error := last_error u;
     timeout := timeout u; con_list := con_list u;
     packet_list := packet_list u; pfds := pfds u; log_fn := log_fn u;
     log_context := log_context u;
     workload_malloc_fn := workload_malloc_fn u;
     workload_malloc_context := workload_malloc_context u;
     workload_free_fn := workload_free_fn u;
     workload_free_context := workload_free_context u |}.

(** The flag an option stands for; the terminator stands for none. *)
Definition flag (o : gearman_universal_options_t) (u : gearman_universal_st)
  : bool :=
  match o with
  | GEARMAN_NON_BLOCKING => non_blocking (options u)
  | GEARMAN_DONT_TRACK_PACKETS => dont_track_packets (options u)
  | GEARMAN_STORED_NON_BLOCKING => stored_non_blocking (options u)
  | GEARMAN_MAX => false
  end.

Definition set_flag (o : gearman_universal_options_t) (value : bool)
    (u : gearman_universal_st) : gearman_universal_st :=
  let f := options u in
  match o with
  | GEARMAN_NON_BLOCKING =>
      set_options {| dont_track_packets := dont_track_packets f;
                     non_blocking := value;
                     stored_non_blocking := stored_non_blocking f |} u
  | GEARMAN_DONT_TRACK_PACKETS =>
      set_options {| dont_track_packets := value;
                     non_blocking := non_blocking f;
                     stored_non_blocking := stored_non_blocking f |} u
  | GEARMAN_STORED_NON_BLOCKING =>
      set_options {| dont_track_packets := dont_track_packets f;
                     non_blocking := non_blocking f;
                     stored_non_blocking := value |} u
  | GEARMAN_MAX => u
  end.

(** Modelled from the spec: [gearman_universal_add_options] is part of
    libgearman.  It raises the flag of the option. *)
Definition gearman_universal_add_options (u : gearman_universal_st)
    (o : gearman_universal_options_t) : gearman_universal_st :=
  set_flag o true u.

(** Modelled from the spec: [gearman_universal_remove_options] is part
    of libgearman.  It lowers the flag of the option. *)
Definition gearman_universal_remove_options (u : gearman_universal_st)
    (o : gearman_universal_options_t) : gearman_universal_st :=
  set_flag o false u.

(** The options of a [GEARMAN_MAX]-terminated array, applied in order. *)
Fixpoint apply_options (opts : list gearman_universal_options_t)
    (u : gearman_universal_st) : gearman_universal_st :=
  match opts with
  | [] => u
  | GEARMAN_MAX :: _ => u
  | o :: rest => apply_options rest (gearman_universal_add_options u o)
  end.

(** The entries of an option array in front of its terminator. *)
Fixpoint listed (opts : list gearman_universal_options_t)
  : list gearman_universal_options_t :=
  match opts with
  | [] => []
  | GEARMAN_MAX :: _ => []
  | o :: rest => o :: listed rest
  end.

(** Modelled from the spec: [gearman_universal_create] is part of
    libgearman.  All flags start clear, the timeout is -1 (block without
    limit), nothing is attached, no error is recorded; then the options
    of the array, if one is given, are applied. *)
Definition gearman_universal_create
    (opts : option (list gearman_universal_options_t))
  : gearman_universal_st :=
  let u :=
    {| options := {| dont_track_packets := false; non_blocking := false;
                     stored_non_blocking := false |};
       verbose := 0; con_count := 0; packet_count := 0; pfds_size := 0;
       last_errno := 0; last_error := None; timeout := -1;
       con_list := []; packet_list := []; pfds := Mem.NULL;
       log_fn := Mem.NULL; log_context := Mem.NULL;
       workload_malloc_fn := Mem.NULL; workload_malloc_context := Mem.NULL;
       workload_free_fn := Mem.NULL; workload_free_context := Mem.NULL |} in
  match opts with
  | None => u
  | Some opts => apply_options opts u
  end.

(** Modelled from the spec: [gearman_universal_clone] is part of
    libgearman.  Flags and counters and the other scalars are copied;
    the lists of connections and packets of the clone start empty. *)
Definition gearman_universal_clone (source : gearman_universal_st)
  : gearman_universal_st :=
  {| options := options source; verbose := verbose source;
     con_count := con_count source; packet_count := packet_count source;
     pfds_size := pfds_size source; last_errno := last_errno source;
     last_error := last_error source; timeout := timeout source;
     con_list := []; packet_list := []; pfds := pfds source;
     log_fn := log_fn source; log_context := log_context source;
     workload_malloc_fn := workload_malloc_fn source;
     workload_malloc_context := workload_malloc_context source;
     workload_free_fn := workload_free_fn source;
     workload_free_context := workload_free_context source |}.

(** Modelled from the spec: [gearman_universal_timeout] and
    [gearman_universal_set_timeout] are part of libgearman: getter and
    setter of the timeout in milliseconds. *)
Definition gearman_universal_timeout (u : gearman_universal_st) : Z :=
  timeout u.

Definition gearman_universal_set_timeout (u : gearman_universal_st) (t : Z)
  : gearman_universal_st :=
  {| options := options u; verbose := verbose u; con_count := con_count u;
     packet_count := packet_count u; pfds_size := pfds_size u;
     last_errno := last_errno u; last_error := last_error u;
     timeout := t; con_list := con_list u;
     packet_list := packet_list u; pfds := pfds u; log_fn := log_fn u;
     log_context := log_context u;
     workload_malloc_fn := workload_malloc_fn u;
     workload_malloc_context := workload_malloc_context u;
     workload_free_fn := workload_free_fn u;
     workload_free_context := workload_free_context u |}.

(** Modelled from the spec: [gearman_universal_is_non_blocking] is part
    of libgearman. *)
Definition gearman_universal_is_non_blocking (u : gearman_universal_st)
  : bool := non_blocking (options u).

(** Modelled from the spec: what creating a connection on a context
    does to the context (the function doing it is part of libgearman):
    the connection joins the end of the list and is counted. *)
Definition attach_connection (u : gearman_universal_st)
    (c : gearman_connection_st) : gearman_universal_st :=
  {| options := options u; verbose := verbose u;
     con_count := con_count u + 1;
     packet_count := packet_count u; pfds_size := pfds_size u;
     last_errno := last_errno u; last_error := last_error u;
     timeout := timeout u; con_list := con_list u ++ [c];
     packet_list := packet_list u; pfds := pfds u; log_fn := log_fn u;
     log_context := log_context u;
     workload_malloc_fn := workload_malloc_fn u;
     workload_malloc_context := workload_malloc_context u;
     workload_free_fn := workload_free_fn u;
     workload_free_context := workload_free_context u |}.

(** Modelled from the spec: [gearman_universal_free] is part of
    libgearman.  Whatever is still attached is released first. *)
Definition gearman_universal_free (u : gearman_universal_st)
  : gearman_universal_st :=
  {| options := options u; verbose := verbose u; con_count := 0;
     packet_count := 0; pfds_size := pfds_size u;
     last_errno := last_errno u; last_error := last_error u;
     timeout := timeout u; con_list := [];
     packet_list := []; pfds := pfds u; log_fn := log_fn u;
     log_context := log_context u;
     workload_malloc_fn := workload_malloc_fn u;
     workload_malloc_context := workload_malloc_context u;
     workload_free_fn := workload_free_fn u;
     workload_free_context := workload_free_context u |}.

End Universal.

(** ** The unit tests of tests/internals.cc *)

Module Tests.

Import Universal.

(** The verdict of a test.  libtest/test.h is not among the sources at
    hand; [test_truth (x)] leaves the test with [TEST_FAILURE] when [x]
    is false, [test_false (x)] when it is true. *)
Inductive test_return_t : Set := TEST_SUCCESS | TEST_FAILURE.

(** A test runs against the heap.  It goes on, leaves early with a
    verdict, or faults on an invalid [free]. *)
Inductive step (A : Type) : Type :=
| Next (a : A) (h : Mem.heap)
| Leave (r : test_return_t) (h : Mem.heap)
| Fault.

Arguments Next {A} a h.
Arguments Leave {A} r h.
Arguments Fault {A}.

Definition test (A : Type) : Type := Mem.heap -> step A.

#[global] Instance test_ret : MRet test := fun A a h => Next a h.

#[global] Instance test_bind : MBind test := fun A B k m h =>
  match m h with
  | Next a h' => k a h'
  | Leave r h' => Leave r h'
  | Fault => Fault
  end.

Definition test_truth (x : bool) : test unit := fun h =>
  if x then Next tt h else Leave TEST_FAILURE h.

Definition test_false (x : bool) : test unit := test_truth (negb x).

Definition strdup (s : string) : test Mem.ptr := fun h =>
  let '(p, h') := Mem.strdup (list_byte_of_string s) h in Next p h'.

Definition free (p : Mem.ptr) : test unit := fun h =>
  match Mem.free p h with
  | Some h' => Next tt h'
  | None => Fault
  end.

Definition gearman_packet_free (packet : Packet.gearman_packet_st)
  : test unit := fun h =>
  match Packet.gearman_packet_free packet h with
  | Some h' => Next tt h'
  | None => Fault
  end.

(** Verdict and final heap of a test started on [h]; [None] after a
    fault. *)
Definition run (t : test test_return_t) (h : Mem.heap)
  : option (test_return_t * Mem.heap) :=
  match t h with
  | Next r h' => Some (r, h')
  | Leave r h' => Some (r, h')
  | Fault => None
  end.

(** In the tests below a context is a value: [gearman_universal_create]
    fills the storage it is given and returns its address, so the
    checks that the pointer returned is that address have nothing left
    to compare and are not repeated. *)

Definition init_test : test test_return_t :=
  let gear := gearman_universal_create None in
  _ ← test_false (dont_track_packets (options gear));
  _ ← test_false (non_blocking (options gear));
  _ ← test_false (stored_non_blocking (options gear));
  let gear := gearman_universal_free gear in
  mret TEST_SUCCESS.

Definition clone_test : test test_return_t :=
  let gear := gearman_universal_create None in
  let gear_clone := gearman_universal_clone gear in
  _ ← test_truth (bool_decide (dont_track_packets (options gear_clone)
                               = dont_track_packets (options gear)));
  _ ← test_truth (bool_decide (non_blocking (options gear_clone)
                               = non_blocking (options gear)));
  _ ← test_truth (bool_decide (stored_non_blocking (options gear_clone)
                               = stored_non_blocking (options gear)));
  _ ← test_truth (bool_decide (verbose gear_clone = verbose gear));
  _ ← test_truth (bool_decide (con_count gear_clone = con_count gear));
  _ ← test_truth (bool_decide (packet_count gear_clone = packet_count gear));
  _ ← test_truth (bool_decide (pfds_size gear_clone = pfds_size gear));
  _ ← test_truth (bool_decide (last_errno gear_clone = last_errno gear));
  _ ← test_truth (bool_decide (timeout gear_clone = timeout gear));
  _ ← test_truth (bool_decide (con_list gear_clone = con_list gear));
  _ ← test_truth (bool_decide (packet_list gear_clone = packet_list gear));
  _ ← test_truth (bool_decide (pfds gear_clone = pfds gear));
  _ ← test_truth (bool_decide (log_fn gear_clone = log_fn gear));
  _ ← test_truth (bool_decide (log_context gear_clone = log_context gear));
  _ ← test_truth (bool_decide (workload_malloc_fn gear_clone
                               = workload_malloc_fn gear));
  _ ← test_truth (bool_decide (workload_malloc_context gear_clone
                               = workload_malloc_context gear));
  _ ← test_truth (bool_decide (workload_free_fn gear_clone
                               = workload_free_fn gear));
  _ ← test_truth (bool_decide (workload_free_context gear_clone
                               = workload_free_context gear));
  let gear := gearman_universal_free gear in
  let gear := gearman_universal_free gear in
  mret TEST_SUCCESS.

Definition set_timout_test : test test_return_t :=
  let gear := gearman_universal_create None in
  let time_data := gearman_universal_timeout gear in
  _ ← test_truth (bool_decide (time_data = -1));
  let gear := gearman_universal_set_timeout gear 20 in
  let time_data := gearman_universal_timeout gear in
  _ ← test_truth (bool_decide (time_data = 20));
  let gear := gearman_universal_set_timeout gear 10 in
  let time_data := gearman_universal_timeout gear in
  _ ← test_truth (bool_decide (time_data = 10));
  let gear := gearman_universal_free gear in
  mret TEST_SUCCESS.

Definition state_option_on_create_test : test test_return_t :=
  let options := [GEARMAN_NON_BLOCKING; GEARMAN_DONT_TRACK_PACKETS; GEARMAN_MAX] in
  let universal := gearman_universal_create (Some options) in
  _ ← test_truth (dont_track_packets (Universal.options universal));
  _ ← test_truth (non_blocking (Universal.options universal));
  _ ← test_false (stored_non_blocking (Universal.options universal));
  let universal := gearman_universal_free universal in
  mret TEST_SUCCESS.

Definition state_option_set_test : test test_return_t :=
  let options := [GEARMAN_NON_BLOCKING; GEARMAN_DONT_TRACK_PACKETS; GEARMAN_MAX] in
  let universal := gearman_universal_create (Some options) in
  _ ← test_truth (dont_track_packets (Universal.options universal));
  _ ← test_truth (non_blocking (Universal.options universal));
  _ ← test_false (stored_non_blocking (Universal.options universal));
  _ ← test_truth (gearman_universal_is_non_blocking universal);
  let universal := gearman_universal_create None in
  _ ← test_false (dont_track_packets (Universal.options universal));
  _ ← test_false (non_blocking (Universal.options universal));
  _ ← test_false (stored_non_blocking (Universal.options universal));
  let universal :=
    gearman_universal_add_options universal GEARMAN_DONT_TRACK_PACKETS in
  _ ← test_truth (dont_track_packets (Universal.options universal));
  _ ← test_false (non_blocking (Universal.options universal));
  _ ← test_false (stored_non_blocking (Universal.options universal));
  let universal :=
    gearman_universal_remove_options universal GEARMAN_DONT_TRACK_PACKETS in
  _ ← test_false (dont_track_packets (Universal.options universal));
  _ ← test_false (non_blocking (Universal.options universal));
  _ ← test_false (stored_non_blocking (Universal.options universal));
  let universal := gearman_universal_free universal in
  mret TEST_SUCCESS.

Definition gearman_packet_give_data_test : test test_return_t :=
  data ← strdup "Mine!";
  let data_size := strlen (list_byte_of_string "Mine!") in
  let universal := gearman_universal_create None in
  let packet := Packet.gearman_packet_create in
  let packet := Packet.gearman_packet_give_data packet data data_size in
  _ ← test_truth (bool_decide (Packet.data packet = data));
  _ ← test_truth (bool_decide (Packet.data_size packet = data_size));
  _ ← test_truth (Packet.free_data (Packet.options packet));
  _ ← gearman_packet_free packet;
  let universal := gearman_universal_free universal in
  mret TEST_SUCCESS.

Definition gearman_packet_take_data_test : test test_return_t :=
  data ← strdup "Mine!";
  let data_size := strlen (list_byte_of_string "Mine!") in
  let universal := gearman_universal_create None in
  let packet := Packet.gearman_packet_create in
  let packet := Packet.gearman_packet_give_data packet data data_size in
  _ ← test_truth (bool_decide (Packet.data packet = data));
  _ ← test_truth (bool_decide (Packet.data_size packet = data_size));
  _ ← test_truth (Packet.free_data (Packet.options packet));
  let '(mine, mine_size, packet) := Packet.gearman_packet_take_data packet in
  _ ← test_false (bool_decide (Packet.data packet ≠ Mem.NULL));
  _ ← test_false (bool_decide (Packet.data_size packet ≠ 0));
  _ ← test_false (Packet.free_data (Packet.options packet));
  _ ← test_truth (bool_decide (mine = data));
  _ ← test_truth (bool_decide (data_size = mine_size));
  _ ← gearman_packet_free packet;
  let universal := gearman_universal_free universal in
  _ ← free data;
  mret TEST_SUCCESS.

End Tests.

(** * Vocabulary of the statements *)

(** The world right after a call of [gearman_client_do]. *)
Definition after_do (function : string) (unique : option string)
    (workload : list byte) (workload_size : Z) (w : world) : world :=
  tick_do (emit (EvDo function unique workload workload_size) w).

(** The world right after a [write] of [data]. *)
Definition after_write (e : env) (data : list byte) (w : world) : world :=
  let r := write_script e (n_write w) in
  let w1 := tick_write (emit (EvWrite data r) w) in
  if r <? 0 then set_errno (write_errno e (n_write w)) w1 else w1.

(** The percentage [_client_do] prints for a reply, when the division is
    defined. *)
Definition percent (r : do_reply) : option Z :=
  let '(numerator, denominator) := gearman_client_do_status r in
  Int.udiv32 (Int.u32 (numerator * 100)) denominator.

(** A reply after which the loop goes round again without harm: streamed
    data while the unassigned [write_ret] happens not to be negative, or a
    progress report with a denominator other than zero. *)
Definition benign (write_ret : Z) (r : do_reply) : Prop :=
  (do_ret r = GEARMAN_WORK_DATA /\ 0 <= write_ret)
  \/ (do_ret r = GEARMAN_WORK_STATUS /\ Int.u32 (do_denominator r) <> 0).

(** The replies that are neither streamed data nor a progress report. *)
Definition terminal (r : gearman_return_t) : bool :=
  match r with
  | GEARMAN_WORK_DATA | GEARMAN_WORK_STATUS => false
  | _ => true
  end.

(** What [_client_do] sends to standard error for a terminal reply. *)
Definition report (e : env) (r : gearman_return_t) : option string :=
  match r with
  | GEARMAN_WORK_DATA | GEARMAN_WORK_STATUS | GEARMAN_SUCCESS => None
  | GEARMAN_WORK_FAIL => Some msg_job_failed
  | _ => Some (client_error e ++ nl)%string
  end.

(** The calls of [gearman_worker_work] numbered [k], ..., [k + n - 1] all
    return [GEARMAN_SUCCESS]. *)
Definition successes (e : env) (k n : nat) : Prop :=
  forall i, (k <= i < k + n)%nat ->
            work_ret (worker_work_script e i) = GEARMAN_SUCCESS.

(** Every [exit] a computation can reach is an [exit(1)]. *)
Definition exits_only_1 {A} (m : proc A) : Prop :=
  forall w code w', m w = Exited code w' -> code = 1.

(** The client side is ready to submit: one argument is left for the
    function name, the client was created and the server was added. *)
Definition client_ready (e : env) (c : cmdline) : bool :=
  (argc c =? optind c + 1)
  && client_create_ok e
  && bool_decide (client_add_server_ret e = GEARMAN_SUCCESS).

(** The worker side is ready to grab jobs. *)
Definition worker_ready (e : env) (c : cmdline) : bool :=
  negb (argc c <? optind c + 1)
  && worker_create_ok e
  && bool_decide (worker_add_server_ret e = GEARMAN_SUCCESS)
  && bool_decide (worker_add_function_ret e = GEARMAN_SUCCESS).

(** The command of a worker, if one was given after the function name. *)
Definition exec_argv_of (c : cmdline) : option (list string) :=
  if argc c =? optind c + 1 then None
  else Some (drop (Z.to_nat (optind c + 1)) (argv c)).

(** Something goes wrong before the first job is submitted or grabbed:
    an option [main] does not know, [signal] failing, or the side that
    was asked for not getting ready. *)
Definition setup_fails (e : env) (c : cmdline) : bool :=
  match getopt_loop (getopt_results c) initial_locals with
  | None => true
  | Some l =>
      match signal_errno e with
      | Some _ => true
      | None =>
          if worker l then negb (worker_ready e c)
          else negb (client_ready e c)
      end
  end.

(** The size handed to [gearman_client_do] is one less than the length of
    the buffer as a C string, in [size_t]. *)
Definition stripped_size (ev : event) : Prop :=
  match ev with
  | EvDo _ _ workload workload_size =>
      workload_size = Int.size_t (strlen workload - 1)
  | _ => True
  end.

(** However a computation ends, a property of the world that held before
    holds after. *)
Definition preserves {A} (P : world -> Prop) (m : proc A) : Prop :=
  forall w w', P w -> final_world (m w) = Some w' -> P w'.

(** Every call of [gearman_client_do] on the trace carries a stripped
    size. *)
Definition all_stripped (w : world) : Prop :=
  Forall stripped_size (trace w).

(** Between [w] and [w'] nothing happened but reading: the trace, [errno]
    and the call counters of the library and of [write] are the same. *)
Definition only_read (w w' : world) : Prop :=
  trace w' = trace w /\ errno w' = errno w /\ n_do w' = n_do w
  /\ n_write w' = n_write w /\ n_work w' = n_work w.

(** What holds of offset and capacity each time round the loop of
    [_read_workload]. *)
Definition buffer_ok (workload : list byte) (offset size : Z) : Prop :=
  offset = Z.of_nat (length workload)
  /\ offset <= size
  /\ (size = 0 \/ 8192 <= size)
  /\ size <= Z.max 8192 (2 * offset).

(** The two complaints of [_read_workload]. *)
Definition msg_workload_alloc : string :=
  ("Memory allocation failure on workload" ++ nl)%string.

Definition msg_read_error (en : Z) : string :=
  ("Error reading from standard input (" ++ fmt_d en ++ ")" ++ nl)%string.

(** The last thing [_client_do] does for a terminal reply: the result
    goes to [write] when the job succeeded, a line goes to standard error
    otherwise.  [k] is the number of [write] calls made before. *)
Definition final_event (e : env) (r : do_reply) (k : nat) : event :=
  match report e (do_ret r) with
  | Some msg => EvStderr msg
  | None => EvWrite (do_result r) (write_script e k)
  end.

(** What the program hands to standard output: a buffer given to
    [write], whether or not [write] takes it, or a text given to
    [printf]. *)
Inductive output : Type :=
| OutData (data : list byte)
| OutText (s : string).

Definition output_of_event (ev : event) : list output :=
  match ev with
  | EvWrite data _ => [OutData data]
  | EvPrintf s => [OutText s]
  | _ => []
  end.

Definition outputs (tr : list event) : list output :=
  flat_map output_of_event tr.

(** What [_client_do] hands to standard output for one reply. *)
Definition output_of_reply (r : do_reply) : list output :=
  match do_ret r with
  | GEARMAN_WORK_DATA | GEARMAN_SUCCESS => [OutData (do_result r)]
  | GEARMAN_WORK_STATUS =>
      match percent r with
      | Some pct => [OutText (msg_complete pct)]
      | None => []
      end
  | _ => []
  end.

(** The workloads handed to [gearman_client_do], each cut to the size
    that was passed along with it. *)
Definition submitted_bytes (ev : event) : list (list byte) :=
  match ev with
  | EvDo _ _ workload workload_size =>
      [take (Z.to_nat workload_size) workload]
  | _ => []
  end.

Definition submitted (tr : list event) : list (list byte) :=
  flat_map submitted_bytes tr.

(** Standard input made of these lines, each closed by a newline. *)
Definition input_of_lines (lines : list (list byte)) : list byte :=
  concat (map (fun line => line ++ [LF]) lines).

(** A line that [fgets] hands over in one piece and whose length as a C
    string is its length: no newline and no NUL inside, and room for the
    newline in the buffer of [_client_nl]. *)
Definition plain_line (line : list byte) : Prop :=
  (LF ∉ line) /\ (NUL ∉ line)
  /\ Z.of_nat (length line) < GEARMAN_INITIAL_WORKLOAD_SIZE - 1.

(** The option characters [main] has a [case] for. *)
Definition valid_option (c : ascii) : bool :=
  existsb (Ascii.eqb c) ["c"; "h"; "n"; "N"; "p"; "u"; "w"]%char.

(** The character [c] is among the options [getopt] returned. *)
Definition given (c : ascii) (rs : list (ascii * string)) : bool :=
  existsb (fun r => Ascii.eqb (fst r) c) rs.

(** The argument of the last occurrence of option [c], if it occurs. *)
Fixpoint last_optarg (c : ascii) (rs : list (ascii * string))
  : option string :=
  match rs with
  | [] => None
  | (c', optarg) :: rs' =>
      match last_optarg c rs' with
      | Some a => Some a
      | None => if Ascii.eqb c' c then Some optarg else None
      end
  end.

(** Between [w] and [w'] the client side did nothing: no call of
    [gearman_client_do], and standard input was not read. *)
Definition client_idle (w w' : world) : Prop :=
  n_do w' = n_do w /\ stdin w' = stdin w /\ n_read w' = n_read w.

(** Between [w] and [w'] no job was submitted or grabbed, nothing was
    read and nothing was given to [write]. *)
Definition untouched (w w' : world) : Prop :=
  stdin w' = stdin w /\ n_do w' = n_do w /\ n_work w' = n_work w
  /\ n_write w' = n_write w /\ n_read w' = n_read w.

(** The events of round [i] of a worker that was given the command
    [cmd]: the call of [gearman_worker_work] and, when a job was
    assigned, the name of the command on standard output. *)
Definition round_events (e : env) (cmd : string) (i : nat) : list event :=
  EvWork :: match work_job (worker_work_script e i) with
            | Some _ => [EvPrintf (cmd ++ nl)%string]
            | None => []
            end.

(** What the worker loop adds after round [i] when it was the last: the
    error of the worker on standard error if the round failed. *)
Definition closing_report (e : env) (i : nat) : list event :=
  if decide (work_ret (worker_work_script e i) ≠ GEARMAN_SUCCESS)
  then [EvStderr (worker_error e ++ nl)%string]
  else [].

(** What a worker without a command hands to standard output in a
    round: the workload of the job, if one was assigned. *)
Definition output_of_round (r : work_reply) : list output :=
  match work_job r with
  | Some job => [OutData job]
  | None => []
  end.

(** A submission of the per-line loop stays within the line buffer: the
    buffer holds at most 8192 bytes and the size is at most 8191, or at
    most 8190 with newline stripping, where the one exception is the
    wrapped size of a line that starts with a NUL. *)
Definition line_sized (strip : bool) (ev : event) : Prop :=
  match ev with
  | EvDo _ _ workload workload_size =>
      Z.of_nat (length workload) <= GEARMAN_INITIAL_WORKLOAD_SIZE
      /\ (if strip
          then 0 <= workload_size <= GEARMAN_INITIAL_WORKLOAD_SIZE - 2
               \/ (workload_size = 2 ^ 64 - 1 /\ strlen workload = 0)
          else 0 <= workload_size <= GEARMAN_INITIAL_WORKLOAD_SIZE - 1)
  | _ => True
  end.

(** Every event on the trace has the property [Q]. *)
Definition all_events (Q : event -> Prop) (w : world) : Prop :=
  Forall Q (trace w).

(** How [_read_workload] accounts for leaving the process between [w]
    and [w']: a [realloc] that failed and the allocation complaint, or
    the first [read] that failed, with the complaint showing the [errno]
    this [read] set. *)
Definition reported_failure (e : env) (w w' : world) : Prop :=
  (exists size,
     realloc_ok e size = false
     /\ trace w' = trace w ++ [EvStderr msg_workload_alloc])
  \/ (exists k,
        (n_read w <= k)%nat
        /\ (forall j, (n_read w <= j < k)%nat -> 0 <= read_script e j)
        /\ read_script e k < 0
        /\ n_read w' = S k
        /\ errno w' = read_errno e k
        /\ trace w' = trace w ++ [EvStderr (msg_read_error (read_errno e k))]).

(** The lines [usage] prints, in order. *)
Definition usage_text (name : string) : list string :=
  [(nl ++ "usage: " ++ name ++ " [client or worker options]" ++ nl ++ nl)%string;
   ("gearman [-h <host>] [-p <port>] [-u <unique>] <function>" ++ nl)%string;
   ("gearman -w [-h <host>] [-p <port>] <function> [-- cmd [args ...]]" ++ nl)%string;
   (tab ++ "-c <count>  - number of jobs for worker to run before exiting" ++ nl)%string;
   (tab ++ "-h <host>   - job server host" ++ nl)%string;
   (tab ++ "-n          - send one job per newline" ++ nl)%string;
   (tab ++ "-N          - send one job per newline, stripping out newline" ++ nl)%string;
   (tab ++ "-p <port>   - job server port" ++ nl)%string;
   (tab ++ "-u <unique> - unique key to use for job" ++ nl)%string;
   (tab ++ "-w          - run as a worker" ++ nl)%string].

(** The arguments of the calls of [gearman_client_do] on a trace, call
    by call: the buffer and the size passed along with it. *)
Definition calls (tr : list event) : list (list byte * Z) :=
  flat_map (fun ev => match ev with
                      | EvDo _ _ workload workload_size =>
                          [(workload, workload_size)]
                      | _ => []
                      end) tr.

(** [l] is the line [fgets] cuts off the front of the input [s] when the
    buffer takes [n] bytes besides the closing NUL, and [r] is what it
    leaves: the line is not empty, no newline stands before its last
    byte, and it ends with the first newline of the input, or with the
    input, or because the buffer is full. *)
Definition line_cut (n : nat) (s l r : list byte) : Prop :=
  l ++ r = s
  /\ l <> []
  /\ (length l <= n)%nat
  /\ (LF ∉ take (length l - 1) l)
  /\ (last l = Some LF \/ r = [] \/ length l = n).

(** The size [_client_nl] passes for a line with [-N]. *)
Definition stripped (line : list byte) : Z :=
  Int.size_t (strlen line - 1).

(** A computation that never leaves the process through [exit]. *)
Definition never_exits {A} (m : proc A) : Prop :=
  forall w code w', m w <> Exited code w'.

(** What a trace holds for standard error, line by line. *)
Definition stderr_lines (tr : list event) : list string :=
  flat_map (fun ev => match ev with
                      | EvStderr s => [s]
                      | _ => []
                      end) tr.

(** What [_client_do] sends to standard error for the calls of
    [gearman_client_do] numbered [first], ..., [first + n - 1], when each
    of them is answered by a terminal reply. *)
Definition reports (e : env) (first n : nat) : list string :=
  flat_map (fun i => match report e (do_ret (client_do_script e i)) with
                     | Some msg => [msg]
                     | None => []
                     end) (seq first n).

(** * Concrete runs *)

Module Examples.

Definition bytes (s : string) : list byte := list_byte_of_string s.

Definition reply_of (ret : gearman_return_t) (result : string)
    (numerator denominator : Z) : do_reply :=
  {| do_ret := ret; do_result := bytes result;
     do_numerator := numerator; do_denominator := denominator |}.

(** A world around the tool in which every set-up call succeeds, the
    job server answers as [script] says, every [write] returns
    [write_ret] and the unassigned variable of [_client_do] holds
    [garbage]; the worker side is handed the job "job" in every round
    and the round returns what [rounds] says. *)
Definition world_around (script : nat -> do_reply) (write_ret garbage : Z)
    (rounds : nat -> gearman_return_t) : env :=
  {| signal_errno := None;
     client_create_ok := true;
     client_add_server_ret := GEARMAN_SUCCESS;
     client_error := "lost connection";
     client_do_script := script;
     write_script := fun _ => write_ret;
     write_errno := fun _ => 32;
     read_script := fun _ => 4096;
     read_errno := fun _ => 5;
     realloc_ok := fun _ => true;
     indeterminate := fun _ => garbage;
     worker_create_ok := true;
     worker_add_server_ret := GEARMAN_SUCCESS;
     worker_add_function_ret := GEARMAN_SUCCESS;
     worker_error := "lost connection";
     worker_work_script := fun k =>
       {| work_job := Some (bytes "job"); work_ret := rounds k |} |}.

Definition always_success : nat -> gearman_return_t :=
  fun _ => GEARMAN_SUCCESS.

(** [gearman reverse] *)
Definition cmd_client : cmdline :=
  {| argv := ["gearman"; "reverse"]%string; getopt_results := [];
     optind := 1;
     getopt_message := EmptyString |}.

(** [gearman], the function name left out *)
Definition cmd_no_function : cmdline :=
  {| argv := ["gearman"]%string; getopt_results := []; optind := 1;
     getopt_message := EmptyString |}.

(** [gearman -N reverse] *)
Definition cmd_client_strip : cmdline :=
  {| argv := ["gearman"; "-N"; "reverse"]%string;
     getopt_results := [("N"%char, EmptyString)]; optind := 2;
     getopt_message := EmptyString |}.

(** [gearman -w -c 2 reverse] *)
Definition cmd_worker_2 : cmdline :=
  {| argv := ["gearman"; "-w"; "-c"; "2"; "reverse"]%string;
     getopt_results := [("w"%char, EmptyString); ("c"%char, "2"%string)];
     optind := 4;
     getopt_message := EmptyString |}.

(** [gearman -w reverse] *)
Definition cmd_worker : cmdline :=
  {| argv := ["gearman"; "-w"; "reverse"]%string;
     getopt_results := [("w"%char, EmptyString)]; optind := 2;
     getopt_message := EmptyString |}.

(** The job server reports progress 0/0 and then completes the job. *)
Definition script_status_zero (k : nat) : do_reply :=
  match k with
  | O => reply_of GEARMAN_WORK_STATUS "" 0 0
  | _ => reply_of GEARMAN_SUCCESS "cba" 0 0
  end.

(** The job server reports progress 1/4 and then completes the job. *)
Definition script_status_quarter (k : nat) : do_reply :=
  match k with
  | O => reply_of GEARMAN_WORK_STATUS "" 1 4
  | _ => reply_of GEARMAN_SUCCESS "cba" 1 4
  end.

(** The job server streams one chunk and then completes the job. *)
Definition script_data (k : nat) : do_reply :=
  match k with
  | O => reply_of GEARMAN_WORK_DATA "cb" 0 0
  | _ => reply_of GEARMAN_SUCCESS "a" 0 0
  end.

(** The connection is lost on the first call. *)
Definition script_lost (k : nat) : do_reply :=
  reply_of GEARMAN_LOST_CONNECTION "" 0 0.

(** The job fails. *)
Definition script_fail (k : nat) : do_reply :=
  reply_of GEARMAN_WORK_FAIL "" 0 0.

(** The job completes at once. *)
Definition script_done (k : nat) : do_reply :=
  reply_of GEARMAN_SUCCESS "cba" 0 0.

(** Two good rounds and then a lost connection. *)
Definition rounds_lost_third (k : nat) : gearman_return_t :=
  match k with
  | O | 1%nat => GEARMAN_SUCCESS
  | _ => GEARMAN_LOST_CONNECTION
  end.

(** Like [world_around] with a job server that ends every job at once,
    but every [read] fails with [errno] 5. *)
Definition reads_fail : env :=
  {| signal_errno := None;
     client_create_ok := true;
     client_add_server_ret := GEARMAN_SUCCESS;
     client_error := "lost connection";
     client_do_script := script_done;
     write_script := fun _ => 3;
     write_errno := fun _ => 32;
     read_script := fun _ => -1;
     read_errno := fun _ => 5;
     realloc_ok := fun _ => true;
     indeterminate := fun _ => 0;
     worker_create_ok := true;
     worker_add_server_ret := GEARMAN_SUCCESS;
     worker_add_function_ret := GEARMAN_SUCCESS;
     worker_error := "lost connection";
     worker_work_script := fun k =>
       {| work_job := Some (bytes "job"); work_ret := GEARMAN_SUCCESS |} |}.

(** [gearman -x reverse]: [getopt] answers an unknown option with a
    question mark. *)
Definition cmd_unknown_option : cmdline :=
  {| argv := ["gearman"; "-x"; "reverse"]%string;
     getopt_results := [("?"%char, EmptyString)]; optind := 2;
     getopt_message := ("gearman: invalid option -- 'x'" ++ nl)%string |}.

(** [gearman -w reverse wc] *)
Definition cmd_worker_command : cmdline :=
  {| argv := ["gearman"; "-w"; "reverse"; "wc"]%string;
     getopt_results := [("w"%char, EmptyString)]; optind := 2;
     getopt_message := EmptyString |}.

End Examples.

(** * Properties of [_client_do] *)

Ltac unfold_proc :=
  unfold mbind, proc_bind, mret, proc_ret, gearman_client_do, write,
    fprintf_stderr, printf, effect, exit, trap, get_errno in *.

Lemma percent_zero r :
  Int.u32 (do_denominator r) = 0 -> percent r = None.
Proof.
  intros H. unfold percent, gearman_client_do_status, Int.udiv32.
  rewrite H. reflexivity.
Qed.

Lemma percent_nonzero r :
  Int.u32 (do_denominator r) <> 0 ->
  percent r = Some (Int.u32 (Int.u32 (do_numerator r) * 100)
                    / Int.u32 (do_denominator r)).
Proof.
  intros H. unfold percent, gearman_client_do_status, Int.udiv32.
  destruct (Z.eqb_spec (Int.u32 (do_denominator r)) 0); [contradiction|].
  reflexivity.
Qed.

Lemma last_emit ev w : last (trace (emit ev w)) = Some ev.
Proof. simpl. apply last_snoc. Qed.

Section client_do.

Variable e : env.
Variables (function : string) (unique : option string).
Variables (workload : list byte) (workload_size : Z).

Notation "'loop[' fuel , wr ]" :=
  (_client_do_loop fuel e function unique workload workload_size wr).
Notation "'reply[' w ]" := (client_do_script e (n_do w)).
Notation "'called[' w ]" :=
  (after_do function unique workload workload_size w).

Lemma client_do_loop_data fuel write_ret w :
  do_ret reply[w] = GEARMAN_WORK_DATA ->
  0 <= write_ret ->
  loop[S fuel, write_ret] w
  = loop[fuel, write_ret] (after_write e (do_result reply[w]) called[w]).
Proof.
  intros Hret Hwr. simpl. unfold_proc. simpl. rewrite Hret.
  destruct (Z.ltb_spec write_ret 0); [lia|]. reflexivity.
Qed.

Lemma client_do_loop_data_exit fuel write_ret w :
  do_ret reply[w] = GEARMAN_WORK_DATA ->
  write_ret < 0 ->
  let w' := after_write e (do_result reply[w]) called[w] in
  loop[S fuel, write_ret] w
  = Exited 1 (emit (EvStderr (msg_write_error (errno w'))) w').
Proof.
  intros Hret Hwr. simpl. unfold_proc. simpl. rewrite Hret.
  destruct (Z.ltb_spec write_ret 0); [|lia]. reflexivity.
Qed.

Lemma client_do_loop_status fuel write_ret w pct :
  do_ret reply[w] = GEARMAN_WORK_STATUS ->
  percent reply[w] = Some pct ->
  loop[S fuel, write_ret] w
  = loop[fuel, write_ret] (emit (EvPrintf (msg_complete pct)) called[w]).
Proof.
  intros Hret Hpct. simpl. unfold_proc. simpl. rewrite Hret.
  unfold percent, gearman_client_do_status in Hpct. rewrite Hpct.
  reflexivity.
Qed.

Lemma client_do_loop_status_trap fuel write_ret w :
  do_ret reply[w] = GEARMAN_WORK_STATUS ->
  percent reply[w] = None ->
  loop[S fuel, write_ret] w = Trapped called[w].
Proof.
  intros Hret Hpct. simpl. unfold_proc. simpl. rewrite Hret.
  unfold percent, gearman_client_do_status in Hpct. rewrite Hpct.
  reflexivity.
Qed.

Lemma client_do_loop_success fuel write_ret w :
  do_ret reply[w] = GEARMAN_SUCCESS ->
  loop[S fuel, write_ret] w
  = Returned tt (after_write e (do_result reply[w]) called[w]).
Proof. intros Hret. simpl. unfold_proc. simpl. rewrite Hret. reflexivity. Qed.

Lemma client_do_loop_report fuel write_ret w msg :
  report e (do_ret reply[w]) = Some msg ->
  loop[S fuel, write_ret] w = Returned tt (emit (EvStderr msg) called[w]).
Proof.
  intros Hrep. simpl. unfold_proc. simpl.
  destruct (do_ret _); simpl in Hrep; try discriminate;
    injection Hrep as <-; reflexivity.
Qed.

(** A benign reply: the loop goes round, one more call has been made,
    and what was on the trace is still there. *)
Lemma client_do_loop_benign fuel write_ret w :
  benign write_ret reply[w] ->
  exists w', loop[S fuel, write_ret] w = loop[fuel, write_ret] w'
             /\ n_do w' = S (n_do w).
Proof.
  intros [[Hret Hwr] | [Hret Hden]].
  - eexists. split; [apply client_do_loop_data; assumption|].
    unfold after_write. simpl. destruct (_ <? 0); reflexivity.
  - eexists. split.
    + apply client_do_loop_status; [assumption|].
      apply percent_nonzero; assumption.
    + reflexivity.
Qed.

(** Benign replies only: the loop is still going when the fuel is
    gone, however much there was. *)
Lemma client_do_loop_keeps_running fuel write_ret : forall w,
  (forall i, (i < fuel)%nat ->
             benign write_ret (client_do_script e (n_do w + i))) ->
  loop[fuel, write_ret] w = Running.
Proof.
  induction fuel as [|fuel IH]; intros w Hb; [reflexivity|].
  destruct (client_do_loop_benign fuel write_ret w) as (w' & -> & Hn).
  { specialize (Hb 0%nat). rewrite Nat.add_0_r in Hb. apply Hb. lia. }
  apply IH. intros i Hi. rewrite Hn.
  replace (S (n_do w) + i)%nat with (n_do w + S i)%nat by lia.
  apply Hb. lia.
Qed.

(** [k] benign replies and then a terminal one: the loop returns after
    [k + 1] calls, having reported the terminal reply. *)
Lemma client_do_loop_returns k : forall fuel write_ret w,
  (forall i, (i < k)%nat ->
             benign write_ret (client_do_script e (n_do w + i))) ->
  terminal (do_ret (client_do_script e (n_do w + k))) = true ->
  (k < fuel)%nat ->
  exists w',
    loop[fuel, write_ret] w = Returned tt w'
    /\ n_do w' = (n_do w + k + 1)%nat
    /\ match report e (do_ret (client_do_script e (n_do w + k))) with
       | Some msg => last (trace w') = Some (EvStderr msg)
       | None => exists ret,
           last (trace w')
           = Some (EvWrite (do_result (client_do_script e (n_do w + k))) ret)
       end.
Proof.
  induction k as [|k IH]; intros fuel write_ret w Hb Hterm Hfuel.
  - destruct fuel as [|fuel]; [lia|].
    rewrite Nat.add_0_r in *.
    destruct (report e (do_ret reply[w])) as [msg|] eqn:Hrep.
    + rewrite (client_do_loop_report _ _ _ msg Hrep).
      eexists. split; [reflexivity|]. split.
      * simpl. lia.
      * apply last_emit.
    + assert (Hret : do_ret reply[w] = GEARMAN_SUCCESS).
      { destruct (do_ret reply[w]); simpl in *; congruence. }
      rewrite (client_do_loop_success _ _ _ Hret).
      eexists. split; [reflexivity|]. split.
      * unfold after_write. simpl. destruct (_ <? 0); simpl; lia.
      * eexists. unfold after_write. simpl.
        destruct (_ <? 0); simpl; apply last_snoc.
  - destruct fuel as [|fuel]; [lia|].
    destruct (client_do_loop_benign fuel write_ret w) as (w1 & -> & Hn).
    { specialize (Hb 0%nat). rewrite Nat.add_0_r in Hb. apply Hb. lia. }
    destruct (IH fuel write_ret w1) as (w' & Hrun & Hcalls & Hlast).
    + intros i Hi. rewrite Hn.
      replace (S (n_do w) + i)%nat with (n_do w + S i)%nat by lia.
      apply Hb. lia.
    + rewrite Hn.
      replace (S (n_do w) + k)%nat with (n_do w + S k)%nat by lia.
      exact Hterm.
    + lia.
    + exists w'. split; [exact Hrun|]. split; [lia|].
      rewrite Hn in Hlast.
      replace (S (n_do w) + k)%nat with (n_do w + S k)%nat in Hlast by lia.
      exact Hlast.
Qed.

End client_do.

(** * Properties of the worker loop *)

Section worker.

Variable e : env.
Variable exec_argv : option (list string).

(** Standard output takes every write, so the callback never leaves
    the process. *)
Hypothesis writes_succeed : forall i, 0 <= write_script e i.

Notation "'work'" :=
  (gearman_worker_work e (fun job => _worker_cb e job exec_argv)).
Notation "'loop[' fuel , count ]" := (_worker_loop fuel e exec_argv count).

Lemma worker_work_returns w :
  exists w', work w = Returned (work_ret (worker_work_script e (n_work w))) w'
             /\ n_work w' = S (n_work w).
Proof.
  unfold gearman_worker_work.
  destruct (work_job _) as [job|]; [|eexists; split; reflexivity].
  unfold _worker_cb. destruct exec_argv as [argv|]; unfold_proc; simpl.
  - eexists; split; reflexivity.
  - destruct (Z.ltb_spec (write_script e (n_write w)) 0) as [Hneg|Hpos].
    + specialize (writes_succeed (n_write w)). lia.
    + eexists; split; reflexivity.
Qed.

Lemma worker_loop_success fuel count w :
  work_ret (worker_work_script e (n_work w)) = GEARMAN_SUCCESS ->
  exists w', n_work w' = S (n_work w)
    /\ loop[S fuel, count] w
       = if count >? 0
         then if count - 1 =? 0 then Returned tt w'
              else loop[fuel, count - 1] w'
         else loop[fuel, count] w'.
Proof.
  intros Hret. destruct (worker_work_returns w) as (w' & Hwork & Hn).
  exists w'. split; [exact Hn|].
  simpl. unfold mbind at 1, proc_bind at 1. rewrite Hwork, Hret.
  destruct (decide _) as [Hne|_]; [contradiction|].
  destruct (count >? 0); [|reflexivity].
  destruct (count - 1 =? 0); reflexivity.
Qed.

Lemma worker_loop_failure fuel count w :
  work_ret (worker_work_script e (n_work w)) <> GEARMAN_SUCCESS ->
  exists w', n_work w' = S (n_work w)
    /\ loop[S fuel, count] w
       = Returned tt (emit (EvStderr (worker_error e ++ nl)) w').
Proof.
  intros Hret. destruct (worker_work_returns w) as (w' & Hwork & Hn).
  exists w'. split; [exact Hn|].
  simpl. unfold mbind at 1, proc_bind at 1. rewrite Hwork.
  destruct (decide _) as [_|Heq]; [reflexivity|].
  contradict Heq. exact Hret.
Qed.

Lemma successes_tail k n :
  successes e k (S n) -> successes e (S k) n.
Proof. intros H i Hi. apply H. lia. Qed.

Lemma successes_head k n :
  successes e k (S n) -> work_ret (worker_work_script e k) = GEARMAN_SUCCESS.
Proof. intros H. apply H. lia. Qed.

(** [n > 0] successful rounds with [count = n]: the loop returns, and
    it does so after round [n]. *)
Lemma worker_loop_returns_after_count n : forall fuel w,
  (0 < n)%nat ->
  successes e (n_work w) n ->
  (n <= fuel)%nat ->
  exists w', loop[fuel, Z.of_nat n] w = Returned tt w'
             /\ n_work w' = (n_work w + n)%nat.
Proof.
  induction n as [|n IH]; intros fuel w Hn Hs Hfuel; [lia|].
  destruct fuel as [|fuel]; [lia|].
  destruct (worker_loop_success fuel (Z.of_nat (S n)) w)
    as (w1 & Hn1 & ->); [eapply successes_head; exact Hs|].
  destruct (Z.gtb_spec (Z.of_nat (S n)) 0); [|lia].
  destruct (Z.eqb_spec (Z.of_nat (S n) - 1) 0) as [Hz|Hnz].
  - exists w1. split; [reflexivity|]. lia.
  - replace (Z.of_nat (S n) - 1) with (Z.of_nat n) by lia.
    destruct (IH fuel w1) as (w' & Hrun & Hcalls).
    + lia.
    + rewrite Hn1. apply successes_tail. exact Hs.
    + lia.
    + exists w'. split; [exact Hrun|]. lia.
Qed.

(** As long as rounds succeed and the count, if there is one, is not
    used up, the loop has not returned. *)
Lemma worker_loop_keeps_running fuel : forall count w,
  count <= 0 \/ Z.of_nat fuel < count ->
  successes e (n_work w) fuel ->
  loop[fuel, count] w = Running.
Proof.
  induction fuel as [|fuel IH]; intros count w Hcount Hs; [reflexivity|].
  destruct (worker_loop_success fuel count w)
    as (w1 & Hn1 & ->); [eapply successes_head; exact Hs|].
  assert (Hs1 : successes e (n_work w1) fuel)
    by (rewrite Hn1; apply successes_tail; exact Hs).
  destruct (Z.gtb_spec count 0).
  - destruct (Z.eqb_spec (count - 1) 0); [lia|].
    apply IH; [lia | exact Hs1].
  - apply IH; [lia | exact Hs1].
Qed.

(** [k] successful rounds, fewer than the count asks for, and then a
    failing one: the loop returns after round [k + 1], with the error
    on standard error. *)
Lemma worker_loop_returns_on_failure k : forall fuel count w,
  count <= 0 \/ Z.of_nat k < count ->
  successes e (n_work w) k ->
  work_ret (worker_work_script e (n_work w + k)) <> GEARMAN_SUCCESS ->
  (k < fuel)%nat ->
  exists w', loop[fuel, count] w = Returned tt w'
             /\ n_work w' = (n_work w + k + 1)%nat
             /\ last (trace w') = Some (EvStderr (worker_error e ++ nl)).
Proof.
  induction k as [|k IH]; intros fuel count w Hcount Hs Hfail Hfuel;
    (destruct fuel as [|fuel]; [lia|]).
  - rewrite Nat.add_0_r in Hfail.
    destruct (worker_loop_failure fuel count w Hfail) as (w1 & Hn1 & ->).
    eexists. split; [reflexivity|]. split; [simpl; lia | apply last_emit].
  - destruct (worker_loop_success fuel count w)
      as (w1 & Hn1 & ->); [eapply successes_head; exact Hs|].
    assert (Hs1 : successes e (n_work w1) k)
      by (rewrite Hn1; apply successes_tail; exact Hs).
    assert (Hfail1 :
      work_ret (worker_work_script e (n_work w1 + k)) <> GEARMAN_SUCCESS).
    { rewrite Hn1.
      replace (S (n_work w) + k)%nat with (n_work w + S k)%nat by lia.
      exact Hfail. }
    destruct (Z.gtb_spec count 0).
    + destruct (Z.eqb_spec (count - 1) 0); [lia|].
      destruct (IH fuel (count - 1) w1) as (w' & Hrun & Hcalls & Hlast);
        [lia | exact Hs1 | exact Hfail1 | lia |].
      exists w'. split; [exact Hrun|]. split; [lia | exact Hlast].
    + destruct (IH fuel count w1) as (w' & Hrun & Hcalls & Hlast);
        [lia | exact Hs1 | exact Hfail1 | lia |].
      exists w'. split; [exact Hrun|]. split; [lia | exact Hlast].
Qed.

(** Without a count, a loop that returned has seen a failing round, the
    first one, and returned right after it. *)
Lemma worker_loop_unbounded_return fuel : forall w w',
  loop[fuel, 0] w = Returned tt w' ->
  exists k, (k < fuel)%nat
    /\ successes e (n_work w) k
    /\ work_ret (worker_work_script e (n_work w + k)) <> GEARMAN_SUCCESS
    /\ n_work w' = (n_work w + k + 1)%nat.
Proof.
  induction fuel as [|fuel IH]; intros w w' Hrun; [discriminate|].
  destruct (decide (work_ret (worker_work_script e (n_work w))
                    = GEARMAN_SUCCESS)) as [Hok|Hfail].
  - destruct (worker_loop_success fuel 0 w Hok) as (w1 & Hn1 & Heq).
    rewrite Heq in Hrun. simpl in Hrun.
    destruct (IH w1 w' Hrun) as (k & Hk & Hs & Hf & Hcalls).
    exists (S k). split; [lia|]. split; [|split].
    + intros i Hi. destruct (decide (i = n_work w)) as [->|Hne];
        [exact Hok|]. apply Hs. lia.
    + replace (n_work w + S k)%nat with (n_work w1 + k)%nat by lia.
      exact Hf.
    + lia.
  - destruct (worker_loop_failure fuel 0 w Hfail) as (w1 & Hn1 & Heq).
    rewrite Heq in Hrun. injection Hrun as <-.
    exists 0%nat. split; [lia|]. split; [|split].
    + intros i Hi. lia.
    + rewrite Nat.add_0_r. exact Hfail.
    + simpl. lia.
Qed.

End worker.

(** * The claims about [_client_do] *)

(** An ordinary run: progress 1/4 is printed as 25 and the result is
    written when the job completes. *)
Example client_do_reports_progress :
  _client_do 10 (Examples.world_around Examples.script_status_quarter 3 0
                   Examples.always_success)
             "reverse" None (Examples.bytes "abc") 3 (initial_world [])
  = Returned tt
      {| trace := [EvDo "reverse" None (Examples.bytes "abc") 3;
                   EvPrintf (msg_complete 25);
                   EvDo "reverse" None (Examples.bytes "abc") 3;
                   EvWrite (Examples.bytes "cba") 3];
         stdin := []; errno := 0;
         n_do := 2; n_write := 1; n_read := 0; n_work := 0 |}.
Proof. vm_compute. reflexivity. Qed.

(** C2.  In the loop of [_client_do] every [GEARMAN_WORK_STATUS] reply has
    its percentage computed as [(numerator * 100) / denominator] in
    [uint32_t], and nothing looks at the denominator first: when it is
    not zero the quotient is printed and the loop goes on, when it is
    zero the division is executed all the same and the process traps. *)
Theorem client_do_status_divides_unguarded :
  forall (e : env) (function : string) (unique : option string)
         (workload : list byte) (workload_size : Z)
         (fuel : nat) (write_ret : Z) (w : world),
    let r := client_do_script e (n_do w) in
    let w1 := after_do function unique workload workload_size w in
    do_ret r = GEARMAN_WORK_STATUS ->
    (Int.u32 (do_denominator r) <> 0 ->
     _client_do_loop (S fuel) e function unique workload workload_size
                     write_ret w
     = _client_do_loop fuel e function unique workload workload_size write_ret
         (emit (EvPrintf
                  (msg_complete (Int.u32 (Int.u32 (do_numerator r) * 100)
                                 / Int.u32 (do_denominator r)))) w1))
    /\ (Int.u32 (do_denominator r) = 0 ->
        _client_do_loop (S fuel) e function unique workload workload_size
                        write_ret w
        = Trapped w1).
Proof.
  intros e function unique workload workload_size fuel write_ret w r w1 Hret.
  split; intros Hden.
  - apply client_do_loop_status; [exact Hret|].
    apply percent_nonzero. exact Hden.
  - apply client_do_loop_status_trap; [exact Hret|].
    apply percent_zero. exact Hden.
Qed.

Lemma client_do_status_divides_unguarded_witness :
  let e := Examples.world_around Examples.script_status_zero 3 0
             Examples.always_success in
  let w := initial_world [] in
  do_ret (client_do_script e (n_do w)) = GEARMAN_WORK_STATUS
  /\ Int.u32 (do_denominator (client_do_script e (n_do w))) = 0
  /\ _client_do_loop 5 e "reverse" None (Examples.bytes "abc") 3 0 w
     = Trapped (after_do "reverse" None (Examples.bytes "abc") 3 w).
Proof.
  split; [reflexivity|]. split; [reflexivity|].
  apply (client_do_status_divides_unguarded
           (Examples.world_around Examples.script_status_zero 3 0
              Examples.always_success)
           "reverse" None (Examples.bytes "abc") 3 4 0 (initial_world []));
    reflexivity.
Defined.

(** C3.  A progress report of 0/0 followed by the completion of the job:
    the loop does not go round on the report, the process traps in the
    division and the result "cba" is never written.  And a streamed chunk
    while the unassigned [write_ret] happens to be negative: the chunk is
    written in full and the process leaves with status 1 all the same,
    before the job completes. *)
Theorem client_do_status_and_data_can_end_the_loop :
  _client_do 10 (Examples.world_around Examples.script_status_zero 3 0
                   Examples.always_success)
             "reverse" None (Examples.bytes "abc") 3 (initial_world [])
  = Trapped {| trace := [EvDo "reverse" None (Examples.bytes "abc") 3];
               stdin := []; errno := 0;
               n_do := 1; n_write := 0; n_read := 0; n_work := 0 |}
  /\ _client_do 10 (Examples.world_around Examples.script_data 2 (-1)
                      Examples.always_success)
                "reverse" None (Examples.bytes "abc") 3 (initial_world [])
     = Exited 1
         {| trace := [EvDo "reverse" None (Examples.bytes "abc") 3;
                      EvWrite (Examples.bytes "cb") 2;
                      EvStderr (msg_write_error 0)];
            stdin := []; errno := 0;
            n_do := 1; n_write := 1; n_read := 0; n_work := 0 |}.
Proof. split; vm_compute; reflexivity. Qed.

(** C4.  Standard output refuses every write (each [write] returns -1)
    while a chunk is streamed and the job then completes: nothing is
    printed to standard error and [main] returns 0. *)
Theorem client_do_ignores_failed_writes :
  main 10 (Examples.world_around Examples.script_data (-1) 0
             Examples.always_success)
       Examples.cmd_client (initial_world (Examples.bytes "abc"))
  = Returned 0
      {| trace := [EvDo "reverse" None (Examples.bytes "abc") 3;
                   EvWrite (Examples.bytes "cb") (-1);
                   EvDo "reverse" None (Examples.bytes "abc") 3;
                   EvWrite (Examples.bytes "a") (-1)];
         stdin := []; errno := 32;
         n_do := 2; n_write := 2; n_read := 2; n_work := 0 |}.
Proof. vm_compute. reflexivity. Qed.

(** * Exit status *)

Lemma exits_only_1_bind {A B} (m : proc A) (k : A -> proc B) :
  exits_only_1 m -> (forall a, exits_only_1 (k a)) ->
  exits_only_1 (m ≫= k).
Proof.
  intros Hm Hk w code w' H. unfold mbind, proc_bind in H.
  destruct (m w) as [a w1|code1 w1|w1|] eqn:E; try discriminate.
  - eapply Hk. exact H.
  - injection H as -> ->. eapply Hm. exact E.
Qed.

Lemma exits_only_1_ret {A} (a : A) : exits_only_1 (mret a).
Proof. intros w code w' H. discriminate. Qed.

Lemma exits_only_1_exit {A} : exits_only_1 (@exit A 1).
Proof. intros w code w' H. injection H as <- _. reflexivity. Qed.

Lemma exits_only_1_trap {A} : exits_only_1 (@trap A).
Proof. intros w code w' H. discriminate. Qed.

Lemma exits_only_1_effect f : exits_only_1 (effect f).
Proof. intros w code w' H. discriminate. Qed.

Lemma exits_only_1_running {A} : exits_only_1 (fun _ => @Running A).
Proof. intros w code w' H. discriminate. Qed.

Lemma exits_only_1_write e data : exits_only_1 (write e data).
Proof. intros w code w' H. discriminate. Qed.

Lemma exits_only_1_get_errno : exits_only_1 get_errno.
Proof. intros w code w' H. discriminate. Qed.

Lemma exits_only_1_do e f u wl ws : exits_only_1 (gearman_client_do e f u wl ws).
Proof. intros w code w' H. discriminate. Qed.

Lemma exits_only_1_read e n : exits_only_1 (read e n).
Proof.
  intros w code w' H. unfold read in H. destruct (_ <? 0); discriminate.
Qed.

Lemma exits_only_1_fgets n : exits_only_1 (fgets n).
Proof.
  intros w code w' H. unfold fgets in H.
  destruct (stdin w); [discriminate|].
  destruct (fgets_take _ _). discriminate.
Qed.

Ltac exits_step :=
  first
    [ apply exits_only_1_ret
    | apply exits_only_1_exit
    | apply exits_only_1_trap
    | apply exits_only_1_effect
    | apply exits_only_1_running
    | apply exits_only_1_write
    | apply exits_only_1_get_errno
    | apply exits_only_1_do
    | apply exits_only_1_read
    | apply exits_only_1_fgets
    | solve [auto]
    | apply exits_only_1_bind; [|intros ?]
    | match goal with
      | |- exits_only_1 (if ?b then _ else _) => destruct b
      | |- exits_only_1 (match ?x with _ => _ end) => destruct x
      | |- exits_only_1 (let '(_, _) := ?x in _) => destruct x
      end ].

Ltac exits_tac := unfold fprintf_stderr, printf; repeat exits_step.

Lemma exits_only_1_usage name : exits_only_1 (usage name).
Proof. unfold usage. exits_tac. Qed.

Lemma exits_only_1_client_do_loop fuel e f u wl ws wr :
  exits_only_1 (_client_do_loop fuel e f u wl ws wr).
Proof.
  induction fuel as [|fuel IH]; simpl; [exits_tac|].
  apply exits_only_1_bind; [exits_tac|]. intros r.
  destruct (do_ret r); exits_tac.
Qed.

Lemma exits_only_1_client_do fuel e f u wl ws :
  exits_only_1 (_client_do fuel e f u wl ws).
Proof.
  intros w code w' H. unfold _client_do in H.
  eapply exits_only_1_client_do_loop. exact H.
Qed.

Lemma exits_only_1_read_workload fuel e : forall wl off size,
  exits_only_1 (_read_workload fuel e wl off size).
Proof.
  induction fuel as [|fuel IH]; intros wl off size; simpl; [exits_tac|].
  exits_tac.
Qed.

Lemma exits_only_1_client fuel e c u : exits_only_1 (_client fuel e c u).
Proof.
  unfold _client. pose proof exits_only_1_usage.
  pose proof exits_only_1_read_workload. pose proof exits_only_1_client_do.
  exits_tac.
Qed.

Lemma exits_only_1_client_nl_loop fuel e f u strip :
  exits_only_1 (_client_nl_loop fuel e f u strip).
Proof.
  induction fuel as [|fuel IH]; simpl; [exits_tac|].
  pose proof exits_only_1_client_do. exits_tac.
Qed.

Lemma exits_only_1_client_nl fuel e c u strip :
  exits_only_1 (_client_nl fuel e c u strip).
Proof.
  unfold _client_nl. pose proof exits_only_1_usage.
  pose proof exits_only_1_client_nl_loop. exits_tac.
Qed.

Lemma exits_only_1_worker_cb e job cb_arg :
  exits_only_1 (_worker_cb e job cb_arg).
Proof. unfold _worker_cb. exits_tac. Qed.

Lemma exits_only_1_worker_work e exec_argv :
  exits_only_1 (gearman_worker_work e (fun job => _worker_cb e job exec_argv)).
Proof.
  intros w code w' H. unfold gearman_worker_work in H.
  destruct (work_job _) as [job|]; [|discriminate].
  revert H. apply exits_only_1_bind; [apply exits_only_1_worker_cb|].
  intros a. apply exits_only_1_ret.
Qed.

Lemma exits_only_1_worker_loop fuel e exec_argv : forall count,
  exits_only_1 (_worker_loop fuel e exec_argv count).
Proof.
  induction fuel as [|fuel IH]; intros count; simpl; [exits_tac|].
  pose proof exits_only_1_worker_work. exits_tac.
Qed.

Lemma exits_only_1_worker fuel e c count :
  exits_only_1 (_worker fuel e c count).
Proof.
  unfold _worker. pose proof exits_only_1_usage.
  pose proof exits_only_1_worker_loop. exits_tac.
Qed.

Lemma exits_only_1_main fuel e c : exits_only_1 (main fuel e c).
Proof.
  unfold main. pose proof exits_only_1_usage. pose proof exits_only_1_worker.
  pose proof exits_only_1_client. pose proof exits_only_1_client_nl.
  exits_tac.
Qed.

Lemma main_returns_0 fuel e c w code w' :
  main fuel e c w = Returned code w' -> code = 0.
Proof.
  unfold main. destruct (getopt_loop _ _) as [l|].
  - destruct (signal_errno e).
    + unfold_proc. discriminate.
    + unfold mbind, proc_bind.
      match goal with |- context [match ?m w with _ => _ end] =>
        destruct (m w) end; try discriminate.
      unfold mret, proc_ret. intros H. injection H as <- _. reflexivity.
  - unfold fprintf_stderr, effect, mbind, proc_bind.
    destruct (usage _ _); discriminate.
Qed.

Lemma worker_when_ready fuel e c count :
  worker_ready e c = true ->
  _worker fuel e c count = _worker_loop fuel e (exec_argv_of c) count.
Proof.
  unfold worker_ready, _worker, exec_argv_of. intros H.
  apply andb_prop in H as [H Hfun]. apply andb_prop in H as [H Hadd].
  apply andb_prop in H as [Hargc Hcreate].
  apply negb_true_iff in Hargc. rewrite Hargc, Hcreate. simpl.
  apply bool_decide_eq_true in Hadd, Hfun.
  destruct (decide (worker_add_server_ret e ≠ GEARMAN_SUCCESS));
    [contradiction|].
  destruct (decide (worker_add_function_ret e ≠ GEARMAN_SUCCESS));
    [contradiction|].
  reflexivity.
Qed.

Lemma worker_when_not_ready fuel e c count w :
  worker_ready e c = false ->
  exists w', _worker fuel e c count w = Exited 1 w'.
Proof.
  unfold worker_ready, _worker. intros H.
  destruct (argc c <? optind c + 1); [eexists; reflexivity|].
  destruct (worker_create_ok e); [|eexists; reflexivity].
  destruct (decide (worker_add_server_ret e ≠ GEARMAN_SUCCESS));
    [eexists; reflexivity|].
  destruct (decide (worker_add_function_ret e ≠ GEARMAN_SUCCESS));
    [eexists; reflexivity|].
  simpl in H.
  apply andb_false_iff in H as [H|H]; apply bool_decide_eq_false in H;
    contradiction.
Qed.

Lemma client_when_ready fuel e c u :
  client_ready e c = true ->
  _client fuel e c u
  = ('(workload, workload_offset, _) ← _read_workload fuel e [] 0 0;
     _client_do fuel e (arg c (optind c)) u workload workload_offset).
Proof.
  unfold client_ready, _client. intros H.
  apply andb_prop in H as [H Hadd]. apply andb_prop in H as [Hargc Hcreate].
  rewrite Hargc, Hcreate. simpl. apply bool_decide_eq_true in Hadd.
  destruct (decide (client_add_server_ret e ≠ GEARMAN_SUCCESS));
    [contradiction|].
  reflexivity.
Qed.

Lemma client_when_not_ready fuel e c u w :
  client_ready e c = false ->
  exists w', _client fuel e c u w = Exited 1 w'.
Proof.
  unfold client_ready, _client. intros H.
  destruct (argc c =? optind c + 1); [|eexists; reflexivity].
  destruct (client_create_ok e); [|eexists; reflexivity].
  destruct (decide (client_add_server_ret e ≠ GEARMAN_SUCCESS));
    [eexists; reflexivity|].
  simpl in H. apply bool_decide_eq_false in H. contradiction.
Qed.

Lemma client_nl_when_not_ready fuel e c u strip w :
  client_ready e c = false ->
  exists w', _client_nl fuel e c u strip w = Exited 1 w'.
Proof.
  unfold client_ready, _client_nl. intros H.
  destruct (argc c =? optind c + 1); [|eexists; reflexivity].
  destruct (client_create_ok e); [|eexists; reflexivity].
  destruct (decide (client_add_server_ret e ≠ GEARMAN_SUCCESS));
    [eexists; reflexivity|].
  simpl in H. apply bool_decide_eq_false in H. contradiction.
Qed.

Lemma main_setup_failure fuel e c w :
  setup_fails e c = true -> exists w', main fuel e c w = Exited 1 w'.
Proof.
  unfold setup_fails, main. intros H.
  destruct (getopt_loop _ _) as [l|]; [|eexists; reflexivity].
  destruct (signal_errno e) as [en|]; [eexists; reflexivity|].
  unfold mbind, proc_bind. destruct (worker l).
  - apply negb_true_iff in H.
    destruct (worker_when_not_ready fuel e c (count l) w H) as (w' & ->).
    eexists; reflexivity.
  - apply negb_true_iff in H. destruct (job_per_newline l).
    + destruct (client_nl_when_not_ready fuel e c (unique l)
                  (strip_newline l) w H) as (w' & ->).
      eexists; reflexivity.
    + destruct (client_when_not_ready fuel e c (unique l) w H) as (w' & ->).
      eexists; reflexivity.
Qed.

(** C1 as it was stated fails: the connection is lost during the one
    synchronous call, which is a transport failure, and the process ends
    with status 0, not 1. *)
Lemma transport_failure_exits_0 :
  let e := Examples.world_around Examples.script_lost 3 0
             Examples.always_success in
  let o := main 10 e Examples.cmd_client
                (initial_world (Examples.bytes "abc")) in
  do_ret (client_do_script e 0) = GEARMAN_LOST_CONNECTION
  /\ exit_status o = Some 0
  /\ exit_status o <> Some 1
  /\ (trace <$> final_world o)
     = Some [EvDo "reverse" None (Examples.bytes "abc") 3;
             EvStderr ("lost connection" ++ nl)].
Proof.
  split; [reflexivity|]. split; [vm_compute; reflexivity|].
  split; [vm_compute; discriminate|]. vm_compute. reflexivity.
Qed.

(** [gearman -w -c 2 reverse]: two jobs are echoed and [main] returns. *)
Example worker_runs_two_jobs :
  main 10 (Examples.world_around Examples.script_done 3 0
             Examples.always_success)
       Examples.cmd_worker_2 (initial_world [])
  = Returned 0
      {| trace := [EvWork; EvWrite (Examples.bytes "job") 3;
                   EvWork; EvWrite (Examples.bytes "job") 3];
         stdin := []; errno := 0;
         n_do := 0; n_write := 2; n_read := 0; n_work := 2 |}.
Proof. vm_compute. reflexivity. Qed.

(** C5.  With a count [N > 0] and [N] rounds that succeed, [_worker]
    returns, and it does so after exactly [N] calls of
    [gearman_worker_work]: it has not returned while fewer were made.  It
    returns after fewer successful rounds only when a round fails, right
    after that round.  With a count of 0 it is still running after any
    number of successful rounds, and when it has returned, a round had
    failed. *)
Theorem worker_count_bounds_rounds :
  forall (e : env) (c : cmdline),
    worker_ready e c = true ->
    (forall i, 0 <= write_script e i) ->
    (forall N fuel w,
       0 < N -> successes e (n_work w) (Z.to_nat N) ->
       ((Z.to_nat N <= fuel)%nat ->
        exists w', _worker fuel e c N w = Returned tt w'
                   /\ n_work w' = (n_work w + Z.to_nat N)%nat)
       /\ ((fuel < Z.to_nat N)%nat -> _worker fuel e c N w = Running))
    /\ (forall N k fuel w,
          0 < N -> Z.of_nat k < N ->
          successes e (n_work w) k ->
          work_ret (worker_work_script e (n_work w + k)) <> GEARMAN_SUCCESS ->
          (k < fuel)%nat ->
          exists w', _worker fuel e c N w = Returned tt w'
                     /\ n_work w' = (n_work w + k + 1)%nat)
    /\ (forall fuel w,
          successes e (n_work w) fuel -> _worker fuel e c 0 w = Running)
    /\ (forall fuel w w',
          _worker fuel e c 0 w = Returned tt w' ->
          exists k, (k < fuel)%nat
            /\ successes e (n_work w) k
            /\ work_ret (worker_work_script e (n_work w + k))
               <> GEARMAN_SUCCESS
            /\ n_work w' = (n_work w + k + 1)%nat).
Proof.
  intros e c Hready Hwrites.
  split; [|split; [|split]].
  - intros N fuel w HN Hs. rewrite (worker_when_ready _ _ _ _ Hready). split.
    + intros Hfuel.
      destruct (worker_loop_returns_after_count e (exec_argv_of c) Hwrites
                  (Z.to_nat N) fuel w) as (w' & Hrun & Hcalls);
        [lia | exact Hs | exact Hfuel |].
      rewrite Z2Nat.id in Hrun by lia.
      exists w'. split; assumption.
    + intros Hfuel. apply worker_loop_keeps_running;
        [exact Hwrites | lia |].
      intros i Hi. apply Hs. lia.
  - intros N k fuel w HN Hk Hs Hfail Hfuel.
    rewrite (worker_when_ready _ _ _ _ Hready).
    destruct (worker_loop_returns_on_failure e (exec_argv_of c) Hwrites k fuel
                N w) as (w' & Hrun & Hcalls & _);
      [lia | exact Hs | exact Hfail | exact Hfuel |].
    exists w'. split; assumption.
  - intros fuel w Hs. rewrite (worker_when_ready _ _ _ _ Hready).
    apply worker_loop_keeps_running; [exact Hwrites | lia | exact Hs].
  - intros fuel w w'. rewrite (worker_when_ready _ _ _ _ Hready).
    apply worker_loop_unbounded_return. exact Hwrites.
Qed.

Lemma worker_count_bounds_rounds_witness :
  let good := Examples.world_around Examples.script_done 3 0
                Examples.always_success in
  let third := Examples.world_around Examples.script_done 3 0
                 Examples.rounds_lost_third in
  let w := initial_world [] in
  (exists w', _worker 10 good Examples.cmd_worker 2 w = Returned tt w'
              /\ n_work w' = 2%nat)
  /\ _worker 1 good Examples.cmd_worker 2 w = Running
  /\ (exists w', _worker 10 third Examples.cmd_worker 5 w = Returned tt w'
                 /\ n_work w' = 3%nat)
  /\ _worker 10 good Examples.cmd_worker 0 w = Running
  /\ (exists k, (k < 10)%nat
        /\ successes third (n_work w) k
        /\ work_ret (worker_work_script third (n_work w + k))
           <> GEARMAN_SUCCESS
        /\ 3%nat = (n_work w + k + 1)%nat).
Proof.
  intros good third w.
  assert (Hgood : forall i, 0 <= write_script good i) by (intros i; simpl; lia).
  assert (Hthird : forall i, 0 <= write_script third i)
    by (intros i; simpl; lia).
  pose proof (worker_count_bounds_rounds good Examples.cmd_worker eq_refl Hgood)
    as (Hcount & _ & Hzero & _).
  pose proof (worker_count_bounds_rounds third Examples.cmd_worker eq_refl
                Hthird) as (_ & Hfail & _ & Hret).
  split; [|split; [|split; [|split]]].
  - apply (Hcount 2 10%nat w); [lia | intros i Hi; reflexivity | simpl; lia].
  - apply (Hcount 2 1%nat w); [lia | intros i Hi; reflexivity | simpl; lia].
  - apply (Hfail 5 2%nat 10%nat w); [lia | lia | | discriminate | lia].
    intros i Hi. simpl in Hi.
    destruct i as [|[|i]]; [reflexivity | reflexivity | lia].
  - apply (Hzero 10%nat w). intros i Hi. reflexivity.
  - apply (Hret 10%nat w
             {| trace := [EvWork; EvWrite (Examples.bytes "job") 3;
                          EvWork; EvWrite (Examples.bytes "job") 3;
                          EvWork; EvWrite (Examples.bytes "job") 3;
                          EvStderr ("lost connection" ++ nl)];
                stdin := []; errno := 0; n_do := 0; n_write := 3;
                n_read := 0; n_work := 3 |}).
    vm_compute. reflexivity.
Defined.

(** * One job per line *)

Lemma preserves_bind {A B} P (m : proc A) (k : A -> proc B) :
  preserves P m -> (forall a, preserves P (k a)) -> preserves P (m ≫= k).
Proof.
  intros Hm Hk w w' HP H. unfold mbind, proc_bind in H.
  destruct (m w) as [a w1|code w1|w1|] eqn:E.
  - eapply Hk; [|exact H]. eapply Hm; [exact HP|]. rewrite E. reflexivity.
  - eapply Hm; [exact HP|]. rewrite E. exact H.
  - eapply Hm; [exact HP|]. rewrite E. exact H.
  - discriminate.
Qed.

Lemma preserves_ret {A} P (a : A) : preserves P (mret a).
Proof. intros w w' HP H. injection H as <-. exact HP. Qed.

Lemma preserves_exit {A} P code : preserves P (@exit A code).
Proof. intros w w' HP H. injection H as <-. exact HP. Qed.

Lemma preserves_trap {A} P : preserves P (@trap A).
Proof. intros w w' HP H. injection H as <-. exact HP. Qed.

Lemma preserves_running {A} P : preserves P (fun _ => @Running A).
Proof. intros w w' HP H. discriminate. Qed.

Lemma preserves_get_errno P : preserves P get_errno.
Proof. intros w w' HP H. injection H as <-. exact HP. Qed.

Lemma stripped_emit ev :
  stripped_size ev -> preserves all_stripped (effect (emit ev)).
Proof.
  intros Hev w w' HP H. injection H as <-. unfold all_stripped. simpl.
  apply Forall_app. split; [exact HP|]. constructor; [exact Hev|constructor].
Qed.

Lemma stripped_write e data : preserves all_stripped (write e data).
Proof.
  intros w w' HP H. unfold write in H. injection H as <-.
  unfold all_stripped.
  destruct (_ <? 0); simpl; apply Forall_app;
    (split; [exact HP|]); repeat constructor.
Qed.

Lemma stripped_do e f u workload workload_size :
  workload_size = Int.size_t (strlen workload - 1) ->
  preserves all_stripped (gearman_client_do e f u workload workload_size).
Proof.
  intros Hsize w w' HP H. injection H as <-. unfold all_stripped. simpl.
  apply Forall_app. split; [exact HP|]. repeat constructor. exact Hsize.
Qed.

Lemma stripped_fgets n : preserves all_stripped (fgets n).
Proof.
  intros w w' HP H. unfold fgets in H.
  destruct (stdin w); [injection H as <-; exact HP|].
  destruct (fgets_take _ _). injection H as <-. exact HP.
Qed.

Ltac stripped_step :=
  first
    [ apply preserves_ret | apply preserves_exit | apply preserves_trap
    | apply preserves_running | apply preserves_get_errno
    | apply stripped_write | apply stripped_fgets
    | apply stripped_emit; exact I
    | solve [auto]
    | apply preserves_bind; [|intros ?]
    | match goal with
      | |- preserves _ (if ?b then _ else _) => destruct b
      | |- preserves _ (match ?x with _ => _ end) => destruct x
      end ].

Lemma stripped_client_do_loop fuel e f u workload workload_size write_ret :
  workload_size = Int.size_t (strlen workload - 1) ->
  preserves all_stripped
    (_client_do_loop fuel e f u workload workload_size write_ret).
Proof.
  intros Hsize. induction fuel as [|fuel IH]; simpl;
    [apply preserves_running|].
  apply preserves_bind; [apply stripped_do; exact Hsize|]. intros r.
  unfold fprintf_stderr, printf. destruct (do_ret r); repeat stripped_step.
Qed.

Lemma stripped_client_do fuel e f u workload workload_size :
  workload_size = Int.size_t (strlen workload - 1) ->
  preserves all_stripped (_client_do fuel e f u workload workload_size).
Proof.
  intros Hsize w w' HP H. unfold _client_do in H.
  eapply stripped_client_do_loop; eassumption.
Qed.

Lemma stripped_client_nl_loop fuel e f u :
  preserves all_stripped (_client_nl_loop fuel e f u true).
Proof.
  induction fuel as [|fuel IH]; simpl; [apply preserves_running|].
  apply preserves_bind; [apply stripped_fgets|]. intros [workload|];
    [|apply preserves_ret].
  apply preserves_bind; [|intros ?; exact IH].
  apply stripped_client_do. reflexivity.
Qed.

(** * The universal context *)

Lemma apply_options_timeout opts : forall u,
  Universal.timeout (Universal.apply_options opts u) = Universal.timeout u.
Proof.
  induction opts as [|o rest IH]; intros u; [reflexivity|].
  destruct o; simpl; try rewrite IH; reflexivity.
Qed.

(** C6.  A context that was just created, with or without options, has
    the timeout -1; after [gearman_universal_set_timeout (ctx, t)],
    [gearman_universal_timeout (ctx)] is [t], for every [t].  The test
    [set_timout_test] of tests/internals.cc passes. *)
Theorem universal_timeout_default_and_set :
  (forall opts,
     Universal.gearman_universal_timeout
       (Universal.gearman_universal_create opts) = -1)
  /\ (forall u t,
        Universal.gearman_universal_timeout
          (Universal.gearman_universal_set_timeout u t) = t)
  /\ (forall h, Tests.run Tests.set_timout_test h
                = Some (Tests.TEST_SUCCESS, h)).
Proof.
  split; [|split].
  - intros [opts|]; [|reflexivity].
    unfold Universal.gearman_universal_timeout,
      Universal.gearman_universal_create.
    rewrite apply_options_timeout. reflexivity.
  - intros u t. reflexivity.
  - intros h. reflexivity.
Qed.

Lemma flag_set_flag_same o value u :
  o <> Universal.GEARMAN_MAX ->
  Universal.flag o (Universal.set_flag o value u) = value.
Proof. intros Ho. destruct o; [reflexivity..|contradiction]. Qed.

Lemma flag_set_flag_other o o' value u :
  o <> o' ->
  Universal.flag o (Universal.set_flag o' value u) = Universal.flag o u.
Proof. intros Hne. destruct o, o'; try reflexivity; contradiction. Qed.

Lemma set_flag_same_value o u :
  Universal.set_flag o (Universal.flag o u) u = u.
Proof. destruct u as [[a b c] ? ? ? ? ? ? ? ? ? ? ? ? ? ? ? ?], o; reflexivity. Qed.

Lemma flag_apply_options opts : forall o u,
  o <> Universal.GEARMAN_MAX ->
  Universal.flag o (Universal.apply_options opts u)
  = bool_decide (o ∈ Universal.listed opts) || Universal.flag o u.
Proof.
  induction opts as [|o' rest IH]; intros o u Ho.
  - cbn [Universal.apply_options Universal.listed].
    rewrite bool_decide_eq_false_2; [reflexivity|].
    apply not_elem_of_nil.
  - assert (Hstep : o' <> Universal.GEARMAN_MAX ->
      Universal.flag o
        (Universal.apply_options rest
           (Universal.gearman_universal_add_options u o'))
      = bool_decide (o ∈ o' :: Universal.listed rest) || Universal.flag o u).
    { intros Ho'. rewrite IH by exact Ho.
      unfold Universal.gearman_universal_add_options.
      destruct (decide (o = o')) as [<-|Hne].
      - rewrite flag_set_flag_same by exact Ho.
        rewrite orb_true_r.
        rewrite bool_decide_eq_true_2; [reflexivity|].
        apply elem_of_cons. left. reflexivity.
      - rewrite flag_set_flag_other by exact Hne.
        f_equal. apply bool_decide_ext. rewrite elem_of_cons. tauto. }
    destruct o'; cbn [Universal.apply_options Universal.listed];
      try (apply Hstep; discriminate).
    rewrite bool_decide_eq_false_2; [reflexivity|]. apply not_elem_of_nil.
Qed.

(** C7.  A context created with an option array has exactly the flags of
    the options listed in it raised, and one created without has none;
    adding an option whose flag is raised changes nothing, and neither
    does removing one whose flag is down.  The tests [init_test],
    [state_option_on_create_test] and [state_option_set_test] of
    tests/internals.cc pass. *)
Theorem universal_options_exact_and_idempotent :
  (forall opts o,
     o <> Universal.GEARMAN_MAX ->
     Universal.flag o (Universal.gearman_universal_create (Some opts)) = true
     <-> o ∈ Universal.listed opts)
  /\ (forall o,
        Universal.flag o (Universal.gearman_universal_create None) = false)
  /\ (forall u o,
        Universal.flag o u = true ->
        Universal.gearman_universal_add_options u o = u)
  /\ (forall u o,
        Universal.flag o u = false ->
        Universal.gearman_universal_remove_options u o = u)
  /\ (forall h, Tests.run Tests.init_test h = Some (Tests.TEST_SUCCESS, h))
  /\ (forall h, Tests.run Tests.state_option_on_create_test h
                = Some (Tests.TEST_SUCCESS, h))
  /\ (forall h, Tests.run Tests.state_option_set_test h
                = Some (Tests.TEST_SUCCESS, h)).
Proof.
  split; [|split; [|split; [|split; [|split; [|split]]]]].
  - intros opts o Ho. unfold Universal.gearman_universal_create.
    rewrite flag_apply_options by exact Ho.
    replace (Universal.flag o _) with false by (destruct o; reflexivity).
    rewrite orb_false_r. apply bool_decide_eq_true.
  - intros o. destruct o; reflexivity.
  - intros u o H. unfold Universal.gearman_universal_add_options.
    rewrite <- H. apply set_flag_same_value.
  - intros u o H. unfold Universal.gearman_universal_remove_options.
    rewrite <- H. apply set_flag_same_value.
  - intros h. reflexivity.
  - intros h. reflexivity.
  - intros h. reflexivity.
Qed.

Lemma universal_options_exact_and_idempotent_witness :
  let opts := [Universal.GEARMAN_NON_BLOCKING;
               Universal.GEARMAN_DONT_TRACK_PACKETS;
               Universal.GEARMAN_MAX;
               Universal.GEARMAN_STORED_NON_BLOCKING] in
  let u := Universal.gearman_universal_create (Some opts) in
  (Universal.GEARMAN_NON_BLOCKING ∈ Universal.listed opts)
  /\ (Universal.GEARMAN_STORED_NON_BLOCKING ∉ Universal.listed opts)
  /\ Universal.gearman_universal_add_options u Universal.GEARMAN_NON_BLOCKING
     = u
  /\ Universal.gearman_universal_remove_options u
       Universal.GEARMAN_STORED_NON_BLOCKING = u.
Proof.
  intros opts u.
  pose proof universal_options_exact_and_idempotent
    as (Hexact & _ & Hadd & Hremove & _).
  split; [|split; [|split]].
  - apply (Hexact opts Universal.GEARMAN_NON_BLOCKING);
      [discriminate | reflexivity].
  - intros Hin.
    apply (Hexact opts Universal.GEARMAN_STORED_NON_BLOCKING) in Hin;
      [discriminate Hin | discriminate].
  - apply (Hadd u Universal.GEARMAN_NON_BLOCKING). reflexivity.
  - apply (Hremove u Universal.GEARMAN_STORED_NON_BLOCKING). reflexivity.
Defined.

(** C8.  After [gearman_universal_clone (dst, src)] the flags, the
    verbosity, the connection and packet counts, the timeout and the last
    error number of [dst] are those of [src]; the connection and packet
    lists of [dst] are empty, so no connection of [src] is one of [dst],
    and a connection attached to either afterwards is not in the list of
    the other.  The test [clone_test] of tests/internals.cc passes. *)
Theorem universal_clone_copies_scalars_only :
  (forall src,
     let dst := Universal.gearman_universal_clone src in
     Universal.dont_track_packets (Universal.options dst)
     = Universal.dont_track_packets (Universal.options src)
     /\ Universal.non_blocking (Universal.options dst)
        = Universal.non_blocking (Universal.options src)
     /\ Universal.stored_non_blocking (Universal.options dst)
        = Universal.stored_non_blocking (Universal.options src)
     /\ Universal.verbose dst = Universal.verbose src
     /\ Universal.con_count dst = Universal.con_count src
     /\ Universal.packet_count dst = Universal.packet_count src
     /\ Universal.timeout dst = Universal.timeout src
     /\ Universal.last_errno dst = Universal.last_errno src
     /\ Universal.con_list dst = []
     /\ Universal.packet_list dst = []
     /\ (forall c, c ∉ Universal.con_list dst)
     /\ (forall c,
           Universal.con_list (Universal.attach_connection dst c) = [c]
           /\ Universal.con_list
                (Universal.gearman_universal_clone
                   (Universal.attach_connection src c)) = []))
  /\ (forall h, Tests.run Tests.clone_test h = Some (Tests.TEST_SUCCESS, h)).
Proof.
  split.
  - intros src dst. repeat (split; [reflexivity|]). split.
    + intros c. apply not_elem_of_nil.
    + intros c. split; reflexivity.
  - intros h. reflexivity.
Qed.

(** * Packet data *)

Lemma free_strdup s h :
  Mem.free (fst (Mem.strdup s h)) (snd (Mem.strdup s h))
  = Some {| Mem.blocks :=
              delete (Z.max 1 (Mem.brk h))
                     (<[Z.max 1 (Mem.brk h) := s ++ [NUL]]> (Mem.blocks h));
            Mem.brk := Z.max 1 (Mem.brk h) + 1 |}.
Proof.
  unfold Mem.strdup, Mem.free. cbn [fst snd Mem.blocks Mem.brk].
  rewrite lookup_insert_eq.
  destruct (decide _) as [Hz|_]; [unfold Mem.NULL in Hz; lia|].
  reflexivity.
Qed.

Lemma give_data_test_passes h :
  fst <$> Tests.run Tests.gearman_packet_give_data_test h
  = Some Tests.TEST_SUCCESS.
Proof.
  pose proof (free_strdup (list_byte_of_string "Mine!") h) as Hfree.
  unfold Tests.run, Tests.gearman_packet_give_data_test.
  unfold mbind, Tests.test_bind, Tests.strdup.
  destruct (Mem.strdup _ h) as [p h'].
  cbn [fst snd] in Hfree.
  unfold Tests.test_truth, Tests.gearman_packet_free,
    Packet.gearman_packet_free, Packet.gearman_packet_give_data.
  cbn [Packet.data Packet.data_size Packet.options Packet.free_data].
  rewrite (bool_decide_eq_true_2 (p = p)) by reflexivity.
  rewrite (bool_decide_eq_true_2 (strlen _ = strlen _)) by reflexivity.
  rewrite Hfree. reflexivity.
Qed.

Lemma take_data_test_passes h :
  fst <$> Tests.run Tests.gearman_packet_take_data_test h
  = Some Tests.TEST_SUCCESS.
Proof.
  pose proof (free_strdup (list_byte_of_string "Mine!") h) as Hfree.
  unfold Tests.run, Tests.gearman_packet_take_data_test.
  unfold mbind, Tests.test_bind, Tests.strdup.
  destruct (Mem.strdup _ h) as [p h'].
  cbn [fst snd] in Hfree.
  unfold Tests.test_false, Tests.test_truth, Tests.gearman_packet_free,
    Packet.gearman_packet_free, Packet.gearman_packet_take_data,
    Packet.gearman_packet_give_data, Tests.free.
  cbn [Packet.data Packet.data_size Packet.options Packet.free_data].
  rewrite (bool_decide_eq_false_2 (Mem.NULL ≠ Mem.NULL))
    by (intros H; apply H; reflexivity).
  rewrite (bool_decide_eq_false_2 (0 ≠ 0))
    by (intros H; apply H; reflexivity).
  rewrite (bool_decide_eq_true_2 (p = p)) by reflexivity.
  rewrite (bool_decide_eq_true_2 (strlen _ = strlen _)) by reflexivity.
  cbn [negb]. rewrite Hfree. reflexivity.
Qed.

(** Started on the empty heap, the test that takes the data back ends
    with nothing allocated: the one buffer was freed once, by the
    caller. *)
Example take_data_test_leaves_nothing :
  (Mem.blocks ∘ snd) <$> Tests.run Tests.gearman_packet_take_data_test
                                    Mem.empty_heap
  = Some ∅.
Proof. vm_compute. reflexivity. Qed.

(** C9.  After [gearman_packet_give_data (p, d, n)] the packet points at
    [d], has size [n] and its [free_data] flag is raised; freeing it now
    frees [d].  [gearman_packet_take_data] then returns [d] and [n] and
    leaves the packet with a null pointer, size 0 and the flag down;
    freeing the packet after that leaves the heap as it is, so the buffer
    is the caller's again.  The tests [gearman_packet_give_data_test] and
    [gearman_packet_take_data_test] of tests/internals.cc pass, the
    second one with its own [free] of the buffer at the end. *)
Theorem packet_give_take_data_round_trip :
  (forall p d n,
     let p1 := Packet.gearman_packet_give_data p d n in
     Packet.data p1 = d
     /\ Packet.data_size p1 = n
     /\ Packet.free_data (Packet.options p1) = true
     /\ (forall h, Packet.gearman_packet_free p1 h = Mem.free d h)
     /\ fst (fst (Packet.gearman_packet_take_data p1)) = d
     /\ snd (fst (Packet.gearman_packet_take_data p1)) = n
     /\ (let p2 := snd (Packet.gearman_packet_take_data p1) in
         Packet.data p2 = Mem.NULL
         /\ Packet.data_size p2 = 0
         /\ Packet.free_data (Packet.options p2) = false
         /\ (forall h, Packet.gearman_packet_free p2 h = Some h)))
  /\ (forall h,
        fst <$> Tests.run Tests.gearman_packet_give_data_test h
        = Some Tests.TEST_SUCCESS)
  /\ (forall h,
        fst <$> Tests.run Tests.gearman_packet_take_data_test h
        = Some Tests.TEST_SUCCESS).
Proof.
  split; [|split].
  - intros p d n p1. repeat split; intros; reflexivity.
  - exact give_data_test_passes.
  - exact take_data_test_passes.
Qed.

(** * Reading the workload: what [_read_workload] delivers *)

Lemma read_at_end e count w :
  0 <= read_script e (n_read w) ->
  stdin w = [] ->
  read e count w = Returned (0, []) (set_stdin [] (tick_read w)).
Proof.
  intros Hready Hend. unfold read.
  destruct (Z.ltb_spec (read_script e (n_read w)) 0); [lia|].
  rewrite Hend. rewrite take_nil, drop_nil. reflexivity.
Qed.

Lemma read_some e count w :
  0 <= read_script e (n_read w) ->
  0 < count ->
  stdin w <> [] ->
  exists n, (0 < n)%nat
    /\ (n <= length (stdin w))%nat
    /\ Z.of_nat n <= count
    /\ read e count w
       = Returned (Z.of_nat n, take n (stdin w))
                  (set_stdin (drop n (stdin w)) (tick_read w)).
Proof.
  intros Hready Hcount Hne. unfold read.
  destruct (Z.ltb_spec (read_script e (n_read w)) 0); [lia|].
  set (n := Z.to_nat (Z.min count (Z.max 1 (read_script e (n_read w))))).
  assert (Hn : (0 < n)%nat) by (unfold n; lia).
  assert (Hcn : Z.of_nat n <= count) by (unfold n; lia).
  assert (Hlen : (0 < length (stdin w))%nat).
  { destruct (stdin w); [contradiction | simpl; lia]. }
  destruct (le_lt_dec n (length (stdin w))) as [Hle|Hgt].
  - exists n. repeat (split; [assumption|]).
    rewrite length_take, Nat.min_l by exact Hle. reflexivity.
  - exists (length (stdin w)). split; [exact Hlen|]. split; [lia|].
    split; [lia|].
    rewrite length_take, Nat.min_r by lia.
    rewrite !take_ge, !drop_ge by lia. reflexivity.
Qed.

Lemma read_workload_all fuel e : forall workload offset size w,
  (forall i, 0 <= read_script e i) ->
  (forall n, realloc_ok e n = true) ->
  buffer_ok workload offset size ->
  Z.of_nat (length workload + length (stdin w)) < 2 ^ 62 ->
  (length (stdin w) < fuel)%nat ->
  exists size' w',
    _read_workload fuel e workload offset size w
    = Returned (workload ++ stdin w,
                Z.of_nat (length (workload ++ stdin w)), size') w'
    /\ buffer_ok (workload ++ stdin w)
                 (Z.of_nat (length (workload ++ stdin w))) size'
    /\ 8192 <= size'
    /\ stdin w' = []
    /\ only_read w w'.
Proof.
  induction fuel as [|fuel IH];
    intros workload offset size w Hreads Halloc Hbuf Hbound Hfuel; [lia|].
  destruct Hbuf as (Hoff & Hle & Hmin & Hmax).
  (* the capacity after the growth step *)
  set (size1 := if offset =? size
                then if size =? 0 then GEARMAN_INITIAL_WORKLOAD_SIZE
                     else Int.size_t (size * 2)
                else size).
  assert (Hsize1 : offset < size1 /\ 8192 <= size1
                   /\ size1 <= Z.max 8192 (2 * offset)).
  { unfold size1, GEARMAN_INITIAL_WORKLOAD_SIZE, Int.size_t.
    destruct (Z.eqb_spec offset size) as [Heq|Hne].
    - destruct (Z.eqb_spec size 0) as [Hz|Hnz]; [lia|].
      rewrite Z.mod_small by lia. lia.
    - lia. }
  assert (Hstep : _read_workload (S fuel) e workload offset size w
    = ('(read_ret, data) ← read e (size1 - offset);
       if read_ret <? 0 then
         en ← get_errno;
         _ ← fprintf_stderr
               ("Error reading from standard input (" ++ fmt_d en ++ ")"
                ++ nl)%string;
         exit 1
       else if read_ret =? 0 then mret (workload, offset, size1)
       else _read_workload fuel e (workload ++ data)
                           (Int.size_t (offset + read_ret)) size1) w).
  { simpl. unfold size1. unfold mbind at 1, proc_bind at 1.
    destruct (offset =? size); [|reflexivity].
    rewrite Halloc. reflexivity. }
  rewrite Hstep. clear Hstep. unfold mbind at 1, proc_bind at 1.
  destruct (stdin w) as [|c s] eqn:Hs.
  - rewrite read_at_end by (auto; exact Hs). simpl.
    rewrite app_nil_r. exists size1, (set_stdin [] (tick_read w)).
    split; [rewrite <- Hoff; reflexivity|].
    split; [unfold buffer_ok; lia|]. split; [lia|].
    split; [reflexivity|]. repeat split.
  - destruct (read_some e (size1 - offset) w) as (n & Hn & Hnlen & Hncount & ->);
      [auto | lia | rewrite Hs; discriminate |].
    rewrite Hs in *.
    destruct (Z.ltb_spec (Z.of_nat n) 0); [lia|].
    destruct (Z.eqb_spec (Z.of_nat n) 0); [lia|].
    assert (Hwrap : Int.size_t (offset + Z.of_nat n)
                    = Z.of_nat (length (workload ++ take n (c :: s)))).
    { unfold Int.size_t. rewrite length_app, length_take.
      simpl length in *. rewrite Z.mod_small by lia. lia. }
    rewrite Hwrap.
    destruct (IH (workload ++ take n (c :: s))
                 (Z.of_nat (length (workload ++ take n (c :: s)))) size1
                 (set_stdin (drop n (c :: s)) (tick_read w)))
      as (size' & w' & Hrun & Hbuf' & Hmin' & Hend & Hsame).
    + exact Hreads.
    + exact Halloc.
    + unfold buffer_ok. rewrite length_app, length_take.
      simpl length in *. lia.
    + simpl stdin. rewrite length_app, length_take, length_drop.
      simpl length in *. lia.
    + simpl stdin. rewrite length_drop. simpl length in *. lia.
    + simpl stdin in Hrun, Hbuf'.
      rewrite <- app_assoc, take_drop in Hrun, Hbuf'.
      exists size', w'. split; [exact Hrun|]. split; [exact Hbuf'|].
      split; [exact Hmin'|]. split; [exact Hend|].
      destruct Hsame as (? & ? & ? & ? & ?). repeat split; assumption.
Qed.

(** X1.  When no [read] fails and every [realloc] succeeds,
    [_read_workload] returns all of standard input, in order, with the
    offset equal to its length; standard input is then at its end, the
    capacity is at least 8192 and at most twice the input (or 8192), and
    nothing was written or submitted meanwhile. *)
Theorem read_workload_reads_all_input :
  forall (fuel : nat) (e : env) (w : world),
    (forall i, 0 <= read_script e i) ->
    (forall n, realloc_ok e n = true) ->
    Z.of_nat (length (stdin w)) < 2 ^ 62 ->
    (length (stdin w) < fuel)%nat ->
    exists size' w',
      _read_workload fuel e [] 0 0 w
      = Returned (stdin w, Z.of_nat (length (stdin w)), size') w'
      /\ Z.of_nat (length (stdin w)) <= size'
      /\ 8192 <= size' <= Z.max 8192 (2 * Z.of_nat (length (stdin w)))
      /\ stdin w' = []
      /\ only_read w w'.
Proof.
  intros fuel e w Hreads Halloc Hbound Hfuel.
  destruct (read_workload_all fuel e [] 0 0 w Hreads Halloc)
    as (size' & w' & Hrun & Hbuf & Hmin & Hend & Hsame).
  - unfold buffer_ok. simpl. lia.
  - simpl. lia.
  - exact Hfuel.
  - simpl in Hrun, Hbuf. destruct Hbuf as (_ & Hle & _ & Hmax).
    exists size', w'. split; [exact Hrun|]. split; [exact Hle|].
    split; [lia|]. split; assumption.
Qed.

Lemma read_workload_exit fuel e : forall workload offset size w code w',
  _read_workload fuel e workload offset size w = Exited code w' ->
  code = 1
  /\ n_do w' = n_do w /\ n_write w' = n_write w /\ n_work w' = n_work w
  /\ reported_failure e w w'.
Proof.
  induction fuel as [|fuel IH]; intros workload offset size w code w' H;
    [discriminate|].
  simpl in H. unfold mbind at 1, proc_bind at 1 in H.
  assert (Htail : forall a,
    (read e (a - offset)
     ≫= λ '(read_ret, data),
          if read_ret <? 0
          then get_errno
               ≫= λ en : Z,
                    fprintf_stderr
                      ("Error reading from standard input (" ++
                       fmt_d en ++ ")" ++ nl)
                    ≫= λ _ : (), exit 1
          else if read_ret =? 0 then mret (workload, offset, a)
               else _read_workload fuel e (workload ++ data)
                      (Int.size_t (offset + read_ret)) a) w
    = Exited code w' ->
    code = 1
    /\ n_do w' = n_do w /\ n_write w' = n_write w /\ n_work w' = n_work w
    /\ reported_failure e w w').
  { intros a Ha. unfold mbind at 1, proc_bind at 1, read in Ha.
    destruct (Z.ltb_spec (read_script e (n_read w)) 0) as [Hneg|Hpos].
    - unfold mbind, proc_bind, get_errno, fprintf_stderr, effect, exit in Ha.
      simpl in Ha. inversion Ha; subst. repeat split.
      right. exists (n_read w). split; [lia|]. split; [intros j Hj; lia|].
      split; [exact Hneg|]. repeat split.
    - simpl in Ha.
      match type of Ha with context [Z.of_nat ?n <? 0] =>
        destruct (Z.ltb_spec (Z.of_nat n) 0); [lia|] end.
      match type of Ha with context [Z.of_nat ?n =? 0] =>
        destruct (Z.of_nat n =? 0); [discriminate|] end.
      apply IH in Ha as (Hcode & Hdo & Hwr & Hwork & Hrep).
      split; [exact Hcode|]. split; [exact Hdo|]. split; [exact Hwr|].
      split; [exact Hwork|].
      destruct Hrep as [(size' & Hno & Htr) | (k & Hk & Hbefore & Hfail & Hrest)].
      + left. exists size'. split; [exact Hno | exact Htr].
      + right. exists k. simpl in Hk, Hbefore.
        split; [lia|]. split.
        * intros j Hj. destruct (decide (j = n_read w)) as [->|Hne];
            [exact Hpos|]. apply Hbefore. lia.
        * split; [exact Hfail | exact Hrest]. }
  destruct (offset =? size); [|apply (Htail size); exact H].
  destruct (realloc_ok e _) eqn:Halloc; [eapply Htail; exact H|].
  unfold mbind, proc_bind, fprintf_stderr, effect, exit in H.
  simpl in H. inversion H; subst. repeat split.
  left. eexists. split; [exact Halloc | reflexivity].
Qed.

(** X2.  [_read_workload] never leaves the process quietly: when it
    exits, the status is 1 and the one thing it did besides reading is a
    line on standard error.  Either a [realloc] failed and the line is
    the allocation complaint, or a [read] failed, the first one to fail,
    and the line is the read complaint with the [errno] that this [read]
    set, which is also the [errno] the process is left with.  No job was
    submitted and nothing was written to standard output. *)
Theorem read_workload_exit_is_reported :
  forall (fuel : nat) (e : env) (w : world) (code : Z) (w' : world),
    _read_workload fuel e [] 0 0 w = Exited code w' ->
    code = 1
    /\ n_do w' = n_do w /\ n_write w' = n_write w /\ n_work w' = n_work w
    /\ ((exists size,
           realloc_ok e size = false
           /\ trace w' = trace w ++ [EvStderr msg_workload_alloc])
        \/ (exists k,
              (n_read w <= k)%nat
              /\ (forall j, (n_read w <= j < k)%nat -> 0 <= read_script e j)
              /\ read_script e k < 0
              /\ n_read w' = S k
              /\ errno w' = read_errno e k
              /\ trace w'
                 = trace w ++ [EvStderr (msg_read_error (read_errno e k))])).
Proof. intros fuel e w code w'. apply read_workload_exit. Qed.

(** * What [_client_do] hands on, and in which order *)

Lemma outputs_app tr tr' : outputs (tr ++ tr') = outputs tr ++ outputs tr'.
Proof. unfold outputs. apply flat_map_app. Qed.

Lemma submitted_app tr tr' :
  submitted (tr ++ tr') = submitted tr ++ submitted tr'.
Proof. unfold submitted. apply flat_map_app. Qed.

Lemma trace_after_write e data w :
  trace (after_write e data w)
  = trace w ++ [EvWrite data (write_script e (n_write w))].
Proof. unfold after_write. simpl. destruct (_ <? 0); reflexivity. Qed.

Lemma stdin_after_write e data w : stdin (after_write e data w) = stdin w.
Proof. unfold after_write. simpl. destruct (_ <? 0); reflexivity. Qed.

Lemma n_do_after_write e data w : n_do (after_write e data w) = n_do w.
Proof. unfold after_write. simpl. destruct (_ <? 0); reflexivity. Qed.

Lemma n_write_after_write e data w :
  n_write (after_write e data w) = S (n_write w).
Proof. unfold after_write. simpl. destruct (_ <? 0); reflexivity. Qed.

(** One round of the loop on a terminal reply, with the whole effect on
    the world spelled out. *)
Lemma client_do_loop_terminal fuel e f u workload workload_size write_ret w :
  terminal (do_ret (client_do_script e (n_do w))) = true ->
  exists w',
    _client_do_loop (S fuel) e f u workload workload_size write_ret w
    = Returned tt w'
    /\ trace w' = trace w ++ [EvDo f u workload workload_size;
                              final_event e (client_do_script e (n_do w))
                                          (n_write w)]
    /\ stdin w' = stdin w
    /\ n_do w' = S (n_do w).
Proof.
  intros Hterm. unfold final_event.
  destruct (report e (do_ret (client_do_script e (n_do w)))) as [msg|] eqn:Hrep.
  - rewrite (client_do_loop_report e f u workload workload_size fuel write_ret
               w msg Hrep).
    eexists. split; [reflexivity|]. simpl. rewrite <- app_assoc.
    repeat split.
  - assert (Hret : do_ret (client_do_script e (n_do w)) = GEARMAN_SUCCESS).
    { destruct (do_ret (client_do_script e (n_do w)));
        simpl in *; congruence. }
    rewrite (client_do_loop_success e f u workload workload_size fuel write_ret
               w Hret).
    eexists. split; [reflexivity|].
    rewrite trace_after_write, stdin_after_write, n_do_after_write.
    simpl. rewrite <- app_assoc. repeat split.
Qed.

Lemma output_of_final_event e r k :
  terminal (do_ret r) = true ->
  output_of_event (final_event e r k) = output_of_reply r.
Proof.
  unfold final_event, output_of_reply, report.
  destruct (do_ret r); simpl; intros H; try reflexivity; discriminate.
Qed.

Lemma client_do_loop_outputs k : forall fuel e f u workload workload_size
                                        write_ret w,
  (forall i, (i < k)%nat ->
             benign write_ret (client_do_script e (n_do w + i))) ->
  terminal (do_ret (client_do_script e (n_do w + k))) = true ->
  (k < fuel)%nat ->
  exists w',
    _client_do_loop fuel e f u workload workload_size write_ret w
    = Returned tt w'
    /\ outputs (trace w')
       = outputs (trace w)
         ++ flat_map (fun i => output_of_reply (client_do_script e i))
                     (seq (n_do w) (S k))
    /\ n_do w' = (n_do w + k + 1)%nat
    /\ submitted (trace w')
       = submitted (trace w)
         ++ replicate (S k) (take (Z.to_nat workload_size) workload).
Proof.
  induction k as [|k IH];
    intros fuel e f u workload workload_size write_ret w Hb Hterm Hfuel;
    (destruct fuel as [|fuel]; [lia|]).
  - rewrite Nat.add_0_r in Hterm.
    destruct (client_do_loop_terminal fuel e f u workload workload_size
                write_ret w Hterm) as (w' & -> & Htrace & _ & Hn).
    exists w'. split; [reflexivity|]. rewrite Htrace.
    rewrite outputs_app, submitted_app. simpl.
    rewrite output_of_final_event by exact Hterm.
    rewrite !app_nil_r. split; [reflexivity|]. split; [lia|].
    f_equal. unfold final_event.
    destruct (report e _); reflexivity.
  - assert (Hb0 : benign write_ret (client_do_script e (n_do w))).
    { specialize (Hb 0%nat). rewrite Nat.add_0_r in Hb. apply Hb. lia. }
    assert (Hstep : exists w1,
      _client_do_loop (S fuel) e f u workload workload_size write_ret w
      = _client_do_loop fuel e f u workload workload_size write_ret w1
      /\ n_do w1 = S (n_do w)
      /\ outputs (trace w1)
         = outputs (trace w) ++ output_of_reply (client_do_script e (n_do w))
      /\ submitted (trace w1)
         = submitted (trace w) ++ [take (Z.to_nat workload_size) workload]).
    { destruct Hb0 as [[Hret Hwr] | [Hret Hden]].
      - eexists. split; [apply client_do_loop_data; assumption|].
        rewrite n_do_after_write, trace_after_write.
        split; [reflexivity|]. unfold after_do. simpl.
        rewrite <- app_assoc, outputs_app, submitted_app.
        unfold output_of_reply. rewrite Hret. simpl. rewrite ?app_nil_r.
        split; reflexivity.
      - eexists. split.
        + apply client_do_loop_status; [assumption|].
          apply percent_nonzero; assumption.
        + split; [reflexivity|]. unfold after_do. simpl.
          rewrite <- app_assoc, outputs_app, submitted_app.
          unfold output_of_reply. rewrite Hret.
          rewrite percent_nonzero by assumption. simpl. rewrite ?app_nil_r.
          split; reflexivity. }
    destruct Hstep as (w1 & -> & Hn1 & Hout1 & Hsub1).
    destruct (IH fuel e f u workload workload_size write_ret w1)
      as (w' & Hrun & Hout & Hn & Hsub).
    + intros i Hi. rewrite Hn1.
      replace (S (n_do w) + i)%nat with (n_do w + S i)%nat by lia.
      apply Hb. lia.
    + rewrite Hn1.
      replace (S (n_do w) + k)%nat with (n_do w + S k)%nat by lia.
      exact Hterm.
    + lia.
    + exists w'. split; [exact Hrun|].
      rewrite Hout, Hout1, Hsub, Hsub1, Hn1.
      split; [|split; [lia|]].
      * rewrite <- app_assoc. f_equal.
      * rewrite <- app_assoc. reflexivity.
Qed.

(** X3.  [k] replies that stream data or report progress (with the
    unassigned [write_ret] not negative and no denominator zero) and then
    a terminal reply: [_client_do] returns after [k + 1] calls of
    [gearman_client_do], all with the same workload, and what it handed
    to standard output is, reply by reply and in their order, the chunk
    of each data reply, the percentage line of each progress report and
    at the end the result of a job that succeeded; a job that failed or
    a connection error adds nothing to standard output. *)
Theorem client_do_outputs_in_order :
  forall (k fuel : nat) (e : env) (function : string)
         (unique : option string) (workload : list byte)
         (workload_size : Z) (w : world),
    (forall i, (i < k)%nat ->
       benign (indeterminate e (n_do w)) (client_do_script e (n_do w + i))) ->
    terminal (do_ret (client_do_script e (n_do w + k))) = true ->
    (k < fuel)%nat ->
    exists w',
      _client_do fuel e function unique workload workload_size w
      = Returned tt w'
      /\ outputs (trace w')
         = outputs (trace w)
           ++ flat_map (fun i => output_of_reply (client_do_script e i))
                       (seq (n_do w) (S k))
      /\ n_do w' = (n_do w + k + 1)%nat
      /\ submitted (trace w')
         = submitted (trace w)
           ++ replicate (S k) (take (Z.to_nat workload_size) workload).
Proof.
  intros k fuel e function unique workload workload_size w Hb Hterm Hfuel.
  unfold _client_do. apply client_do_loop_outputs; assumption.
Qed.

(** * The one-job client, end to end *)

(** X4.  [gearman <function>] with a job server that answers the first
    call with a terminal reply: when reading succeeds, the tool makes
    exactly one call of [gearman_client_do], for the function named on
    the command line and with the [-u] key if one was given; the workload
    is all of standard input, byte for byte, and the size is its length.
    It then writes the result or reports the error, and [main] returns
    0 with standard input used up. *)
Theorem client_submits_all_of_stdin :
  forall (fuel : nat) (e : env) (c : cmdline) (l : locals) (w : world),
    getopt_loop (getopt_results c) initial_locals = Some l ->
    signal_errno e = None ->
    worker l = false ->
    job_per_newline l = false ->
    client_ready e c = true ->
    (forall i, 0 <= read_script e i) ->
    (forall n, realloc_ok e n = true) ->
    Z.of_nat (length (stdin w)) < 2 ^ 62 ->
    (length (stdin w) < fuel)%nat ->
    terminal (do_ret (client_do_script e (n_do w))) = true ->
    exists w',
      main fuel e c w = Returned 0 w'
      /\ trace w'
         = trace w
           ++ [EvDo (arg c (optind c)) (unique l) (stdin w)
                    (Z.of_nat (length (stdin w)));
               final_event e (client_do_script e (n_do w)) (n_write w)]
      /\ stdin w' = [].
Proof.
  intros fuel e c l w Hopt Hsig Hworker Hnl Hready Hreads Halloc Hbound Hfuel
         Hterm.
  destruct (read_workload_all fuel e [] 0 0 w Hreads Halloc)
    as (size' & w1 & Hread & _ & _ & Hend & Htr & _ & Hdo & Hwr & _).
  { unfold buffer_ok. simpl. lia. }
  { simpl. lia. }
  { exact Hfuel. }
  simpl in Hread.
  destruct fuel as [|fuel']; [lia|].
  destruct (client_do_loop_terminal fuel' e (arg c (optind c)) (unique l)
              (stdin w) (Z.of_nat (length (stdin w)))
              (indeterminate e (n_do w1)) w1)
    as (w' & Hrun & Htrace & Hstdin & _).
  { rewrite Hdo. exact Hterm. }
  exists w'. split; [|split].
  - unfold main. rewrite Hopt, Hsig, Hworker, Hnl.
    rewrite (client_when_ready _ _ _ _ Hready).
    unfold mbind, proc_bind. rewrite Hread. unfold _client_do.
    rewrite Hrun. reflexivity.
  - rewrite Htrace, Htr, Hdo, Hwr. reflexivity.
  - rewrite Hstdin. exact Hend.
Qed.

(** * One job per line: what is submitted *)

Lemma byte_eqb_neq c d : c <> d -> Byte.eqb c d = false.
Proof.
  intros Hne. destruct (Byte.eqb c d) eqn:E; [|reflexivity].
  apply byte_dec_bl in E. contradiction.
Qed.

Lemma strlen_terminated l rest :
  NUL ∉ l -> strlen (l ++ NUL :: rest) = Z.of_nat (length l).
Proof.
  induction l as [|c l IH]; intros Hl; [reflexivity|].
  apply not_elem_of_cons in Hl as [Hc Hl].
  simpl app. simpl strlen. rewrite byte_eqb_neq by congruence.
  rewrite IH by exact Hl. simpl length. lia.
Qed.

Lemma fgets_take_split n : forall s l r,
  fgets_take n s = (l, r) -> l ++ r = s.
Proof.
  induction n as [|n IH]; intros s l r H; simpl in H.
  - destruct s; injection H as <- <-; reflexivity.
  - destruct s as [|c s]; [injection H as <- <-; reflexivity|].
    destruct (Byte.eqb c LF); [injection H as <- <-; reflexivity|].
    destruct (fgets_take n s) as [l' r'] eqn:E.
    injection H as <- <-. simpl. f_equal. apply IH. exact E.
Qed.

Lemma fgets_take_first n c s :
  (0 < n)%nat -> exists l', fst (fgets_take n (c :: s)) = c :: l'.
Proof.
  intros Hn. destruct n as [|n]; [lia|].
  simpl. destruct (Byte.eqb c LF); [exists []; reflexivity|].
  destruct (fgets_take n s) as [l' r']. exists l'. reflexivity.
Qed.

Lemma fgets_take_line n : forall line rest,
  LF ∉ line -> (length line < n)%nat ->
  fgets_take n (line ++ LF :: rest) = (line ++ [LF], rest).
Proof.
  induction n as [|n IH]; intros line rest Hlf Hlen; [lia|].
  destruct line as [|c line]; [reflexivity|].
  apply not_elem_of_cons in Hlf as [Hc Hlf].
  simpl app. simpl fgets_take. rewrite byte_eqb_neq by congruence.
  rewrite IH by (simpl in Hlen; auto; lia). reflexivity.
Qed.

(** [fgets] on input that is not at its end: a piece that is not empty
    is cut off the front. *)
Lemma fgets_some w :
  stdin w <> [] ->
  exists c l r,
    fgets GEARMAN_INITIAL_WORKLOAD_SIZE w
    = Returned (Some ((c :: l) ++ [NUL])) (set_stdin r w)
    /\ (c :: l) ++ r = stdin w.
Proof.
  intros Hne. unfold fgets. destruct (stdin w) as [|c s] eqn:Hs;
    [contradiction|].
  assert (Hn : (0 < Z.to_nat (GEARMAN_INITIAL_WORKLOAD_SIZE - 1))%nat)
    by (unfold GEARMAN_INITIAL_WORKLOAD_SIZE; lia).
  destruct (fgets_take_first _ c s Hn) as (l' & Hfirst).
  destruct (fgets_take _ (c :: s)) as [l r] eqn:E.
  cbn [fst] in Hfirst. subst l.
  exists c, l', r. split; [reflexivity|].
  apply fgets_take_split in E. exact E.
Qed.



Lemma fgets_line w (line rest : list byte) :
  stdin w = line ++ LF :: rest ->
  LF ∉ line ->
  Z.of_nat (length line) < GEARMAN_INITIAL_WORKLOAD_SIZE - 1 ->
  fgets GEARMAN_INITIAL_WORKLOAD_SIZE w
  = Returned (Some ((line ++ [LF]) ++ [NUL])) (set_stdin rest w).
Proof.
  intros Hs Hlf Hlen. unfold fgets. rewrite Hs.
  rewrite fgets_take_line by (auto; lia).
  destruct line; reflexivity.
Qed.



(** * Option parsing *)

Lemma option_case_none c optarg l :
  option_case c optarg l = None <-> valid_option c = false.
Proof.
  destruct c as [b0 b1 b2 b3 b4 b5 b6 b7].
  destruct b0, b1, b2, b3, b4, b5, b6, b7; simpl; split; intros H;
    first [reflexivity | discriminate].
Qed.

Lemma option_case_some c optarg l l' :
  option_case c optarg l = Some l' ->
  worker l' = worker l || Ascii.eqb c "w"
  /\ job_per_newline l'
     = job_per_newline l || Ascii.eqb c "n" || Ascii.eqb c "N"
  /\ strip_newline l' = strip_newline l || Ascii.eqb c "N"
  /\ host l' = (if Ascii.eqb c "h" then Some optarg else host l)
  /\ unique l' = (if Ascii.eqb c "u" then Some optarg else unique l)
  /\ count l' = (if Ascii.eqb c "c" then Int.s32 (atoi optarg) else count l)
  /\ port l' = (if Ascii.eqb c "p" then Int.u16 (atoi optarg) else port l).
Proof.
  destruct c as [b0 b1 b2 b3 b4 b5 b6 b7].
  destruct b0, b1, b2, b3, b4, b5, b6, b7; simpl; intros H;
    try discriminate; injection H as <-; simpl;
    rewrite ?orb_false_r, ?orb_true_r; repeat split; reflexivity.
Qed.

Lemma getopt_loop_none rs : forall l,
  getopt_loop rs l = None
  <-> existsb (fun r => negb (valid_option (fst r))) rs = true.
Proof.
  induction rs as [|[c optarg] rs IH]; intros l; simpl.
  - split; discriminate.
  - destruct (option_case c optarg l) as [l'|] eqn:E.
    + assert (Hv : valid_option c = true).
      { destruct (valid_option c) eqn:Hv; [reflexivity|].
        apply (option_case_none c optarg l) in Hv. rewrite Hv in E.
        discriminate. }
      rewrite Hv. simpl. apply IH.
    + apply option_case_none in E. rewrite E. simpl. split; reflexivity.
Qed.

Lemma getopt_loop_some rs : forall l0 l,
  getopt_loop rs l0 = Some l ->
  worker l = worker l0 || given "w" rs
  /\ job_per_newline l = job_per_newline l0 || given "n" rs || given "N" rs
  /\ strip_newline l = strip_newline l0 || given "N" rs
  /\ host l = (match last_optarg "h" rs with
               | Some a => Some a
               | None => host l0
               end)
  /\ unique l = (match last_optarg "u" rs with
                 | Some a => Some a
                 | None => unique l0
                 end)
  /\ count l = (match last_optarg "c" rs with
                | Some a => Int.s32 (atoi a)
                | None => count l0
                end)
  /\ port l = (match last_optarg "p" rs with
               | Some a => Int.u16 (atoi a)
               | None => port l0
               end).
Proof.
  induction rs as [|[c optarg] rs IH]; intros l0 l H.
  - injection H as <-. simpl. rewrite !orb_false_r. repeat split.
  - simpl in H. destruct (option_case c optarg l0) as [l1|] eqn:E;
      [|discriminate].
    apply option_case_some in E
      as (Hw & Hn & Hs & Hh & Hu & Hc & Hp).
    apply IH in H as (Hw' & Hn' & Hs' & Hh' & Hu' & Hc' & Hp').
    unfold given in *. cbn [existsb fst last_optarg].
    rewrite Hw', Hn', Hs', Hh', Hu', Hc', Hp', Hw, Hn, Hs, Hh, Hu, Hc, Hp.
    repeat split.
    + rewrite orb_assoc. reflexivity.
    + destruct (job_per_newline l0), (Ascii.eqb c "n"), (Ascii.eqb c "N"),
        (existsb _ rs), (existsb _ rs); reflexivity.
    + rewrite orb_assoc. reflexivity.
    + destruct (last_optarg "h" rs), (Ascii.eqb c "h"); reflexivity.
    + destruct (last_optarg "u" rs), (Ascii.eqb c "u"); reflexivity.
    + destruct (last_optarg "c" rs), (Ascii.eqb c "c"); reflexivity.
    + destruct (last_optarg "p" rs), (Ascii.eqb c "p"); reflexivity.
Qed.

Lemma usage_trace name w :
  exists w',
    usage name w = Returned tt w'
    /\ trace w' = trace w ++ map EvPrintf (usage_text name)
    /\ untouched w w'.
Proof.
  eexists. split; [reflexivity|]. split; [|repeat split].
  simpl trace. rewrite <- !app_assoc. reflexivity.
Qed.

(** X7.  Option parsing fails exactly when [getopt] returned a character
    that [main] has no case for, such as the question mark it returns
    for an option it does not know.  By then [getopt] has written its
    own diagnostic to standard error.  [main] puts the ten lines of the
    usage text on standard output after it, and nothing else, and exits
    with status 1, whatever else was asked for and whatever the
    environment would have answered: standard input is not read, no job
    is submitted or grabbed and nothing is given to [write]. *)
Theorem unknown_option_prints_usage :
  forall (c : cmdline),
    (getopt_loop (getopt_results c) initial_locals = None
     <-> existsb (fun r => negb (valid_option (fst r))) (getopt_results c)
         = true)
    /\ (existsb (fun r => negb (valid_option (fst r))) (getopt_results c)
        = true ->
        forall fuel e w,
        exists w',
          main fuel e c w = Exited 1 w'
          /\ trace w'
             = trace w
               ++ EvStderr (getopt_message c)
                  :: map EvPrintf (usage_text (arg c 0))
          /\ outputs (trace w')
             = outputs (trace w) ++ map OutText (usage_text (arg c 0))
          /\ untouched w w').
Proof.
  intros c. split; [apply getopt_loop_none|].
  intros Hbad fuel e w.
  apply getopt_loop_none with (l := initial_locals) in Hbad.
  destruct (usage_trace (arg c 0) (emit (EvStderr (getopt_message c)) w))
    as (w' & Husage & Htrace & Hsame).
  assert (Htr : trace w'
                = trace w ++ EvStderr (getopt_message c)
                             :: map EvPrintf (usage_text (arg c 0))).
  { rewrite Htrace. simpl trace. rewrite <- app_assoc. reflexivity. }
  exists w'. split; [|split; [exact Htr|split; [|exact Hsame]]].
  - unfold main. rewrite Hbad. unfold fprintf_stderr, effect.
    unfold mbind, proc_bind. rewrite Husage. reflexivity.
  - rewrite Htr, outputs_app. reflexivity.
Qed.

Lemma s32_range z : - 2 ^ 31 <= Int.s32 z < 2 ^ 31.
Proof.
  unfold Int.s32.
  pose proof (Z.mod_pos_bound (z + 2 ^ 31) (2 ^ 32) ltac:(lia)). lia.
Qed.

Lemma atoi_range s : - 2 ^ 31 <= atoi s < 2 ^ 31.
Proof.
  unfold atoi. destruct (skip_space s) as [|c rest]; [apply s32_range|].
  destruct c as [[] [] [] [] [] [] [] []]; apply s32_range.
Qed.

(** X8.  What option parsing leaves in the variables of [main] when all
    options are known: the worker flag is set exactly when [-w] was
    given, one job per line is chosen exactly when [-n] or [-N] was
    given and newline stripping exactly when [-N] was; host and unique
    key are the arguments of the last [-h] and [-u], count and port the
    [atoi] of the arguments of the last [-c] and [-p], brought into
    [int32_t] and [in_port_t], and 0 or null without the option.  The
    order of the options plays no other part.  [atoi] is
    [(int) strtol (s, NULL, 10)]: it skips white space, takes a sign,
    stops at the first byte that is no digit, is always an [int], wraps
    a value that fits a [long] but not an [int], and for a value beyond
    a [long] gives what is left of [LONG_MAX] or [LONG_MIN], that is -1
    or 0; so [-p 18446744073709551617] makes the port 65535. *)
Theorem option_parsing_result :
  (forall (rs : list (ascii * string)) (l : locals),
     getopt_loop rs initial_locals = Some l ->
     worker l = given "w" rs
     /\ job_per_newline l = given "n" rs || given "N" rs
     /\ strip_newline l = given "N" rs
     /\ host l = last_optarg "h" rs
     /\ unique l = last_optarg "u" rs
     /\ count l = (match last_optarg "c" rs with
                   | Some a => Int.s32 (atoi a)
                   | None => 0
                   end)
     /\ port l = (match last_optarg "p" rs with
                  | Some a => Int.u16 (atoi a)
                  | None => 0
                  end))
  /\ (forall s, - 2 ^ 31 <= atoi s < 2 ^ 31)
  /\ atoi "7" = 7
  /\ atoi " -12x" = -12
  /\ atoi "+4730" = 4730
  /\ atoi "reverse" = 0
  /\ atoi "2147483648" = - 2 ^ 31
  /\ atoi "9223372036854775807" = -1
  /\ atoi "9223372036854775808" = -1
  /\ atoi "18446744073709551617" = -1
  /\ atoi "-9223372036854775809" = 0
  /\ (forall l,
        getopt_loop [("c"%char, "9223372036854775808"%string);
                     ("p"%char, "18446744073709551617"%string)]
                    initial_locals = Some l ->
        count l = -1 /\ port l = 65535).
Proof.
  split.
  { intros rs l H.
    apply getopt_loop_some in H as (Hw & Hn & Hs & Hh & Hu & Hc & Hp).
    simpl in *. rewrite Hw, Hn, Hs, Hh, Hu, Hc, Hp.
    repeat split.
    - destruct (last_optarg "h" rs); reflexivity.
    - destruct (last_optarg "u" rs); reflexivity. }
  split; [exact atoi_range|].
  repeat (split; [vm_compute; reflexivity|]).
  intros l H. vm_compute in H. injection H as <-. split; reflexivity.
Qed.

(** * More on the worker *)

Lemma worker_loop_nonpositive fuel : forall e exec_argv count w,
  count <= 0 ->
  _worker_loop fuel e exec_argv count w = _worker_loop fuel e exec_argv 0 w.
Proof.
  induction fuel as [|fuel IH]; intros e exec_argv count w Hcount;
    [reflexivity|].
  cbn [_worker_loop]. unfold mbind, proc_bind.
  destruct (gearman_worker_work e _ w) as [ret w1|code w1|w1|];
    try reflexivity.
  destruct (decide (ret ≠ GEARMAN_SUCCESS)); [reflexivity|].
  destruct (Z.gtb_spec count 0); [lia|]. apply IH. exact Hcount.
Qed.

(** X9.  A count that is zero or negative sets no limit: [_worker]
    behaves with it exactly as with a count of 0, whatever the rounds
    bring. *)
Theorem worker_nonpositive_count_is_no_limit :
  forall (fuel : nat) (e : env) (c : cmdline) (count : Z) (w : world),
    count <= 0 ->
    _worker fuel e c count w = _worker fuel e c 0 w.
Proof.
  intros fuel e c count w Hcount. unfold _worker.
  destruct (argc c <? optind c + 1); [reflexivity|].
  destruct (negb (worker_create_ok e)); [reflexivity|].
  destruct (decide (worker_add_server_ret e ≠ GEARMAN_SUCCESS));
    [reflexivity|].
  destruct (decide (worker_add_function_ret e ≠ GEARMAN_SUCCESS));
    [reflexivity|].
  apply worker_loop_nonpositive. exact Hcount.
Qed.

(** X10.  The worker does check its write: when a job is assigned, no
    command was given and [write] refuses the workload, the process
    leaves with status 1 in that round, after a line on standard error
    that carries the [errno] of the failed [write]. *)
Theorem worker_write_failure_exits_1 :
  forall (fuel : nat) (e : env) (count : Z) (w : world) (job : list byte),
    work_job (worker_work_script e (n_work w)) = Some job ->
    write_script e (n_write w) < 0 ->
    exists w',
      _worker_loop (S fuel) e None count w = Exited 1 w'
      /\ trace w'
         = trace w
           ++ [EvWork; EvWrite job (write_script e (n_write w));
               EvStderr (msg_write_error (write_errno e (n_write w)))]
      /\ errno w' = write_errno e (n_write w).
Proof.
  intros fuel e count w job Hjob Hwrite.
  simpl. unfold mbind at 1, proc_bind at 1, gearman_worker_work.
  rewrite Hjob. unfold _worker_cb, write. unfold_proc. simpl.
  destruct (Z.ltb_spec (write_script e (n_write w)) 0); [|lia].
  simpl. eexists. split; [reflexivity|]. simpl.
  rewrite <- !app_assoc. split; reflexivity.
Qed.

Lemma worker_work_with_command e argv w :
  gearman_worker_work e (fun job => _worker_cb e job (Some argv)) w
  = Returned (work_ret (worker_work_script e (n_work w)))
      (match work_job (worker_work_script e (n_work w)) with
       | Some _ =>
           emit (EvPrintf (default EmptyString (head argv) ++ nl))
                (tick_work (emit EvWork w))
       | None => tick_work (emit EvWork w)
       end).
Proof.
  unfold gearman_worker_work. destruct (work_job _); reflexivity.
Qed.

Lemma worker_loop_with_command fuel e argv : forall count w,
  match _worker_loop fuel e (Some argv) count w with
  | Returned _ w' =>
      exists m,
        trace w'
        = trace w
          ++ flat_map (round_events e (default EmptyString (head argv)))
                      (seq (n_work w) (S m))
          ++ closing_report e (n_work w + m)
        /\ n_work w' = (n_work w + S m)%nat
        /\ n_write w' = n_write w
        /\ successes e (n_work w) m
        /\ (work_ret (worker_work_script e (n_work w + m)) <> GEARMAN_SUCCESS
            \/ count = Z.of_nat (S m))
  | Running => True
  | Exited _ _ | Trapped _ => False
  end.
Proof.
  induction fuel as [|fuel IH]; intros count w; [exact I|].
  cbn [_worker_loop]. unfold mbind at 1, proc_bind at 1.
  rewrite worker_work_with_command.
  set (cmd := default EmptyString (head argv)) in *.
  set (w1 := match work_job _ with Some _ => _ | None => _ end).
  assert (Hw1 : trace w1 = trace w ++ round_events e cmd (n_work w)
                /\ n_work w1 = S (n_work w) /\ n_write w1 = n_write w).
  { unfold w1, round_events. destruct (work_job _); simpl.
    - rewrite <- app_assoc. repeat split.
    - repeat split. }
  destruct Hw1 as (Htr1 & Hn1 & Hwr1).
  assert (Hrec : forall count',
    (count' = count - 1 /\ 0 < count \/ count' = count /\ count <= 0) ->
    work_ret (worker_work_script e (n_work w)) = GEARMAN_SUCCESS ->
    match _worker_loop fuel e (Some argv) count' w1 with
    | Returned _ w' =>
        exists m,
          trace w'
          = trace w ++ flat_map (round_events e cmd) (seq (n_work w) (S m))
            ++ closing_report e (n_work w + m)
          /\ n_work w' = (n_work w + S m)%nat
          /\ n_write w' = n_write w
          /\ successes e (n_work w) m
          /\ (work_ret (worker_work_script e (n_work w + m))
              <> GEARMAN_SUCCESS
              \/ count = Z.of_nat (S m))
    | Running => True
    | Exited _ _ | Trapped _ => False
    end).
  { intros count' Hcount' Hok. specialize (IH count' w1).
    destruct (_worker_loop fuel e (Some argv) count' w1); try exact IH.
    destruct IH as (m & Htr & Hn & Hwr & Hs & Hstop).
    exists (S m). rewrite Hn1 in *.
    replace (n_work w + S m)%nat with (S (n_work w) + m)%nat by lia.
    split; [|split; [lia|split; [congruence|split]]].
    - rewrite Htr, Htr1. cbn [seq flat_map]. rewrite <- !app_assoc.
      reflexivity.
    - intros i Hi. destruct (decide (i = n_work w)) as [->|Hne];
        [exact Hok|]. apply Hs. lia.
    - destruct Hstop as [Hfail|Hc]; [left; exact Hfail|].
      right. lia. }
  destruct (decide (work_ret (worker_work_script e (n_work w))
                    ≠ GEARMAN_SUCCESS)) as [Hfail|Hok].
  - exists 0%nat. unfold fprintf_stderr, effect. simpl trace.
    rewrite Nat.add_0_r. unfold closing_report.
    destruct (decide _) as [_|Hno]; [|contradiction].
    split; [|split; [simpl; lia|split; [exact Hwr1|split]]].
    + rewrite Htr1. cbn [seq flat_map]. rewrite app_nil_r, <- app_assoc.
      reflexivity.
    + intros i Hi. lia.
    + left. exact Hfail.
  - assert (Hok' : work_ret (worker_work_script e (n_work w))
                   = GEARMAN_SUCCESS).
    { destruct (decide (work_ret (worker_work_script e (n_work w))
                        = GEARMAN_SUCCESS)); [assumption|contradiction]. }
    destruct (Z.gtb_spec count 0); [|apply Hrec; [right; lia | exact Hok']].
    destruct (Z.eqb_spec (count - 1) 0);
      [|apply Hrec; [left; lia | exact Hok']].
    exists 0%nat. rewrite Nat.add_0_r. unfold closing_report.
    destruct (decide _) as [Hno|_]; [contradiction|].
    split; [|split; [lia|split; [exact Hwr1|split]]].
    + rewrite Htr1. cbn [seq flat_map]. rewrite !app_nil_r. reflexivity.
    + intros i Hi. lia.
    + right. lia.
Qed.

(** X11.  A worker that was given a command after the function name
    never hands a workload to [write] and never leaves the process: it
    is still running or it has returned.  When it has returned it made
    some rounds, one at least, and its trace is, round by round, the
    call of [gearman_worker_work] followed by the name of the command on
    standard output exactly when the round was assigned a job, and then,
    after the last round and only there, the error of the worker on
    standard error if that round failed.  All rounds before the last
    succeeded, and the last one failed or used up the count. *)
Theorem worker_with_command_never_writes :
  forall (fuel : nat) (e : env) (c : cmdline) (count : Z) (w : world),
    worker_ready e c = true ->
    optind c + 1 < argc c ->
    match _worker fuel e c count w with
    | Returned _ w' =>
        exists m,
          trace w'
          = trace w
            ++ flat_map (round_events e (arg c (optind c + 1)))
                        (seq (n_work w) (S m))
            ++ closing_report e (n_work w + m)
          /\ n_work w' = (n_work w + S m)%nat
          /\ n_write w' = n_write w
          /\ successes e (n_work w) m
          /\ (work_ret (worker_work_script e (n_work w + m))
              <> GEARMAN_SUCCESS
              \/ count = Z.of_nat (S m))
    | Running => True
    | Exited _ _ | Trapped _ => False
    end.
Proof.
  intros fuel e c count w Hready Hargc.
  rewrite (worker_when_ready _ _ _ _ Hready). unfold exec_argv_of.
  destruct (Z.eqb_spec (argc c) (optind c + 1)); [lia|].
  pose proof (worker_loop_with_command fuel e
                (drop (Z.to_nat (optind c + 1)) (argv c)) count w) as H.
  replace (default EmptyString
             (head (drop (Z.to_nat (optind c + 1)) (argv c))))
    with (arg c (optind c + 1)) in H; [exact H|].
  unfold arg. rewrite head_lookup, lookup_drop, Nat.add_0_r. reflexivity.
Qed.

(** * What a mode leaves alone *)

Lemma idle_emit w0 ev : preserves (client_idle w0) (effect (emit ev)).
Proof. intros w w' HP H. injection H as <-. exact HP. Qed.

Lemma idle_set_errno w0 en : preserves (client_idle w0) (effect (set_errno en)).
Proof. intros w w' HP H. injection H as <-. exact HP. Qed.

Lemma idle_write w0 e data : preserves (client_idle w0) (write e data).
Proof.
  intros w w' HP H. unfold write in H. injection H as <-.
  destruct (_ <? 0); exact HP.
Qed.

Ltac idle_step :=
  first
    [ apply preserves_ret | apply preserves_exit | apply preserves_trap
    | apply preserves_running | apply preserves_get_errno
    | apply idle_write | apply idle_emit | apply idle_set_errno
    | solve [auto]
    | apply preserves_bind; [|intros ?]
    | match goal with
      | |- preserves _ (if ?b then _ else _) => destruct b
      | |- preserves _ (match ?x with _ => _ end) => destruct x
      end ].

Ltac idle_tac := unfold fprintf_stderr, printf; repeat idle_step.

Lemma idle_usage w0 name : preserves (client_idle w0) (usage name).
Proof. unfold usage. idle_tac. Qed.

Lemma idle_worker_cb w0 e job cb_arg :
  preserves (client_idle w0) (_worker_cb e job cb_arg).
Proof. unfold _worker_cb. idle_tac. Qed.

Lemma idle_worker_work w0 e exec_argv :
  preserves (client_idle w0)
    (gearman_worker_work e (fun job => _worker_cb e job exec_argv)).
Proof.
  intros w w' HP H. unfold gearman_worker_work in H.
  destruct (work_job _) as [job|].
  - revert H. apply (preserves_bind (client_idle w0));
      [apply idle_worker_cb | intros ?; apply preserves_ret |].
    exact HP.
  - injection H as <-. exact HP.
Qed.

Lemma idle_worker_loop w0 fuel e exec_argv : forall count,
  preserves (client_idle w0) (_worker_loop fuel e exec_argv count).
Proof.
  induction fuel as [|fuel IH]; intros count; simpl;
    [apply preserves_running|].
  pose proof (idle_worker_work w0 e exec_argv). idle_tac.
Qed.

Lemma idle_worker w0 fuel e c count :
  preserves (client_idle w0) (_worker fuel e c count).
Proof.
  unfold _worker. pose proof (idle_usage w0).
  pose proof (idle_worker_loop w0). idle_tac.
Qed.

(** X12.  With [-w] the tool is a worker and nothing else: however the
    run ends, [gearman_client_do] was never called and standard input
    was never read, also when [-n], [-N] or [-u] were given as well. *)
Theorem worker_mode_leaves_client_side_alone :
  forall (fuel : nat) (e : env) (c : cmdline) (l : locals) (w w' : world),
    getopt_loop (getopt_results c) initial_locals = Some l ->
    worker l = true ->
    final_world (main fuel e c w) = Some w' ->
    client_idle w w'.
Proof.
  intros fuel e c l w w' Hopt Hworker H.
  assert (Hmain : preserves (client_idle w) (main fuel e c)).
  { unfold main. rewrite Hopt, Hworker.
    pose proof (idle_worker w). idle_tac. }
  apply (Hmain w w'); [|exact H]. repeat split.
Qed.

(** X13.  A failure of set-up costs nothing: [main] exits with status 1
    before any job was submitted or grabbed, with standard input unread
    and nothing given to [write]. *)
Theorem setup_failure_touches_nothing :
  forall (fuel : nat) (e : env) (c : cmdline) (w : world),
    setup_fails e c = true ->
    exists w', main fuel e c w = Exited 1 w' /\ untouched w w'.
Proof.
  intros fuel e c w. unfold setup_fails, main.
  destruct (getopt_loop _ _) as [l|];
    [|intros _; eexists; split; [reflexivity | repeat split]].
  destruct (signal_errno e) as [en|];
    [intros _; eexists; split; [reflexivity | repeat split]|].
  unfold mbind at 1, proc_bind at 1.
  destruct (worker l).
  - intros H. apply negb_true_iff in H.
    unfold worker_ready in H. unfold _worker.
    destruct (argc c <? optind c + 1);
      [eexists; split; [reflexivity | repeat split]|].
    destruct (worker_create_ok e);
      [|eexists; split; [reflexivity | repeat split]].
    destruct (decide (worker_add_server_ret e ≠ GEARMAN_SUCCESS));
      [eexists; split; [reflexivity | repeat split]|].
    destruct (decide (worker_add_function_ret e ≠ GEARMAN_SUCCESS));
      [eexists; split; [reflexivity | repeat split]|].
    simpl in H.
    apply andb_false_iff in H as [H|H]; apply bool_decide_eq_false in H;
      contradiction.
  - intros H. apply negb_true_iff in H. unfold client_ready in H.
    destruct (job_per_newline l); [unfold _client_nl | unfold _client];
      (destruct (argc c =? optind c + 1);
        [|eexists; split; [reflexivity | repeat split]]);
      (destruct (client_create_ok e);
        [|eexists; split; [reflexivity | repeat split]]);
      (destruct (decide (client_add_server_ret e ≠ GEARMAN_SUCCESS));
        [eexists; split; [reflexivity | repeat split]|]);
      simpl in H; apply bool_decide_eq_false in H; contradiction.
Qed.

(** * The worker as an echo *)

Lemma worker_work_echo e w :
  0 <= write_script e (n_write w) ->
  exists w',
    gearman_worker_work e (fun job => _worker_cb e job None) w
    = Returned (work_ret (worker_work_script e (n_work w))) w'
    /\ n_work w' = S (n_work w)
    /\ n_write w' = (n_write w
                     + length (output_of_round
                                 (worker_work_script e (n_work w))))%nat
    /\ outputs (trace w')
       = outputs (trace w)
         ++ output_of_round (worker_work_script e (n_work w)).
Proof.
  intros Hwrite. unfold gearman_worker_work, output_of_round.
  destruct (work_job _) as [job|].
  - unfold _worker_cb, write. unfold_proc. simpl.
    destruct (Z.ltb_spec (write_script e (n_write w)) 0); [lia|].
    simpl. eexists. split; [reflexivity|]. simpl.
    split; [reflexivity|]. split; [lia|].
    rewrite <- app_assoc, outputs_app. reflexivity.
  - eexists. split; [reflexivity|]. simpl.
    split; [reflexivity|]. split; [lia|].
    rewrite outputs_app. simpl. reflexivity.
Qed.

Lemma worker_loop_echo e n : forall fuel w,
  (forall i, 0 <= write_script e i) ->
  (0 < n)%nat ->
  successes e (n_work w) n ->
  (n <= fuel)%nat ->
  exists w',
    _worker_loop fuel e None (Z.of_nat n) w = Returned tt w'
    /\ outputs (trace w')
       = outputs (trace w)
         ++ flat_map (fun i => output_of_round (worker_work_script e i))
                     (seq (n_work w) n).
Proof.
  induction n as [|n IH]; intros fuel w Hwrites Hn Hs Hfuel; [lia|].
  destruct fuel as [|fuel]; [lia|].
  destruct (worker_work_echo e w (Hwrites _))
    as (w1 & Hwork & Hn1 & _ & Hout1).
  assert (Hret : work_ret (worker_work_script e (n_work w)) = GEARMAN_SUCCESS)
    by (apply Hs; lia).
  cbn [_worker_loop]. unfold mbind at 1, proc_bind at 1.
  rewrite Hwork, Hret.
  destruct (decide (GEARMAN_SUCCESS ≠ GEARMAN_SUCCESS)) as [Hne|_];
    [contradiction|].
  destruct (Z.gtb_spec (Z.of_nat (S n)) 0); [|lia].
  destruct (Z.eqb_spec (Z.of_nat (S n) - 1) 0) as [Hz|Hnz].
  - assert (n = 0%nat) by lia. subst n.
    exists w1. split; [reflexivity|].
    rewrite Hout1. simpl. rewrite app_nil_r. reflexivity.
  - replace (Z.of_nat (S n) - 1) with (Z.of_nat n) by lia.
    destruct (IH fuel w1) as (w' & Hrun & Hout).
    + exact Hwrites.
    + lia.
    + rewrite Hn1. intros i Hi. apply Hs. lia.
    + lia.
    + exists w'. split; [exact Hrun|].
      rewrite Hout, Hout1, Hn1, <- app_assoc. reflexivity.
Qed.

(** X14.  A worker without a command echoes its jobs: with a count
    [N > 0], [N] rounds that succeed and a standard output that takes
    every write, [_worker] returns having handed to standard output the
    workloads of the jobs it was assigned, one [write] each, in the
    order of the rounds, and nothing else. *)
Theorem worker_echoes_the_jobs :
  forall (fuel : nat) (e : env) (c : cmdline) (N : Z) (w : world),
    worker_ready e c = true ->
    argc c = optind c + 1 ->
    (forall i, 0 <= write_script e i) ->
    0 < N ->
    successes e (n_work w) (Z.to_nat N) ->
    (Z.to_nat N <= fuel)%nat ->
    exists w',
      _worker fuel e c N w = Returned tt w'
      /\ outputs (trace w')
         = outputs (trace w)
           ++ flat_map (fun i => output_of_round (worker_work_script e i))
                       (seq (n_work w) (Z.to_nat N)).
Proof.
  intros fuel e c N w Hready Hargc Hwrites HN Hs Hfuel.
  rewrite (worker_when_ready _ _ _ _ Hready). unfold exec_argv_of.
  rewrite Hargc, Z.eqb_refl.
  destruct (worker_loop_echo e (Z.to_nat N) fuel w Hwrites)
    as (w' & Hrun & Hout); [lia | exact Hs | exact Hfuel |].
  rewrite Z2Nat.id in Hrun by lia.
  exists w'. split; assumption.
Qed.

(** * One job per line: sizes *)

Section traced.

Variable Q : event -> Prop.
Hypothesis Q_write : forall data ret, Q (EvWrite data ret).
Hypothesis Q_printf : forall s, Q (EvPrintf s).
Hypothesis Q_stderr : forall s, Q (EvStderr s).

Lemma traced_emit ev : Q ev -> preserves (all_events Q) (effect (emit ev)).
Proof.
  intros Hev w w' HP H. injection H as <-. unfold all_events. simpl.
  apply Forall_app. split; [exact HP|]. constructor; [exact Hev|constructor].
Qed.

Lemma traced_write e data : preserves (all_events Q) (write e data).
Proof.
  intros w w' HP H. unfold write in H. injection H as <-.
  unfold all_events.
  destruct (_ <? 0); simpl; apply Forall_app;
    (split; [exact HP|]); (constructor; [apply Q_write|constructor]).
Qed.

Lemma traced_do e f u workload workload_size :
  Q (EvDo f u workload workload_size) ->
  preserves (all_events Q) (gearman_client_do e f u workload workload_size).
Proof.
  intros HQ w w' HP H. injection H as <-. unfold all_events. simpl.
  apply Forall_app. split; [exact HP|]. constructor; [exact HQ|constructor].
Qed.

Lemma traced_client_do_loop fuel e f u workload workload_size write_ret :
  Q (EvDo f u workload workload_size) ->
  preserves (all_events Q)
    (_client_do_loop fuel e f u workload workload_size write_ret).
Proof.
  intros HQ. induction fuel as [|fuel IH]; simpl;
    [apply preserves_running|].
  apply preserves_bind; [apply traced_do; exact HQ|]. intros r.
  unfold fprintf_stderr, printf.
  destruct (do_ret r);
    repeat first
      [ apply preserves_ret | apply preserves_exit | apply preserves_trap
      | apply preserves_get_errno | apply traced_write
      | apply traced_emit; auto
      | exact IH
      | apply preserves_bind; [|intros ?]
      | match goal with
        | |- preserves _ (if ?b then _ else _) => destruct b
        | |- preserves _ (match ?x with _ => _ end) => destruct x
        end ].
Qed.

Lemma traced_client_do fuel e f u workload workload_size :
  Q (EvDo f u workload workload_size) ->
  preserves (all_events Q) (_client_do fuel e f u workload workload_size).
Proof.
  intros HQ w w' HP H. unfold _client_do in H.
  eapply traced_client_do_loop; eassumption.
Qed.

End traced.

Lemma strlen_bounds buf : 0 <= strlen buf <= Z.of_nat (length buf).
Proof.
  induction buf as [|c rest IH]; simpl length; simpl strlen; [lia|].
  destruct (Byte.eqb c NUL); lia.
Qed.

Lemma strlen_app_nul l : strlen (l ++ [NUL]) <= Z.of_nat (length l).
Proof.
  induction l as [|c l IH]; simpl app; simpl strlen; simpl length; [lia|].
  destruct (Byte.eqb c NUL); lia.
Qed.

Lemma fgets_take_length n : forall s,
  (length (fst (fgets_take n s)) <= n)%nat.
Proof.
  induction n as [|n IH]; intros s; simpl.
  - destruct s; simpl; lia.
  - destruct s as [|c s]; [simpl; lia|].
    destruct (Byte.eqb c LF); [simpl; lia|].
    specialize (IH s). destruct (fgets_take n s) as [l r]. simpl in *. lia.
Qed.

Lemma line_sized_submission strip f u l :
  Z.of_nat (length l) <= GEARMAN_INITIAL_WORKLOAD_SIZE - 1 ->
  line_sized strip
    (EvDo f u (l ++ [NUL])
          (if strip then Int.size_t (strlen (l ++ [NUL]) - 1)
           else strlen (l ++ [NUL]))).
Proof.
  intros Hlen. unfold line_sized.
  pose proof (strlen_app_nul l) as Hle.
  pose proof (strlen_bounds (l ++ [NUL])) as [Hge _].
  unfold GEARMAN_INITIAL_WORKLOAD_SIZE in *.
  split; [rewrite length_app; simpl length; lia|].
  destruct strip; [|lia].
  destruct (Z.eq_dec (strlen (l ++ [NUL])) 0) as [Hz|Hnz].
  - right. rewrite Hz. split; reflexivity.
  - left. unfold Int.size_t. rewrite Z.mod_small by lia. lia.
Qed.

Lemma sized_client_nl_loop fuel e f u strip : forall w w',
  all_events (line_sized strip) w ->
  final_world (_client_nl_loop fuel e f u strip w) = Some w' ->
  all_events (line_sized strip) w'.
Proof.
  induction fuel as [|fuel IH]; intros w w' HP H; [discriminate|].
  cbn [_client_nl_loop] in H.
  unfold mbind at 1, proc_bind at 1, fgets in H.
  destruct (stdin w) as [|c s] eqn:Hs.
  - injection H as <-. exact HP.
  - pose proof (fgets_take_length
                  (Z.to_nat (GEARMAN_INITIAL_WORKLOAD_SIZE - 1)) (c :: s))
      as Hlen.
    destruct (fgets_take _ (c :: s)) as [l r]. cbn [fst] in Hlen.
    assert (HQ : line_sized strip
                   (EvDo f u (l ++ [NUL])
                      (if strip then Int.size_t (strlen (l ++ [NUL]) - 1)
                       else strlen (l ++ [NUL])))).
    { apply line_sized_submission.
      unfold GEARMAN_INITIAL_WORKLOAD_SIZE in *. lia. }
    revert H.
    apply (preserves_bind (all_events (line_sized strip))).
    + destruct strip; apply traced_client_do; try exact HQ;
        intros; exact I.
    + intros ? w1 w1' HP1 H1. exact (IH w1 w1' HP1 H1).
    + exact HP.
Qed.

(** X15.  The per-line loop never submits more than its line buffer
    holds: however the run ends and whatever standard input holds, every
    call of [gearman_client_do] the loop of [_client_nl] made was for a
    buffer of at most 8192 bytes; without stripping the size is between 0
    and 8191, and with stripping it is between 0 and 8190 unless the line
    starts with a NUL, the one case in which the size wraps to
    2^64 - 1. *)
Theorem client_nl_sizes_fit_the_buffer :
  forall (fuel : nat) (e : env) (function : string)
         (unique : option string) (strip : bool) (w w' : world),
    Forall (line_sized strip) (trace w) ->
    final_world (_client_nl_loop fuel e function unique strip w) = Some w' ->
    Forall (line_sized strip) (trace w').
Proof.
  intros fuel e function unique strip w w' HP H.
  exact (sized_client_nl_loop fuel e function unique strip w w' HP H).
Qed.

(** * The statements above at concrete inputs *)

Lemma read_workload_reads_all_input_witness :
  let e := Examples.world_around Examples.script_done 3 0
             Examples.always_success in
  let w := initial_world (Examples.bytes "abc") in
  exists size' w',
    _read_workload 10 e [] 0 0 w
    = Returned (stdin w, Z.of_nat (length (stdin w)), size') w'
    /\ Z.of_nat (length (stdin w)) <= size'
    /\ 8192 <= size' <= Z.max 8192 (2 * Z.of_nat (length (stdin w)))
    /\ stdin w' = []
    /\ only_read w w'.
Proof.
  intros e w. apply (read_workload_reads_all_input 10 e w).
  - intros i. simpl. lia.
  - intros n. reflexivity.
  - vm_compute. reflexivity.
  - simpl. lia.
Defined.

Lemma read_workload_exit_is_reported_witness :
  let e := Examples.reads_fail in
  let w := initial_world (Examples.bytes "abc") in
  let w' := {| trace := [EvStderr (msg_read_error 5)];
               stdin := Examples.bytes "abc"; errno := 5;
               n_do := 0; n_write := 0; n_read := 1; n_work := 0 |} in
  1 = 1
  /\ n_do w' = n_do w /\ n_write w' = n_write w /\ n_work w' = n_work w
  /\ ((exists size,
         realloc_ok e size = false
         /\ trace w' = trace w ++ [EvStderr msg_workload_alloc])
      \/ (exists k,
            (n_read w <= k)%nat
            /\ (forall j, (n_read w <= j < k)%nat -> 0 <= read_script e j)
            /\ read_script e k < 0
            /\ n_read w' = S k
            /\ errno w' = read_errno e k
            /\ trace w'
               = trace w ++ [EvStderr (msg_read_error (read_errno e k))])).
Proof.
  intros e w w'.
  apply (read_workload_exit_is_reported 10 e w 1 w').
  vm_compute. reflexivity.
Defined.

Lemma client_do_outputs_in_order_witness :
  let e := Examples.world_around Examples.script_data 2 0
             Examples.always_success in
  let w := initial_world [] in
  exists w',
    _client_do 10 e "reverse" None (Examples.bytes "abc") 3 w = Returned tt w'
    /\ outputs (trace w')
       = outputs (trace w)
         ++ flat_map (fun i => output_of_reply (client_do_script e i))
                     (seq (n_do w) 2)
    /\ n_do w' = (n_do w + 1 + 1)%nat
    /\ submitted (trace w')
       = submitted (trace w)
         ++ replicate 2 (take (Z.to_nat 3) (Examples.bytes "abc")).
Proof.
  intros e w.
  apply (client_do_outputs_in_order 1 10 e "reverse" None
           (Examples.bytes "abc") 3 w).
  - intros i Hi. assert (i = 0%nat) as -> by lia.
    left. split; [reflexivity | simpl; lia].
  - reflexivity.
  - lia.
Defined.

Lemma client_submits_all_of_stdin_witness :
  let e := Examples.world_around Examples.script_done 3 0
             Examples.always_success in
  let c := Examples.cmd_client in
  let w := initial_world (Examples.bytes "abc") in
  exists w',
    main 10 e c w = Returned 0 w'
    /\ trace w'
       = trace w
         ++ [EvDo (arg c (optind c)) (unique initial_locals) (stdin w)
                  (Z.of_nat (length (stdin w)));
             final_event e (client_do_script e (n_do w)) (n_write w)]
    /\ stdin w' = [].
Proof.
  intros e c w.
  apply (client_submits_all_of_stdin 10 e c initial_locals w);
    try reflexivity.
  - intros i. simpl. lia.
  - simpl. lia.
Defined.



Lemma unknown_option_prints_usage_witness :
  let e := Examples.world_around Examples.script_done 3 0
             Examples.always_success in
  let c := Examples.cmd_unknown_option in
  let w := initial_world (Examples.bytes "abc") in
  exists w',
    main 10 e c w = Exited 1 w'
    /\ trace w'
       = trace w
         ++ EvStderr (getopt_message c)
            :: map EvPrintf (usage_text (arg c 0))
    /\ outputs (trace w')
       = outputs (trace w) ++ map OutText (usage_text (arg c 0))
    /\ untouched w w'.
Proof.
  intros e c w.
  apply (proj2 (unknown_option_prints_usage c)). reflexivity.
Defined.

Lemma option_parsing_result_witness :
  let rs := [("w"%char, EmptyString); ("c"%char, "2"%string);
             ("N"%char, EmptyString); ("c"%char, "7"%string)] in
  let l := {| host := None; port := 0; count := 7; unique := None;
              job_per_newline := true; strip_newline := true;
              worker := true |} in
  let big := {| host := None; port := 65535; count := -1; unique := None;
                job_per_newline := false; strip_newline := false;
                worker := false |} in
  (worker l = given "w" rs
   /\ job_per_newline l = given "n" rs || given "N" rs
   /\ strip_newline l = given "N" rs
   /\ host l = last_optarg "h" rs
   /\ unique l = last_optarg "u" rs
   /\ count l = (match last_optarg "c" rs with
                 | Some a => Int.s32 (atoi a)
                 | None => 0
                 end)
   /\ port l = (match last_optarg "p" rs with
                | Some a => Int.u16 (atoi a)
                | None => 0
                end))
  /\ (count big = -1 /\ port big = 65535).
Proof.
  intros rs l big. split.
  - apply (proj1 option_parsing_result rs l). reflexivity.
  - apply (proj2 (proj2 (proj2 (proj2 (proj2 (proj2 (proj2 (proj2 (proj2
             (proj2 (proj2 option_parsing_result)))))))))) big).
    vm_compute. reflexivity.
Defined.

Lemma worker_nonpositive_count_is_no_limit_witness :
  let e := Examples.world_around Examples.script_done 3 0
             Examples.rounds_lost_third in
  let w := initial_world [] in
  _worker 10 e Examples.cmd_worker (-3) w
  = _worker 10 e Examples.cmd_worker 0 w.
Proof.
  intros e w.
  apply (worker_nonpositive_count_is_no_limit 10 e Examples.cmd_worker (-3) w).
  lia.
Defined.

Lemma worker_write_failure_exits_1_witness :
  let e := Examples.world_around Examples.script_done (-1) 0
             Examples.always_success in
  let w := initial_world [] in
  exists w',
    _worker_loop 5 e None 0 w = Exited 1 w'
    /\ trace w'
       = trace w
         ++ [EvWork;
             EvWrite (Examples.bytes "job") (write_script e (n_write w));
             EvStderr (msg_write_error (write_errno e (n_write w)))]
    /\ errno w' = write_errno e (n_write w).
Proof.
  intros e w.
  apply (worker_write_failure_exits_1 4 e 0 w (Examples.bytes "job")).
  - reflexivity.
  - simpl. lia.
Defined.

Lemma worker_with_command_never_writes_witness :
  let e := Examples.world_around Examples.script_done (-1) 0
             Examples.rounds_lost_third in
  let c := Examples.cmd_worker_command in
  let w := initial_world [] in
  match _worker 10 e c 5 w with
  | Returned _ w' =>
      exists m,
        trace w'
        = trace w
          ++ flat_map (round_events e (arg c (optind c + 1)))
                      (seq (n_work w) (S m))
          ++ closing_report e (n_work w + m)
        /\ n_work w' = (n_work w + S m)%nat
        /\ n_write w' = n_write w
        /\ successes e (n_work w) m
        /\ (work_ret (worker_work_script e (n_work w + m))
            <> GEARMAN_SUCCESS
            \/ 5 = Z.of_nat (S m))
  | Running => True
  | Exited _ _ | Trapped _ => False
  end.
Proof.
  intros e c w.
  apply (worker_with_command_never_writes 10 e c 5 w).
  - reflexivity.
  - vm_compute. reflexivity.
Defined.

Lemma worker_mode_leaves_client_side_alone_witness :
  let e := Examples.world_around Examples.script_done 3 0
             Examples.always_success in
  let w := initial_world (Examples.bytes "abc") in
  let w' := {| trace := [EvWork; EvWrite (Examples.bytes "job") 3;
                         EvWork; EvWrite (Examples.bytes "job") 3];
               stdin := Examples.bytes "abc"; errno := 0;
               n_do := 0; n_write := 2; n_read := 0; n_work := 2 |} in
  client_idle w w'.
Proof.
  intros e w w'.
  apply (worker_mode_leaves_client_side_alone 10 e Examples.cmd_worker_2
           {| host := None; port := 0; count := 2; unique := None;
              job_per_newline := false; strip_newline := false;
              worker := true |} w w').
  - reflexivity.
  - reflexivity.
  - vm_compute. reflexivity.
Defined.

Lemma setup_failure_touches_nothing_witness :
  let e := Examples.world_around Examples.script_done 3 0
             Examples.always_success in
  let w := initial_world (Examples.bytes "abc") in
  exists w',
    main 10 e Examples.cmd_no_function w = Exited 1 w' /\ untouched w w'.
Proof.
  intros e w.
  apply (setup_failure_touches_nothing 10 e Examples.cmd_no_function w).
  reflexivity.
Defined.

Lemma worker_echoes_the_jobs_witness :
  let e := Examples.world_around Examples.script_done 3 0
             Examples.always_success in
  let w := initial_world [] in
  exists w',
    _worker 10 e Examples.cmd_worker 2 w = Returned tt w'
    /\ outputs (trace w')
       = outputs (trace w)
         ++ flat_map (fun i => output_of_round (worker_work_script e i))
                     (seq (n_work w) (Z.to_nat 2)).
Proof.
  intros e w.
  apply (worker_echoes_the_jobs 10 e Examples.cmd_worker 2 w).
  - reflexivity.
  - reflexivity.
  - intros i. simpl. lia.
  - lia.
  - intros i Hi. reflexivity.
  - simpl. lia.
Defined.

Lemma client_nl_sizes_fit_the_buffer_witness :
  let e := Examples.world_around Examples.script_done 3 0
             Examples.always_success in
  let w := initial_world (NUL :: Examples.bytes "abc" ++ [LF]) in
  let w' := {| trace := [EvDo "reverse" None
                              (NUL :: Examples.bytes "abc" ++ [LF; NUL])
                              (2 ^ 64 - 1);
                         EvWrite (Examples.bytes "cba") 3];
               stdin := []; errno := 0; n_do := 1; n_write := 1;
               n_read := 0; n_work := 0 |} in
  Forall (line_sized true) (trace w').
Proof.
  intros e w w'.
  apply (client_nl_sizes_fit_the_buffer 10 e "reverse" None true w w').
  - constructor.
  - vm_compute. reflexivity.
Defined.

(** * One job per line with [-N]: which lines, which sizes *)

Lemma calls_app tr tr' : calls (tr ++ tr') = calls tr ++ calls tr'.
Proof. unfold calls. apply flat_map_app. Qed.

Lemma fgets_take_cut n : forall s l r,
  (0 < n)%nat -> s <> [] ->
  fgets_take n s = (l, r) ->
  line_cut n s l r.
Proof.
  induction n as [|n IH]; intros s l r Hn Hs H; [lia|].
  destruct s as [|c s]; [contradiction|].
  simpl in H. destruct (Byte.eqb c LF) eqn:Hc.
  - injection H as <- <-. apply byte_dec_bl in Hc. subst c.
    repeat split; [discriminate | simpl; lia | apply not_elem_of_nil |].
    left. reflexivity.
  - apply eqb_false in Hc.
    destruct (fgets_take n s) as [l' r'] eqn:E. injection H as <- <-.
    destruct n as [|n].
    { simpl in E. assert (l' = [] /\ r' = s) as [-> ->]
        by (destruct s; injection E as <- <-; split; reflexivity).
      repeat split; [discriminate | simpl; lia | apply not_elem_of_nil |].
      right. right. reflexivity. }
    destruct s as [|c' s'].
    { simpl in E. injection E as <- <-.
      repeat split; [discriminate | simpl; lia | apply not_elem_of_nil |].
      right. left. reflexivity. }
    destruct (IH (c' :: s') l' r') as (Happ & Hne & Hlen & Hlf & Hend);
      [lia | discriminate | exact E |].
    destruct l' as [|c'' l'']; [contradiction|].
    split; [simpl; f_equal; exact Happ|].
    split; [discriminate|]. split; [simpl in *; lia|]. split.
    + simpl length in *. replace (S (S (length l'')) - 1)%nat
        with (S (length l'')) by lia.
      replace (S (length l'') - 1)%nat with (length l'') in Hlf by lia.
      cbn [take]. apply not_elem_of_cons. split; [congruence|].
      exact Hlf.
    + destruct Hend as [Hlast | [Hr | Hfull]].
      * left. exact Hlast.
      * right. left. exact Hr.
      * right. right. simpl in *. lia.
Qed.

Lemma fgets_take_short n : forall s : list byte,
  LF ∉ s -> (length s <= n)%nat -> fgets_take n s = (s, []).
Proof.
  induction n as [|n IH]; intros s Hlf Hlen.
  - destruct s; [reflexivity | simpl in Hlen; lia].
  - destruct s as [|c s]; [reflexivity|].
    apply not_elem_of_cons in Hlf as [Hc Hlf].
    simpl. rewrite byte_eqb_neq by congruence.
    rewrite IH by (simpl in Hlen; auto; lia). reflexivity.
Qed.

(** [fgets] on input that is not at its end, with the line it cuts
    off. *)
Lemma fgets_cut w :
  stdin w <> [] ->
  exists l r,
    line_cut (Z.to_nat (GEARMAN_INITIAL_WORKLOAD_SIZE - 1)) (stdin w) l r
    /\ fgets GEARMAN_INITIAL_WORKLOAD_SIZE w
       = Returned (Some (l ++ [NUL])) (set_stdin r w).
Proof.
  intros Hne.
  assert (Hn : (0 < Z.to_nat (GEARMAN_INITIAL_WORKLOAD_SIZE - 1))%nat)
    by (unfold GEARMAN_INITIAL_WORKLOAD_SIZE; lia).
  destruct (fgets_take (Z.to_nat (GEARMAN_INITIAL_WORKLOAD_SIZE - 1))
                       (stdin w)) as [l r] eqn:E.
  exists l, r. split; [apply fgets_take_cut; assumption|].
  unfold fgets. destruct (stdin w) as [|c s]; [contradiction|].
  rewrite E. reflexivity.
Qed.

Lemma fgets_tail w (tail : list byte) :
  stdin w = tail -> tail <> [] -> LF ∉ tail ->
  Z.of_nat (length tail) <= GEARMAN_INITIAL_WORKLOAD_SIZE - 1 ->
  fgets GEARMAN_INITIAL_WORKLOAD_SIZE w
  = Returned (Some (tail ++ [NUL])) (set_stdin [] w).
Proof.
  intros Hs Hne Hlf Hlen. unfold fgets. rewrite Hs.
  rewrite fgets_take_short by (auto; lia).
  destruct tail; [contradiction | reflexivity].
Qed.

(** The loop of [_client_nl] with a line at hand, whatever the job
    server answers. *)
Lemma client_nl_step fuel e f u strip w workload w1 :
  fgets GEARMAN_INITIAL_WORKLOAD_SIZE w = Returned (Some workload) w1 ->
  _client_nl_loop (S fuel) e f u strip w
  = (_ ← _client_do fuel e f u workload
           (if strip then Int.size_t (strlen workload - 1)
            else strlen workload);
     _client_nl_loop fuel e f u strip) w1.
Proof.
  intros Hgets. cbn [_client_nl_loop].
  unfold mbind at 1, proc_bind at 1. rewrite Hgets.
  destruct strip; reflexivity.
Qed.

Lemma client_nl_end fuel e f u strip w :
  stdin w = [] ->
  _client_nl_loop (S fuel) e f u strip w = Returned tt w.
Proof.
  intros Hs. cbn [_client_nl_loop].
  unfold mbind, proc_bind, fgets. rewrite Hs. reflexivity.
Qed.

(** One line submitted while the job server answers with a terminal
    reply, with the whole effect on the trace. *)
Lemma client_nl_round_trace fuel e f u strip w workload r :
  fgets GEARMAN_INITIAL_WORKLOAD_SIZE w
  = Returned (Some workload) (set_stdin r w) ->
  terminal (do_ret (client_do_script e (n_do w))) = true ->
  exists w1,
    _client_nl_loop (S (S fuel)) e f u strip w
    = _client_nl_loop (S fuel) e f u strip w1
    /\ stdin w1 = r
    /\ n_do w1 = S (n_do w)
    /\ trace w1
       = trace w
         ++ [EvDo f u workload
                  (if strip then Int.size_t (strlen workload - 1)
                   else strlen workload);
             final_event e (client_do_script e (n_do w)) (n_write w)].
Proof.
  intros Hgets Hterm.
  set (size := if strip then Int.size_t (strlen workload - 1)
               else strlen workload).
  destruct (client_do_loop_terminal fuel e f u workload size
              (indeterminate e (n_do (set_stdin r w))) (set_stdin r w))
    as (w1 & Hrun & Htrace & Hstdin & Hn); [exact Hterm|].
  exists w1. split; [|split; [exact Hstdin|split; [exact Hn|exact Htrace]]].
  rewrite (client_nl_step _ _ _ _ _ _ _ _ Hgets). fold size.
  unfold mbind, proc_bind, _client_do. rewrite Hrun. reflexivity.
Qed.

Lemma calls_round tr f u workload size ev :
  (forall f' u' wl sz, ev <> EvDo f' u' wl sz) ->
  calls (tr ++ [EvDo f u workload size; ev]) = calls tr ++ [(workload, size)].
Proof.
  intros Hev. rewrite calls_app. f_equal. simpl.
  destruct ev; try reflexivity. exfalso. eapply Hev. reflexivity.
Qed.

Lemma final_event_no_call e r k f u wl sz : final_event e r k <> EvDo f u wl sz.
Proof. unfold final_event. destruct (report e _); discriminate. Qed.

Lemma stripped_line (line : list byte) :
  plain_line line ->
  stripped ((line ++ [LF]) ++ [NUL]) = Z.of_nat (length line).
Proof.
  intros (Hlf & Hnul & Hlen).
  assert (Hnul' : NUL ∉ line ++ [LF]).
  { intros Hin. apply elem_of_app in Hin as [Hin|Hin]; [contradiction|].
    apply list_elem_of_singleton in Hin. discriminate. }
  unfold stripped.
  rewrite (strlen_terminated (line ++ [LF]) [] Hnul').
  rewrite length_app. simpl length.
  unfold GEARMAN_INITIAL_WORKLOAD_SIZE in Hlen.
  unfold Int.size_t. rewrite Z.mod_small by lia. lia.
Qed.

Lemma stripped_tail (tail : list byte) :
  tail <> [] -> (NUL ∉ tail) ->
  Z.of_nat (length tail) < GEARMAN_INITIAL_WORKLOAD_SIZE - 1 ->
  stripped (tail ++ [NUL]) = Z.of_nat (length tail) - 1.
Proof.
  intros Hne Hnul Hlen. unfold stripped.
  rewrite (strlen_terminated tail [] Hnul).
  assert (0 < length tail)%nat by (destruct tail; [contradiction|simpl; lia]).
  unfold GEARMAN_INITIAL_WORKLOAD_SIZE in Hlen.
  unfold Int.size_t. rewrite Z.mod_small by lia. reflexivity.
Qed.

Lemma client_nl_strip_run lines : forall (tail : list byte) fuel e f u w,
  stdin w = input_of_lines lines ++ tail ->
  Forall plain_line lines ->
  plain_line tail ->
  (forall i, terminal (do_ret (client_do_script e i)) = true) ->
  (length lines + 1 < fuel)%nat ->
  exists w',
    _client_nl_loop fuel e f u true w = Returned tt w'
    /\ stdin w' = []
    /\ calls (trace w')
       = calls (trace w)
         ++ map (fun line => ((line ++ [LF]) ++ [NUL],
                              Z.of_nat (length line))) lines
         ++ match tail with
            | [] => []
            | _ :: _ => [(tail ++ [NUL], Z.of_nat (length tail) - 1)]
            end.
Proof.
  induction lines as [|line lines IH];
    intros tail fuel e f u w Hs Hplain Htail Hterm Hfuel.
  - simpl in Hs. destruct fuel as [|[|fuel]]; [simpl in Hfuel; lia..|].
    destruct tail as [|c tail'] eqn:Ht.
    + exists w. split; [apply client_nl_end; exact Hs|].
      split; [exact Hs|]. simpl. rewrite app_nil_r. reflexivity.
    + rewrite <- Ht in *. destruct Htail as (Hlf & Hnul & Hlen).
      assert (Hne : tail <> []) by (rewrite Ht; discriminate).
      assert (Hgets := fgets_tail w tail Hs Hne Hlf ltac:(lia)).
      destruct (client_nl_round_trace fuel e f u true w _ _ Hgets (Hterm _))
        as (w1 & -> & Hstdin1 & _ & Htr1).
      exists w1. split; [apply client_nl_end; exact Hstdin1|].
      split; [exact Hstdin1|].
      rewrite Htr1, calls_round by apply final_event_no_call.
      simpl. f_equal. f_equal. f_equal.
      apply (stripped_tail tail Hne Hnul Hlen).
  - destruct fuel as [|[|fuel]]; [simpl in Hfuel; lia..|].
    apply Forall_cons in Hplain as [Hline Hplain].
    assert (Hs' : stdin w = line ++ LF :: (input_of_lines lines ++ tail)).
    { rewrite Hs. unfold input_of_lines. simpl.
      rewrite <- !app_assoc. reflexivity. }
    assert (Hgets := fgets_line w line (input_of_lines lines ++ tail) Hs'
                       (proj1 Hline) (proj2 (proj2 Hline))).
    destruct (client_nl_round_trace fuel e f u true w _ _ Hgets (Hterm _))
      as (w1 & -> & Hstdin1 & _ & Htr1).
    destruct (IH tail (S fuel) e f u w1)
      as (w' & Hrun & Hend & Hcalls);
      [exact Hstdin1 | exact Hplain | exact Htail | exact Hterm
       | simpl in Hfuel; lia |].
    exists w'. split; [exact Hrun|]. split; [exact Hend|].
    rewrite Hcalls, Htr1, calls_round by apply final_event_no_call.
    fold (stripped ((line ++ [LF]) ++ [NUL])).
    rewrite (stripped_line line Hline).
    simpl map. rewrite <- !app_assoc. reflexivity.
Qed.

(** C10.  With [-N] the loop of [_client_nl] hands every line that
    [fgets] reads to [_client_do], in the order read and with the size
    [strlen(line) - 1] computed in [size_t], and goes on with the rest of
    standard input until it is at its end.  For a line of one byte or
    more that size is the length less the last byte, whatever that byte
    is; for a line that starts with a NUL it is 2^64 - 1.  So for
    standard input made of lines closed by a newline and possibly a last
    line that is not, and a job server that ends each job at once, the
    calls of [gearman_client_do] are, line by line, the line with the
    size of the line without its newline, and for the unclosed last line
    its length less one: its last byte is cut off although it is no
    newline.  Two runs of [gearman -N reverse] show it: on the input
    "abc" without a newline the job is submitted with size 2, and on an
    input starting with a NUL with size 2^64 - 1. *)
Theorem client_nl_strip_size :
  (forall fuel e function unique w w',
     Forall stripped_size (trace w) ->
     final_world (_client_nl_loop fuel e function unique true w) = Some w' ->
     Forall stripped_size (trace w'))
  /\ (forall line : list byte,
        (0 < strlen line < 2 ^ 64 ->
         Int.size_t (strlen line - 1) = strlen line - 1)
        /\ (strlen line = 0 -> Int.size_t (strlen line - 1) = 2 ^ 64 - 1))
  /\ (forall fuel e function unique w,
        stdin w <> [] ->
        exists l r,
          line_cut (Z.to_nat (GEARMAN_INITIAL_WORKLOAD_SIZE - 1))
                   (stdin w) l r
          /\ _client_nl_loop (S fuel) e function unique true w
             = (_ ← _client_do fuel e function unique (l ++ [NUL])
                      (Int.size_t (strlen (l ++ [NUL]) - 1));
                _client_nl_loop fuel e function unique true)
                 (set_stdin r w)
          /\ (terminal (do_ret (client_do_script e (n_do w))) = true ->
              forall fuel', fuel = S fuel' ->
              exists w1,
                _client_nl_loop (S fuel) e function unique true w
                = _client_nl_loop fuel e function unique true w1
                /\ stdin w1 = r
                /\ calls (trace w1)
                   = calls (trace w)
                     ++ [(l ++ [NUL],
                          Int.size_t (strlen (l ++ [NUL]) - 1))]))
  /\ (forall fuel e function unique w,
        stdin w = [] ->
        _client_nl_loop (S fuel) e function unique true w = Returned tt w)
  /\ (forall (lines : list (list byte)) (tail : list byte)
             fuel e function unique w,
        stdin w = input_of_lines lines ++ tail ->
        Forall plain_line lines ->
        plain_line tail ->
        (forall i, terminal (do_ret (client_do_script e i)) = true) ->
        (length lines + 1 < fuel)%nat ->
        exists w',
          _client_nl_loop fuel e function unique true w = Returned tt w'
          /\ stdin w' = []
          /\ calls (trace w')
             = calls (trace w)
               ++ map (fun line => ((line ++ [LF]) ++ [NUL],
                                    Z.of_nat (length line))) lines
               ++ match tail with
                  | [] => []
                  | _ :: _ => [(tail ++ [NUL], Z.of_nat (length tail) - 1)]
                  end)
  /\ (trace <$> final_world
        (main 10 (Examples.world_around Examples.script_done 3 0
                    Examples.always_success)
              Examples.cmd_client_strip
              (initial_world (Examples.bytes "abc"))))
     = Some [EvDo "reverse" None (Examples.bytes "abc" ++ [NUL]) 2;
             EvWrite (Examples.bytes "cba") 3]
  /\ (trace <$> final_world
        (main 10 (Examples.world_around Examples.script_done 3 0
                    Examples.always_success)
              Examples.cmd_client_strip
              (initial_world (NUL :: Examples.bytes "abc" ++ [LF]))))
     = Some [EvDo "reverse" None (NUL :: Examples.bytes "abc" ++ [LF; NUL])
                  (2 ^ 64 - 1);
             EvWrite (Examples.bytes "cba") 3].
Proof.
  split; [|split; [|split; [|split; [|split; [|split]]]]].
  - intros fuel e function unique w w' HP H.
    exact (stripped_client_nl_loop fuel e function unique w w' HP H).
  - intros line. split.
    + intros Hlen. unfold Int.size_t. apply Z.mod_small. lia.
    + intros ->. reflexivity.
  - intros fuel e function unique w Hne.
    destruct (fgets_cut w Hne) as (l & r & Hcut & Hgets).
    exists l, r. split; [exact Hcut|]. split.
    + apply (client_nl_step fuel e function unique true w _ _ Hgets).
    + intros Hterm fuel' ->.
      destruct (client_nl_round_trace fuel' e function unique true w _ _
                  Hgets Hterm) as (w1 & Hrun & Hstdin1 & _ & Htr1).
      exists w1. split; [exact Hrun|]. split; [exact Hstdin1|].
      rewrite Htr1. apply calls_round. apply final_event_no_call.
  - intros fuel e function unique w Hs. apply client_nl_end. exact Hs.
  - intros lines tail fuel e function unique w.
    apply client_nl_strip_run.
  - vm_compute. reflexivity.
  - vm_compute. reflexivity.
Qed.

Lemma client_nl_strip_size_witness :
  let e := Examples.world_around Examples.script_done 3 0
             Examples.always_success in
  let w := initial_world (Examples.bytes "abc") in
  let lines := [Examples.bytes "ab"; Examples.bytes "cd"] in
  let tail := Examples.bytes "ef" in
  let w2 := initial_world (input_of_lines lines ++ tail) in
  let w0 := initial_world [] in
  Forall stripped_size
    [EvDo "reverse" None (Examples.bytes "abc" ++ [NUL]) 2;
     EvWrite (Examples.bytes "cba") 3]
  /\ Int.size_t (strlen (Examples.bytes "abc" ++ [NUL]) - 1) = 2
  /\ Int.size_t (strlen (NUL :: Examples.bytes "abc") - 1) = 2 ^ 64 - 1
  /\ (exists l r,
        line_cut (Z.to_nat (GEARMAN_INITIAL_WORKLOAD_SIZE - 1))
                 (stdin w2) l r
        /\ _client_nl_loop 3 e "reverse" None true w2
           = (_ ← _client_do 2 e "reverse" None (l ++ [NUL])
                    (Int.size_t (strlen (l ++ [NUL]) - 1));
              _client_nl_loop 2 e "reverse" None true) (set_stdin r w2)
        /\ exists w1,
             _client_nl_loop 3 e "reverse" None true w2
             = _client_nl_loop 2 e "reverse" None true w1
             /\ stdin w1 = r
             /\ calls (trace w1)
                = calls (trace w2)
                  ++ [(l ++ [NUL], Int.size_t (strlen (l ++ [NUL]) - 1))])
  /\ _client_nl_loop 1 e "reverse" None true w0 = Returned tt w0
  /\ (exists w',
        _client_nl_loop 10 e "reverse" None true w2 = Returned tt w'
        /\ stdin w' = []
        /\ calls (trace w')
           = calls (trace w2)
             ++ map (fun line => ((line ++ [LF]) ++ [NUL],
                                  Z.of_nat (length line))) lines
             ++ [(tail ++ [NUL], Z.of_nat (length tail) - 1)]).
Proof.
  intros e w lines tail w2 w0.
  split; [|split; [|split; [|split; [|split]]]].
  - apply (proj1 client_nl_strip_size 10%nat e "reverse"%string None w
             {| trace := [EvDo "reverse" None (Examples.bytes "abc" ++ [NUL]) 2;
                          EvWrite (Examples.bytes "cba") 3];
                stdin := []; errno := 0; n_do := 1; n_write := 1;
                n_read := 0; n_work := 0 |}).
    + constructor.
    + vm_compute. reflexivity.
  - apply (proj1 (proj1 (proj2 client_nl_strip_size)
                    (Examples.bytes "abc" ++ [NUL]))).
    vm_compute. split; reflexivity.
  - apply (proj2 (proj1 (proj2 client_nl_strip_size)
                    (NUL :: Examples.bytes "abc"))).
    reflexivity.
  - destruct (proj1 (proj2 (proj2 client_nl_strip_size))
                2%nat e "reverse"%string None w2)
      as (l & r & Hcut & Hstep & Hround); [discriminate|].
    exists l, r. split; [exact Hcut|]. split; [exact Hstep|].
    exact (Hround eq_refl 1%nat eq_refl).
  - apply (proj1 (proj2 (proj2 (proj2 client_nl_strip_size)))
             0%nat e "reverse"%string None w0).
    reflexivity.
  - apply (proj1 (proj2 (proj2 (proj2 (proj2 client_nl_strip_size))))
             lines tail 10%nat e "reverse"%string None w2).
    + reflexivity.
    + repeat constructor;
        try (simpl; repeat (apply not_elem_of_cons; split; [discriminate|]);
             apply not_elem_of_nil).
    + repeat constructor;
        try (simpl; repeat (apply not_elem_of_cons; split; [discriminate|]);
             apply not_elem_of_nil).
    + intros i. reflexivity.
    + simpl. lia.
Defined.

(** * The exit status of [main], mode by mode *)

Lemma never_exits_bind {A B} (m : proc A) (k : A -> proc B) :
  never_exits m -> (forall a, never_exits (k a)) -> never_exits (mbind k m).
Proof.
  intros Hm Hk w code w' H. unfold mbind, proc_bind in H.
  destruct (m w) as [a w1|c w1|w1|] eqn:E; try discriminate.
  - exact (Hk a w1 code w' H).
  - exact (Hm w c w1 E).
Qed.

Lemma never_exits_effect f : never_exits (effect f).
Proof. intros w code w'. discriminate. Qed.

Lemma never_exits_ret {A} (a : A) : never_exits (mret a).
Proof. intros w code w'. discriminate. Qed.

Lemma never_exits_trap {A} : never_exits (@trap A).
Proof. intros w code w'. discriminate. Qed.

Lemma never_exits_write e data : never_exits (write e data).
Proof. intros w code w'. discriminate. Qed.

Lemma never_exits_do e f u workload size :
  never_exits (gearman_client_do e f u workload size).
Proof. intros w code w'. discriminate. Qed.

Lemma never_exits_fgets size : never_exits (fgets size).
Proof.
  intros w code w'. unfold fgets. destruct (stdin w); [discriminate|].
  destruct (fgets_take _ _). discriminate.
Qed.

(** [_client_do] leaves through [exit] only from the test of the
    unassigned [write_ret]. *)
Lemma client_do_loop_never_exits fuel e f u workload size write_ret :
  0 <= write_ret ->
  never_exits (_client_do_loop fuel e f u workload size write_ret).
Proof.
  intros Hw. induction fuel as [|fuel IH]; [intros w code w'; discriminate|].
  cbn [_client_do_loop]. apply never_exits_bind; [apply never_exits_do|].
  intros r.
  destruct (do_ret r);
    first [ unfold fprintf_stderr; apply never_exits_effect
          | apply never_exits_bind; [apply never_exits_write|]; intros _;
            first [ apply never_exits_ret
                  | destruct (Z.ltb_spec write_ret 0); [lia | exact IH] ]
          | idtac ].
  destruct (gearman_client_do_status r) as [numerator denominator].
  destruct (Int.udiv32 _ _); [|apply never_exits_trap].
  apply never_exits_bind; [unfold printf; apply never_exits_effect|].
  intros _. exact IH.
Qed.

Lemma client_do_never_exits fuel e f u workload size :
  (forall i, 0 <= indeterminate e i) ->
  never_exits (_client_do fuel e f u workload size).
Proof.
  intros Hw w code w'. unfold _client_do.
  apply client_do_loop_never_exits. apply Hw.
Qed.

Lemma client_nl_loop_never_exits fuel e f u strip :
  (forall i, 0 <= indeterminate e i) ->
  never_exits (_client_nl_loop fuel e f u strip).
Proof.
  intros Hw. induction fuel as [|fuel IH]; [intros w code w'; discriminate|].
  cbn [_client_nl_loop]. apply never_exits_bind; [apply never_exits_fgets|].
  intros [line|]; [|apply never_exits_ret].
  apply never_exits_bind; [|intros _; exact IH].
  destruct strip; apply client_do_never_exits; exact Hw.
Qed.

Lemma worker_loop_never_exits e exec_argv :
  (forall i, 0 <= write_script e i) ->
  forall fuel count, never_exits (_worker_loop fuel e exec_argv count).
Proof.
  intros Hw. induction fuel as [|fuel IH]; intros count w code w' H;
    [discriminate|].
  cbn [_worker_loop] in H. unfold mbind at 1, proc_bind at 1 in H.
  destruct (worker_work_returns e exec_argv Hw w) as (w1 & Hwork & _).
  rewrite Hwork in H.
  destruct (decide _); [discriminate|].
  destruct (count >? 0); [|exact (IH _ _ _ _ H)].
  destruct (count - 1 =? 0); [discriminate | exact (IH _ _ _ _ H)].
Qed.

Lemma client_nl_when_ready fuel e c u strip :
  client_ready e c = true ->
  _client_nl fuel e c u strip
  = _client_nl_loop fuel e (arg c (optind c)) u strip.
Proof.
  unfold client_ready, _client_nl. intros H.
  apply andb_prop in H as [H Hadd]. apply andb_prop in H as [Hargc Hcreate].
  rewrite Hargc, Hcreate. simpl. apply bool_decide_eq_true in Hadd.
  destruct (decide (client_add_server_ret e ≠ GEARMAN_SUCCESS));
    [contradiction|].
  reflexivity.
Qed.

Lemma stderr_lines_app tr tr' :
  stderr_lines (tr ++ tr') = stderr_lines tr ++ stderr_lines tr'.
Proof. unfold stderr_lines. apply flat_map_app. Qed.

Lemma stderr_lines_round e f u workload size r k :
  stderr_lines [EvDo f u workload size; final_event e r k]
  = match report e (do_ret r) with
    | Some msg => [msg]
    | None => []
    end.
Proof. unfold final_event. destruct (report e _); reflexivity. Qed.

(** With a job server that ends every job at once the loop of
    [_client_nl] reads standard input to its end and returns; what it
    sent to standard error are the reports of the calls it made. *)
Lemma client_nl_loop_returns e f u strip :
  (forall i, terminal (do_ret (client_do_script e i)) = true) ->
  forall fuel w,
    (length (stdin w) < fuel)%nat ->
    exists w' n,
      _client_nl_loop fuel e f u strip w = Returned tt w'
      /\ stdin w' = []
      /\ n_do w' = (n_do w + n)%nat
      /\ stderr_lines (trace w')
         = stderr_lines (trace w) ++ reports e (n_do w) n.
Proof.
  intros Hterm. induction fuel as [|fuel IH]; intros w Hlen; [lia|].
  destruct (stdin w) as [|c s] eqn:Hs.
  - exists w, 0%nat. split; [apply client_nl_end; exact Hs|].
    split; [exact Hs|]. split; [lia|].
    unfold reports. simpl. rewrite app_nil_r. reflexivity.
  - destruct fuel as [|fuel]; [simpl in Hlen; lia|].
    destruct (fgets_some w) as (c' & l & r & Hgets & Hsplit);
      [rewrite Hs; discriminate|].
    destruct (client_nl_round_trace fuel e f u strip w _ _ Hgets (Hterm _))
      as (w1 & Hrun & Hstdin1 & Hn1 & Htr1).
    destruct (IH w1) as (w' & n & Hrun' & Hend & Hn & Herr).
    { rewrite Hstdin1. rewrite <- Hs, <- Hsplit in Hlen.
      rewrite length_app in Hlen. simpl in Hlen. lia. }
    exists w', (S n). split; [rewrite Hrun; exact Hrun'|].
    split; [exact Hend|]. split; [lia|].
    rewrite Herr, Htr1, stderr_lines_app, stderr_lines_round, Hn1.
    rewrite <- app_assoc. reflexivity.
Qed.

(** C1, as the code has it.  [main] ends with status 1 whenever set-up
    fails, no [exit] it can reach has another status and it returns
    nothing but 0.  Once the single synchronous job is submitted, the
    terminal answer of [gearman_client_do], a lost connection or any other
    error included, is reported and [main] returns 0: "Job failed" goes to
    standard error for [GEARMAN_WORK_FAIL], the error text of the client
    for every other error.  Likewise a round of the worker that fails is
    reported on standard error and [main] returns 0.  With [-n] or [-N],
    once set-up is over and the job server ends every job at once,
    failures included, [main] reads standard input to its end and returns
    0, and standard error holds one report for each job that did not
    succeed, in the order of the jobs.  After set-up the one [exit] left
    on the client side, besides those of [_read_workload], is the one
    behind the unassigned [write_ret] of [_client_do]: where that value
    is not negative the per-line client never exits, whatever the job
    server answers, and the single-job client exits only from
    [_read_workload]; a worker whose writes to standard output succeed
    never exits after set-up. *)
Theorem main_exit_status :
  forall (e : env) (c : cmdline),
    (setup_fails e c = true ->
     forall fuel w, exists w', main fuel e c w = Exited 1 w')
    /\ (forall fuel w code w',
          (main fuel e c w = Exited code w' -> code = 1)
          /\ (main fuel e c w = Returned code w' -> code = 0))
    /\ (forall l fuel w workload workload_offset workload_size w1 k,
          getopt_loop (getopt_results c) initial_locals = Some l ->
          signal_errno e = None ->
          worker l = false -> job_per_newline l = false ->
          client_ready e c = true ->
          _read_workload fuel e [] 0 0 w
          = Returned (workload, workload_offset, workload_size) w1 ->
          (forall i, (i < k)%nat ->
             benign (indeterminate e (n_do w1))
                    (client_do_script e (n_do w1 + i))) ->
          terminal (do_ret (client_do_script e (n_do w1 + k))) = true ->
          (k < fuel)%nat ->
          exists w',
            main fuel e c w = Returned 0 w'
            /\ match report e (do_ret (client_do_script e (n_do w1 + k))) with
               | Some msg => last (trace w') = Some (EvStderr msg)
               | None => exists ret,
                   last (trace w')
                   = Some (EvWrite
                             (do_result (client_do_script e (n_do w1 + k)))
                             ret)
               end)
    /\ (forall l fuel w k,
          getopt_loop (getopt_results c) initial_locals = Some l ->
          signal_errno e = None ->
          worker l = true ->
          worker_ready e c = true ->
          (forall i, 0 <= write_script e i) ->
          count l <= 0 \/ Z.of_nat k < count l ->
          successes e (n_work w) k ->
          work_ret (worker_work_script e (n_work w + k)) <> GEARMAN_SUCCESS ->
          (k < fuel)%nat ->
          exists w',
            main fuel e c w = Returned 0 w'
            /\ last (trace w') = Some (EvStderr (worker_error e ++ nl)))
    /\ (forall l fuel w,
          getopt_loop (getopt_results c) initial_locals = Some l ->
          signal_errno e = None ->
          worker l = false -> job_per_newline l = true ->
          client_ready e c = true ->
          (forall i, terminal (do_ret (client_do_script e i)) = true) ->
          (length (stdin w) < fuel)%nat ->
          exists w' n,
            main fuel e c w = Returned 0 w'
            /\ stdin w' = []
            /\ n_do w' = (n_do w + n)%nat
            /\ stderr_lines (trace w')
               = stderr_lines (trace w) ++ reports e (n_do w) n)
    /\ (forall l,
          getopt_loop (getopt_results c) initial_locals = Some l ->
          signal_errno e = None ->
          (worker l = false -> job_per_newline l = true ->
           client_ready e c = true ->
           (forall i, 0 <= indeterminate e i) ->
           forall fuel, never_exits (main fuel e c))
          /\ (worker l = false -> job_per_newline l = false ->
              client_ready e c = true ->
              (forall i, 0 <= indeterminate e i) ->
              forall fuel w code w',
                main fuel e c w = Exited code w' ->
                _read_workload fuel e [] 0 0 w = Exited code w')
          /\ (worker l = true ->
              worker_ready e c = true ->
              (forall i, 0 <= write_script e i) ->
              forall fuel, never_exits (main fuel e c))).
Proof.
  intros e c. split; [|split; [|split; [|split; [|split]]]].
  - intros H fuel w. apply main_setup_failure. exact H.
  - intros fuel w code w'. split.
    + apply exits_only_1_main.
    + apply main_returns_0.
  - intros l fuel w workload workload_offset workload_size w1 k
           Hopt Hsig Hworker Hnl Hready Hread Hbenign Hterm Hfuel.
    destruct (client_do_loop_returns e (arg c (optind c)) (unique l) workload
                workload_offset k fuel (indeterminate e (n_do w1)) w1
                Hbenign Hterm Hfuel) as (w' & Hrun & _ & Hlast).
    exists w'. split; [|exact Hlast].
    unfold main. rewrite Hopt, Hsig, Hworker, Hnl.
    rewrite (client_when_ready _ _ _ _ Hready).
    unfold mbind, proc_bind. rewrite Hread. unfold _client_do.
    rewrite Hrun. reflexivity.
  - intros l fuel w k Hopt Hsig Hworker Hready Hwrites Hcount Hs Hfail Hfuel.
    destruct (worker_loop_returns_on_failure e (exec_argv_of c) Hwrites k fuel
                (count l) w Hcount Hs Hfail Hfuel) as (w' & Hrun & _ & Hlast).
    exists w'. split; [|exact Hlast].
    unfold main. rewrite Hopt, Hsig, Hworker.
    rewrite (worker_when_ready _ _ _ _ Hready).
    unfold mbind, proc_bind. rewrite Hrun. reflexivity.
  - intros l fuel w Hopt Hsig Hworker Hnl Hready Hterm Hfuel.
    destruct (client_nl_loop_returns e (arg c (optind c)) (unique l)
                (strip_newline l) Hterm fuel w Hfuel)
      as (w' & n & Hrun & Hend & Hn & Herr).
    exists w', n. split; [|split; [exact Hend|split; [exact Hn|exact Herr]]].
    unfold main. rewrite Hopt, Hsig, Hworker, Hnl.
    rewrite (client_nl_when_ready _ _ _ _ _ Hready).
    unfold mbind, proc_bind. rewrite Hrun. reflexivity.
  - intros l Hopt Hsig. split; [|split].
    + intros Hworker Hnl Hready Hw fuel.
      unfold main. rewrite Hopt, Hsig, Hworker, Hnl.
      rewrite (client_nl_when_ready _ _ _ _ _ Hready).
      apply never_exits_bind; [|intros a; apply never_exits_ret].
      apply client_nl_loop_never_exits. exact Hw.
    + intros Hworker Hnl Hready Hw fuel w code w'.
      unfold main. rewrite Hopt, Hsig, Hworker, Hnl.
      rewrite (client_when_ready _ _ _ _ Hready).
      unfold mbind, proc_bind.
      destruct (_read_workload fuel e [] 0 0 w)
        as [[[workload workload_offset] workload_size] w1|code1 w1|w1|];
        try discriminate.
      * destruct (_client_do fuel e (arg c (optind c)) (unique l) workload
                    workload_offset w1) as [a w2|code2 w2|w2|] eqn:Hdo;
          try discriminate.
        exfalso.
        exact (client_do_never_exits _ _ _ _ _ _ Hw _ _ _ Hdo).
      * intros H. injection H as -> ->. reflexivity.
    + intros Hworker Hready Hw fuel.
      unfold main. rewrite Hopt, Hsig, Hworker.
      rewrite (worker_when_ready _ _ _ _ Hready).
      apply never_exits_bind; [|intros a; apply never_exits_ret].
      apply worker_loop_never_exits. exact Hw.
Qed.

Lemma main_exit_status_witness :
  let lost := Examples.world_around Examples.script_lost 3 0
                Examples.always_success in
  let failed := Examples.world_around Examples.script_fail 3 0
                  Examples.always_success in
  let third := Examples.world_around Examples.script_done 3 0
                 Examples.rounds_lost_third in
  let abc := initial_world (Examples.bytes "abc") in
  let two := initial_world (input_of_lines [Examples.bytes "ab";
                                            Examples.bytes "cd"]) in
  (setup_fails lost Examples.cmd_no_function = true
   /\ exit_status (main 10 lost Examples.cmd_no_function abc) = Some 1)
  /\ (exists code w',
        main 10 lost Examples.cmd_no_function abc = Exited code w'
        /\ code = 1)
  /\ (exists code w',
        main 10 lost Examples.cmd_client abc = Returned code w' /\ code = 0)
  /\ (exists w',
        main 10 lost Examples.cmd_client abc = Returned 0 w'
        /\ last (trace w') = Some (EvStderr ("lost connection" ++ nl)))
  /\ (exists w',
        main 10 failed Examples.cmd_client abc = Returned 0 w'
        /\ last (trace w') = Some (EvStderr msg_job_failed))
  /\ (exists w',
        main 10 third Examples.cmd_worker abc = Returned 0 w'
        /\ last (trace w') = Some (EvStderr ("lost connection" ++ nl)))
  /\ (exists w' n,
        main 10 failed Examples.cmd_client_strip two = Returned 0 w'
        /\ stdin w' = []
        /\ n_do w' = (n_do two + n)%nat
        /\ stderr_lines (trace w')
           = stderr_lines (trace two) ++ reports failed (n_do two) n)
  /\ never_exits (main 10 lost Examples.cmd_client_strip)
  /\ _read_workload 10 Examples.reads_fail [] 0 0 abc
     = Exited 1 {| trace := [EvStderr (msg_read_error 5)];
                   stdin := Examples.bytes "abc"; errno := 5; n_do := 0;
                   n_write := 0; n_read := 1; n_work := 0 |}
  /\ never_exits (main 10 third Examples.cmd_worker).
Proof.
  intros lost failed third abc two.
  pose (client := {| host := None; port := 0; count := 0; unique := None;
                     job_per_newline := false; strip_newline := false;
                     worker := false |}).
  pose (per_line := {| host := None; port := 0; count := 0; unique := None;
                       job_per_newline := true; strip_newline := true;
                       worker := false |}).
  pose (as_worker := {| host := None; port := 0; count := 0; unique := None;
                        job_per_newline := false; strip_newline := false;
                        worker := true |}).
  split; [|split; [|split; [|split; [|split; [|split; [|split; [|split;
    [|split]]]]]]]].
  - split; [reflexivity|].
    destruct (proj1 (main_exit_status lost Examples.cmd_no_function)
                eq_refl 10%nat abc) as (w' & ->).
    reflexivity.
  - eexists. eexists. split; [vm_compute; reflexivity|].
    refine (proj1 (proj1 (proj2 (main_exit_status lost
                                   Examples.cmd_no_function))
                           10%nat abc _ _) _).
    vm_compute. reflexivity.
  - eexists. eexists. split; [vm_compute; reflexivity|].
    refine (proj2 (proj1 (proj2 (main_exit_status lost Examples.cmd_client))
                           10%nat abc _ _) _).
    vm_compute. reflexivity.
  - apply (proj1 (proj2 (proj2 (main_exit_status lost Examples.cmd_client)))
             initial_locals 10%nat abc (Examples.bytes "abc") 3 8192
             {| trace := []; stdin := []; errno := 0; n_do := 0;
                n_write := 0; n_read := 2; n_work := 0 |} 0%nat);
      try reflexivity; [intros i Hi; lia | lia].
  - apply (proj1 (proj2 (proj2 (main_exit_status failed Examples.cmd_client)))
             initial_locals 10%nat abc (Examples.bytes "abc") 3 8192
             {| trace := []; stdin := []; errno := 0; n_do := 0;
                n_write := 0; n_read := 2; n_work := 0 |} 0%nat);
      try reflexivity; [intros i Hi; lia | lia].
  - apply (proj1 (proj2 (proj2 (proj2
                    (main_exit_status third Examples.cmd_worker))))
             as_worker 10%nat abc 2%nat);
      try reflexivity.
    + intros i. simpl. lia.
    + left. simpl. lia.
    + intros i Hi. simpl in Hi.
      destruct i as [|[|i]]; [reflexivity | reflexivity | lia].
    + discriminate.
    + lia.
  - apply (proj1 (proj2 (proj2 (proj2 (proj2
                    (main_exit_status failed Examples.cmd_client_strip)))))
             per_line 10%nat two);
      try reflexivity.
    simpl. lia.
  - apply (proj1 (proj2 (proj2 (proj2 (proj2 (proj2
                    (main_exit_status lost Examples.cmd_client_strip)))))
                  per_line eq_refl eq_refl));
      try reflexivity.
  - apply (proj1 (proj2 (proj2 (proj2 (proj2 (proj2 (proj2
                    (main_exit_status Examples.reads_fail
                                      Examples.cmd_client)))))
                  client eq_refl eq_refl)) eq_refl eq_refl eq_refl).
    + intros i. apply Z.le_refl.
    + vm_compute. reflexivity.
  - apply (proj2 (proj2 (proj2 (proj2 (proj2 (proj2 (proj2
                    (main_exit_status third Examples.cmd_worker)))))
                  as_worker eq_refl eq_refl)) eq_refl eq_refl).
    intros i. simpl. lia.
Defined.

